(** * OpenULINK host driver (src/jtag/drivers/ulink.c): command pipeline

    A shallow embedding of the command queue, the request translators, the
    USB exchange, the driver entry points and the firmware download of
    [ulink.c], followed by the properties of the driver specification stated
    over that embedding.

    Conventions.
    - C integers are [Z]; every narrowing conversion ([uint8_t], [uint16_t],
      [uint32_t], [int]) is written out with [u8], [u16], [u32], [to_int].
    - The driver's global state ([ulink_handle], the TAP follower of the JTAG
      layer, the C heap holding inbound buffers) is one [world] record that
      is threaded through a small state monad [M].  [exit()] is an outcome of
      its own.
    - Everything the driver calls but does not define (libusb, [calloc],
      [jtag_read_buffer]) answers from a tape stored in the world, so a run
      is a function of the initial world and all environment behaviours are
      covered by quantifying over that world.
    - Every USB transfer, every hand-over of captured bytes to the JTAG
      layer and every command linked into the queue is recorded in the
      history [trace].
    - The firmware download talks to the adapter before there is a command
      queue; it has a state of its own, [host], with its own tapes and
      history.
    - Where the C code runs into undefined behaviour (the null pointer that
      [ulink_init] may dereference, the section buffer that the download may
      overrun) the run ends there, in an outcome of its own.
    - The logging macros do not touch the driver's state and are left out. *)

From Equations Require Import Equations.
From Stdlib Require Import ZArith List Bool Lia.
From stdpp Require Import base option list gmap.
Import ListNotations.

Local Open Scope Z_scope.

(** ** Integer conversions *)

Definition u8 (x : Z) : Z := x mod 256.
Definition u16 (x : Z) : Z := x mod 65536.
Definition u32 (x : Z) : Z := x mod 4294967296.

(** Conversion of a 32-bit pattern to [int] (two's complement). *)
Definition to_int (x : Z) : Z :=
  let y := u32 x in if y <? 2147483648 then y else y - 4294967296.

(** Modelled from the spec: the macro [DIV_ROUND_UP] of helper/types.h is not
    part of the sources; the spec gives it as [bytes := ceil(N/8)].  Written
    with C's truncating division, [((m) + (n) - 1) / (n)]. *)
Definition DIV_ROUND_UP (m n : Z) : Z := Z.quot (m + n - 1) n.

(** ** Types of the JTAG layer *)

(** Modelled from the spec: [tap_state_t] of jtag/jtag.h is not part of the
    sources; the spec describes it as the standard JTAG TAP state graph with
    16 states. *)
Inductive tap_state : Type :=
  | TAP_DREXIT2 | TAP_DREXIT1 | TAP_DRSHIFT | TAP_DRPAUSE
  | TAP_IRSELECT | TAP_DRUPDATE | TAP_DRCAPTURE | TAP_DRSELECT
  | TAP_IREXIT2 | TAP_IREXIT1 | TAP_IRSHIFT | TAP_IRPAUSE
  | TAP_IDLE | TAP_IRUPDATE | TAP_IRCAPTURE | TAP_RESET.

Definition tap_state_eqb (a b : tap_state) : bool :=
  match a, b with
  | TAP_DREXIT2, TAP_DREXIT2 | TAP_DREXIT1, TAP_DREXIT1
  | TAP_DRSHIFT, TAP_DRSHIFT | TAP_DRPAUSE, TAP_DRPAUSE
  | TAP_IRSELECT, TAP_IRSELECT | TAP_DRUPDATE, TAP_DRUPDATE
  | TAP_DRCAPTURE, TAP_DRCAPTURE | TAP_DRSELECT, TAP_DRSELECT
  | TAP_IREXIT2, TAP_IREXIT2 | TAP_IREXIT1, TAP_IREXIT1
  | TAP_IRSHIFT, TAP_IRSHIFT | TAP_IRPAUSE, TAP_IRPAUSE
  | TAP_IDLE, TAP_IDLE | TAP_IRUPDATE, TAP_IRUPDATE
  | TAP_IRCAPTURE, TAP_IRCAPTURE | TAP_RESET, TAP_RESET => true
  | _, _ => false
  end.

(** [enum scan_type]; [jtag_scan_type] ors [SCAN_IN] and [SCAN_OUT] over the
    fields of a scan, so a value outside the three named ones can reach the
    driver; it takes the [default:] branches. *)
Inductive scan_type : Type := SCAN_IN | SCAN_OUT | SCAN_IO | SCAN_UNKNOWN.

Definition scan_has_out (t : scan_type) : bool :=
  match t with SCAN_OUT | SCAN_IO => true | _ => false end.

Definition scan_has_in (t : scan_type) : bool :=
  match t with SCAN_IN | SCAN_IO => true | _ => false end.

(** Modelled from the spec: [struct scan_command] and its accessors
    [jtag_scan_size], [jtag_scan_type] and [jtag_build_buffer] (jtag/commands.h)
    are not part of the sources.  A scan request is represented by what those
    accessors return for it. *)
Record scan_command : Type := {
  ir_scan : bool;               (* IR scan (true) or DR scan (false) *)
  jtag_scan_size : Z;           (* total number of bits, an int *)
  jtag_scan_type : scan_type;
  jtag_build_buffer : list Z;   (* the TDI bytes, ceil(bits/8) of them *)
  scan_end_state : tap_state
}.

(** Modelled from the spec: [struct jtag_command] (jtag/commands.h) is not part
    of the sources; one constructor per request kind the driver switches on,
    and [JTAG_OTHER] for every kind it has no case for. *)
Inductive jtag_command : Type :=
  | JTAG_SCAN (scan : scan_command)
  | JTAG_TLR_RESET
  | JTAG_RUNTEST (num_cycles : Z) (end_state : tap_state)
  | JTAG_RESET (trst srst : Z)
  | JTAG_PATHMOVE
  | JTAG_SLEEP (us : Z)
  | JTAG_OTHER.

(** Return codes.  The driver only ever tests [ret != ERROR_OK]; [ERROR_OTHER]
    stands for any further non-OK code handed back by the JTAG layer. *)
Inductive retcode : Type := ERROR_OK | ERROR_FAIL | ERROR_OTHER (code : Z).

Definition is_ok (r : retcode) : bool :=
  match r with ERROR_OK => true | _ => false end.

(** Command identifiers of OpenULINK/include/msgtypes.h. *)
Inductive cmd_id : Type :=
  | CMD_NONE                    (* the zero left by calloc *)
  | CMD_SCAN_IN | CMD_SLOW_SCAN_IN | CMD_SCAN_OUT | CMD_SLOW_SCAN_OUT
  | CMD_SCAN_IO | CMD_SLOW_SCAN_IO | CMD_CLOCK_TMS | CMD_SLOW_CLOCK_TMS
  | CMD_CLOCK_TCK | CMD_SLEEP_US | CMD_SLEEP_MS | CMD_GET_SIGNALS
  | CMD_SET_SIGNALS | CMD_CONFIGURE_TCK_FREQ | CMD_SET_LEDS | CMD_TEST.

(** What the driver takes from headers that are not part of the sources:
    the TAP queries of jtag/interface.h and the numeric constants of
    msgtypes.h. *)
Class Externals : Type := {
  tap_is_state_stable : tap_state -> bool;
  tap_get_tms_path : tap_state -> tap_state -> Z;
  tap_get_tms_path_len : tap_state -> tap_state -> Z;
  cmd_id_byte : cmd_id -> Z;
  SIGNAL_TRST : Z;
  SIGNAL_RESET : Z
}.

(** ** The OpenULINK command *)

(** A pointer into the heap: block and byte offset. [None] is [NULL]. *)
Record ptr : Type := { blk : nat; ofs : Z }.

Definition ptr_add (p : ptr) (n : Z) : ptr := {| blk := blk p; ofs := ofs p + n |}.

Inductive ulink_payload_direction : Type :=
  PAYLOAD_DIRECTION_OUT | PAYLOAD_DIRECTION_IN.

(** [struct ulink_cmd].  The OUT payload is owned by the command and kept in
    the record; the IN payload is a view into a heap block that several
    commands may share.  [next] is the position in the queue. *)
Record ulink_cmd : Type := {
  id : cmd_id;
  payload_out : option (list Z);
  payload_out_size : Z;
  payload_in_start : option ptr;
  payload_in : option ptr;
  payload_in_size : Z;
  needs_postprocessing : bool;
  free_payload_in_start : bool;
  cmd_origin : option jtag_command
}.

(** [calloc(1, sizeof(ulink_cmd_t))]. *)
Definition zeroed_cmd : ulink_cmd := {|
  id := CMD_NONE; payload_out := None; payload_out_size := 0;
  payload_in_start := None; payload_in := None; payload_in_size := 0;
  needs_postprocessing := false; free_payload_in_start := false;
  cmd_origin := None |}.

(** [struct ulink]: the queue is the list from [queue_start] to [queue_end]. *)
Record ulink : Type := {
  commands_in_queue : Z;
  queue : list ulink_cmd
}.

(** ** World, history and the monad *)

Inductive event : Type :=
  | EvBulkWrite (bytes : list Z) (size timeout : Z)
  | EvBulkRead (size timeout : Z)
  | EvReadBuffer (buffer : option ptr) (contents : list Z) (origin : scan_command)
  | EvEnqueue (c : ulink_cmd)
  | EvUsleep (us : Z).

(** What one [usb_bulk_read] brings back. *)
Inductive usb_read_reply : Type :=
  | ReadError (errno : positive)
  | ReadData (data : list Z).

Record world : Type := {
  ulink_handle : ulink;
  cur_state : tap_state;             (* tap_get_state() *)
  end_state_follower : tap_state;    (* tap_get_end_state() *)
  heap : gmap nat (list Z);
  next_block : nat;
  calloc_tape : list bool;           (* does the next calloc succeed *)
  bulk_write_tape : list Z;          (* return values of usb_bulk_write *)
  bulk_read_tape : list usb_read_reply;
  read_buffer_tape : list retcode;   (* return values of jtag_read_buffer *)
  trace : list event
}.

Inductive outcome (A : Type) : Type :=
  | Done (a : A) (w : world)
  | Exited (status : Z) (w : world).
Arguments Done {A} a w.
Arguments Exited {A} status w.

Definition M (A : Type) : Type := world -> outcome A.

Definition ret {A} (a : A) : M A := fun w => Done a w.

Definition bind {A B} (m : M A) (k : A -> M B) : M B :=
  fun w => match m w with
           | Done a w' => k a w'
           | Exited s w' => Exited s w'
           end.

Notation "'let*' x ':=' m 'in' k" := (bind m (fun x => k))
  (at level 10, x pattern, m at level 100, k at level 200).
Notation "m ';;' k" := (bind m (fun _ => k))
  (at level 100, k at level 200, right associativity).

Definition get {A} (f : world -> A) : M A := fun w => Done (f w) w.
Definition modify (f : world -> world) : M unit := fun w => Done tt (f w).

(** *** Field updates *)

Definition with_handle (d : ulink) (w : world) : world :=
  {| ulink_handle := d; cur_state := cur_state w;
     end_state_follower := end_state_follower w; heap := heap w;
     next_block := next_block w; calloc_tape := calloc_tape w;
     bulk_write_tape := bulk_write_tape w; bulk_read_tape := bulk_read_tape w;
     read_buffer_tape := read_buffer_tape w; trace := trace w |}.

Definition with_cur_state (s : tap_state) (w : world) : world :=
  {| ulink_handle := ulink_handle w; cur_state := s;
     end_state_follower := end_state_follower w; heap := heap w;
     next_block := next_block w; calloc_tape := calloc_tape w;
     bulk_write_tape := bulk_write_tape w; bulk_read_tape := bulk_read_tape w;
     read_buffer_tape := read_buffer_tape w; trace := trace w |}.

Definition with_end_state (s : tap_state) (w : world) : world :=
  {| ulink_handle := ulink_handle w; cur_state := cur_state w;
     end_state_follower := s; heap := heap w;
     next_block := next_block w; calloc_tape := calloc_tape w;
     bulk_write_tape := bulk_write_tape w; bulk_read_tape := bulk_read_tape w;
     read_buffer_tape := read_buffer_tape w; trace := trace w |}.

Definition with_heap (h : gmap nat (list Z)) (n : nat) (w : world) : world :=
  {| ulink_handle := ulink_handle w; cur_state := cur_state w;
     end_state_follower := end_state_follower w; heap := h;
     next_block := n; calloc_tape := calloc_tape w;
     bulk_write_tape := bulk_write_tape w; bulk_read_tape := bulk_read_tape w;
     read_buffer_tape := read_buffer_tape w; trace := trace w |}.

Definition with_calloc_tape (t : list bool) (w : world) : world :=
  {| ulink_handle := ulink_handle w; cur_state := cur_state w;
     end_state_follower := end_state_follower w; heap := heap w;
     next_block := next_block w; calloc_tape := t;
     bulk_write_tape := bulk_write_tape w; bulk_read_tape := bulk_read_tape w;
     read_buffer_tape := read_buffer_tape w; trace := trace w |}.

Definition with_bulk_write_tape (t : list Z) (w : world) : world :=
  {| ulink_handle := ulink_handle w; cur_state := cur_state w;
     end_state_follower := end_state_follower w; heap := heap w;
     next_block := next_block w; calloc_tape := calloc_tape w;
     bulk_write_tape := t; bulk_read_tape := bulk_read_tape w;
     read_buffer_tape := read_buffer_tape w; trace := trace w |}.

Definition with_bulk_read_tape (t : list usb_read_reply) (w : world) : world :=
  {| ulink_handle := ulink_handle w; cur_state := cur_state w;
     end_state_follower := end_state_follower w; heap := heap w;
     next_block := next_block w; calloc_tape := calloc_tape w;
     bulk_write_tape := bulk_write_tape w; bulk_read_tape := t;
     read_buffer_tape := read_buffer_tape w; trace := trace w |}.

Definition with_read_buffer_tape (t : list retcode) (w : world) : world :=
  {| ulink_handle := ulink_handle w; cur_state := cur_state w;
     end_state_follower := end_state_follower w; heap := heap w;
     next_block := next_block w; calloc_tape := calloc_tape w;
     bulk_write_tape := bulk_write_tape w; bulk_read_tape := bulk_read_tape w;
     read_buffer_tape := t; trace := trace w |}.

Definition log (e : event) (w : world) : world :=
  {| ulink_handle := ulink_handle w; cur_state := cur_state w;
     end_state_follower := end_state_follower w; heap := heap w;
     next_block := next_block w; calloc_tape := calloc_tape w;
     bulk_write_tape := bulk_write_tape w; bulk_read_tape := bulk_read_tape w;
     read_buffer_tape := read_buffer_tape w; trace := trace w ++ [e] |}.

(** ** Environment: calloc, libusb, the JTAG layer *)

Definition pop {A} (d : A) (t : list A) : A * list A :=
  match t with
  | [] => (d, [])
  | x :: t' => (x, t')
  end.

(** Whether the next [calloc] returns non-NULL. *)
Definition calloc_ok : M bool := fun w =>
  let '(ok, t) := pop true (calloc_tape w) in
  Done ok (with_calloc_tape t w).

(** A successful [calloc(size, 1)] of memory that is reached through
    pointers: a fresh zeroed block. *)
Definition new_block (size : Z) : M ptr := fun w =>
  let b := next_block w in
  Done {| blk := b; ofs := 0 |}
       (with_heap (<[b := replicate (Z.to_nat size) 0]> (heap w)) (S b) w).

(** [free(p)] of a block start; [free(NULL)] does nothing. *)
Definition free (p : option ptr) : M unit := fun w =>
  match p with
  | None => Done tt w
  | Some q => Done tt (with_heap (delete (blk q) (heap w)) (next_block w) w)
  end.

(** [p[i] = v].  A store outside a live block is undefined in C; here it
    leaves the heap as it is. *)
Definition store_byte (p : option ptr) (i v : Z) (h : gmap nat (list Z))
  : gmap nat (list Z) :=
  match p with
  | None => h
  | Some q =>
      if ofs q + i <? 0 then h
      else alter (fun l => <[Z.to_nat (ofs q + i) := v]> l) (blk q) h
  end.

(** The bytes of the block [p] points into, from [p] on. *)
Definition load_from (p : option ptr) (h : gmap nat (list Z)) : list Z :=
  match p with
  | None => []
  | Some q =>
      match h !! blk q with
      | Some l => drop (Z.to_nat (ofs q)) l
      | None => []
      end
  end.

(** [usb_bulk_write(handle, 2 | USB_ENDPOINT_OUT, buffer, size, timeout)]:
    the bytes handed over are the first [size] bytes of [buffer]. *)
Definition usb_bulk_write (buffer : list Z) (size timeout : Z) : M Z := fun w =>
  let '(r, t) := pop size (bulk_write_tape w) in
  Done r (log (EvBulkWrite (take (Z.to_nat size) buffer) size timeout)
              (with_bulk_write_tape t w)).

(** [usb_bulk_read(handle, 2 | USB_ENDPOINT_IN, buffer, size, timeout)]:
    on success at most [size] received bytes overwrite the front of [buffer]
    and their number is returned; on failure a negative errno is returned. *)
Definition usb_bulk_read (buffer : list Z) (size timeout : Z)
  : M (Z * list Z) := fun w =>
  let '(reply, t) := pop (ReadData []) (bulk_read_tape w) in
  let w' := log (EvBulkRead size timeout) (with_bulk_read_tape t w) in
  match reply with
  | ReadError errno => Done (Z.neg errno, buffer) w'
  | ReadData data =>
      let received := take (Z.to_nat size) data in
      Done (Z.of_nat (length received),
            received ++ drop (length received) buffer) w'
  end.

(** [jtag_read_buffer(buffer, scan)]: hands the captured bytes to the JTAG
    layer, which answers with a return code. *)
Definition jtag_read_buffer (buffer : option ptr) (scan : scan_command)
  : M retcode := fun w =>
  let '(r, t) := pop ERROR_OK (read_buffer_tape w) in
  Done r (log (EvReadBuffer buffer (load_from buffer (heap w)) scan)
              (with_read_buffer_tape t w)).

(** [usleep(us)]: the host-side delay.  The driver calls it only while it
    downloads the firmware ([ulink_load_firmware_and_renumerate]), which
    keeps a history of its own ([host_usleep]). *)
Definition usleep (us : Z) : M unit := modify (log (EvUsleep us)).

(** [exit(status)]. *)
Definition exit {A} (status : Z) : M A := fun w => Exited status w.

Definition EXIT_FAILURE : Z := 1.
Definition USB_TIMEOUT : Z := 5000.

(** TAP follower of the JTAG layer. *)
Definition tap_get_state : M tap_state := get cur_state.
Definition tap_get_end_state : M tap_state := get end_state_follower.
Definition tap_set_state (s : tap_state) : M unit := modify (with_cur_state s).
Definition tap_set_end_state (s : tap_state) : M unit := modify (with_end_state s).

(** ** Command fields *)

Definition set_id (i : cmd_id) (c : ulink_cmd) : ulink_cmd :=
  {| id := i; payload_out := payload_out c;
     payload_out_size := payload_out_size c;
     payload_in_start := payload_in_start c; payload_in := payload_in c;
     payload_in_size := payload_in_size c;
     needs_postprocessing := needs_postprocessing c;
     free_payload_in_start := free_payload_in_start c;
     cmd_origin := cmd_origin c |}.

Definition set_payload_out (p : option (list Z)) (n : Z) (c : ulink_cmd)
  : ulink_cmd :=
  {| id := id c; payload_out := p; payload_out_size := n;
     payload_in_start := payload_in_start c; payload_in := payload_in c;
     payload_in_size := payload_in_size c;
     needs_postprocessing := needs_postprocessing c;
     free_payload_in_start := free_payload_in_start c;
     cmd_origin := cmd_origin c |}.

Definition set_payload_in (start p : option ptr) (n : Z) (c : ulink_cmd)
  : ulink_cmd :=
  {| id := id c; payload_out := payload_out c;
     payload_out_size := payload_out_size c;
     payload_in_start := start; payload_in := p; payload_in_size := n;
     needs_postprocessing := needs_postprocessing c;
     free_payload_in_start := free_payload_in_start c;
     cmd_origin := cmd_origin c |}.

Definition set_needs_postprocessing (b : bool) (c : ulink_cmd) : ulink_cmd :=
  {| id := id c; payload_out := payload_out c;
     payload_out_size := payload_out_size c;
     payload_in_start := payload_in_start c; payload_in := payload_in c;
     payload_in_size := payload_in_size c;
     needs_postprocessing := b;
     free_payload_in_start := free_payload_in_start c;
     cmd_origin := cmd_origin c |}.

Definition set_free_payload_in_start (b : bool) (c : ulink_cmd) : ulink_cmd :=
  {| id := id c; payload_out := payload_out c;
     payload_out_size := payload_out_size c;
     payload_in_start := payload_in_start c; payload_in := payload_in c;
     payload_in_size := payload_in_size c;
     needs_postprocessing := needs_postprocessing c;
     free_payload_in_start := b;
     cmd_origin := cmd_origin c |}.

Definition set_cmd_origin (o : option jtag_command) (c : ulink_cmd) : ulink_cmd :=
  {| id := id c; payload_out := payload_out c;
     payload_out_size := payload_out_size c;
     payload_in_start := payload_in_start c; payload_in := payload_in c;
     payload_in_size := payload_in_size c;
     needs_postprocessing := needs_postprocessing c;
     free_payload_in_start := free_payload_in_start c;
     cmd_origin := o |}.

(** [cmd->payload_out[i] = v], stored as a byte.  A store through NULL or past
    the allocation is undefined in C; here it leaves the payload as it is. *)
Definition set_out (i v : Z) (c : ulink_cmd) : ulink_cmd :=
  match payload_out c with
  | Some l =>
      if i <? 0 then c
      else set_payload_out (Some (<[Z.to_nat i := u8 v]> l)) (payload_out_size c) c
  | None => c
  end.

(** ** OpenULINK command generation helper *)

Definition ulink_allocate_payload (cmd : ulink_cmd) (size : Z)
    (direction : ulink_payload_direction) : M (retcode * ulink_cmd) :=
  let* ok := calloc_ok in
  if negb ok then ret (ERROR_FAIL, cmd)
  else
    match direction with
    | PAYLOAD_DIRECTION_OUT =>
        match payload_out cmd with
        | Some _ => ret (ERROR_FAIL, cmd)
        | None =>
            ret (ERROR_OK,
                 set_payload_out (Some (replicate (Z.to_nat size) 0)) (u8 size)
                                 cmd)
        end
    | PAYLOAD_DIRECTION_IN =>
        match payload_in_start cmd with
        | Some _ => ret (ERROR_FAIL, cmd)
        | None =>
            let* payload := new_block size in
            ret (ERROR_OK,
                 set_free_payload_in_start true
                   (set_payload_in (Some payload) (Some payload) (u8 size)
                                   cmd))
        end
    end.

(** ** OpenULINK command queue helpers *)

Fixpoint queue_size_from (direction : ulink_payload_direction)
    (current : list ulink_cmd) (sum : Z) : Z :=
  match current with
  | [] => sum
  | c :: next =>
      queue_size_from direction next
        (match direction with
         | PAYLOAD_DIRECTION_OUT => sum + (payload_out_size c + 1)
         | PAYLOAD_DIRECTION_IN => sum + payload_in_size c
         end)
  end.

Definition ulink_get_queue_size (device : ulink)
    (direction : ulink_payload_direction) : Z :=
  queue_size_from direction (queue device) 0.

Fixpoint clear_from (current : list ulink_cmd) : M unit :=
  match current with
  | [] => ret tt
  | c :: next =>
      (* free(current->payload_out): the payload goes with the record *)
      (if free_payload_in_start c then free (payload_in_start c) else ret tt) ;;
      clear_from next
  end.

Definition ulink_clear_queue : M unit :=
  let* device := get ulink_handle in
  clear_from (queue device) ;;
  modify (with_handle {| commands_in_queue := 0; queue := [] |}).

(** *** The USB exchange *)

(** [a[i]] for an array held as a list; a read past the end (undefined in C)
    gives 0. *)
Definition rd (a : list Z) (i : Z) : Z :=
  if i <? 0 then 0 else nth (Z.to_nat i) a 0.

(** [a[i] = v]; a store past the end (undefined in C) leaves the array. *)
Definition wr (a : list Z) (i v : Z) : list Z :=
  if i <? 0 then a else <[Z.to_nat i := v]> a.

Definition rd_payload (p : option (list Z)) (i : Z) : Z :=
  match p with Some l => rd l i | None => 0 end.

(** [for (i = ...; i < payload_out_size; i++)
      buffer[index_out + i] = current->payload_out[i];]
    with [steps] iterations left. *)
Fixpoint copy_payload_out (steps : nat) (i : Z) (payload : option (list Z))
    (index_out : Z) (buffer : list Z) : list Z :=
  match steps with
  | O => buffer
  | S k =>
      copy_payload_out k (i + 1) payload index_out
        (wr buffer (index_out + i) (rd_payload payload i))
  end.

Record packet : Type := {
  buffer : list Z;
  index_out : Z;
  count_out : Z;
  count_in : Z
}.

(** The first loop of [ulink_execute_queued_commands]. *)
Fixpoint pack_from `{Externals} (current : list ulink_cmd) (p : packet) : packet :=
  match current with
  | [] => p
  | c :: next =>
      let buffer1 := wr (buffer p) (index_out p) (cmd_id_byte (id c)) in
      let index_out1 := index_out p + 1 in
      let count_out1 := count_out p + 1 in
      let buffer2 :=
        copy_payload_out (Z.to_nat (payload_out_size c)) 0 (payload_out c)
                         index_out1 buffer1 in
      pack_from next
        {| buffer := buffer2;
           index_out := index_out1 + payload_out_size c;
           count_out := count_out1 + payload_out_size c;
           count_in := count_in p + payload_in_size c |}
  end.

(** [for (i = ...; i < payload_in_size; i++) {
      current->payload_in[i] = buffer[index_in]; index_in++; }] *)
Fixpoint write_back_cmd (steps : nat) (i : Z) (payload_in : option ptr)
    (buffer : list Z) (index_in : Z) (h : gmap nat (list Z))
  : gmap nat (list Z) * Z :=
  match steps with
  | O => (h, index_in)
  | S k =>
      write_back_cmd k (i + 1) payload_in buffer (index_in + 1)
        (store_byte payload_in i (rd buffer index_in) h)
  end.

(** The second loop of [ulink_execute_queued_commands]. *)
Fixpoint write_back_from (current : list ulink_cmd) (buffer : list Z)
    (index_in : Z) (h : gmap nat (list Z)) : gmap nat (list Z) :=
  match current with
  | [] => h
  | c :: next =>
      let '(h', index_in') :=
        write_back_cmd (Z.to_nat (payload_in_size c)) 0 (payload_in c)
                       buffer index_in h in
      write_back_from next buffer index_in' h'
  end.

(** The local [uint8_t buffer[64]].  Its initial contents are indeterminate
    in C; they are never read before being written. *)
Definition fresh_buffer : list Z := replicate 64 0.

Definition ulink_execute_queued_commands `{Externals} (timeout : Z) : M retcode :=
  let* device := get ulink_handle in
  let p := pack_from (queue device)
             {| buffer := fresh_buffer; index_out := 0;
                count_out := 0; count_in := 0 |} in
  (* Send packet to ULINK *)
  let* r := usb_bulk_write (buffer p) (count_out p) timeout in
  if r <? 0 then ret ERROR_FAIL
  else if negb (r =? count_out p) then ret ERROR_FAIL
  else
    (* Wait for response if commands contain IN payload data *)
    if count_in p >? 0 then
      let* rb := usb_bulk_read (buffer p) 64 timeout in
      let '(r, buffer') := rb in
      if r <? 0 then ret ERROR_FAIL
      else if negb (r =? count_in p) then ret ERROR_FAIL
      else
        (* Write back IN payload data *)
        modify (fun w => with_heap
                           (write_back_from (queue device) buffer' 0 (heap w))
                           (next_block w) w) ;;
        ret ERROR_OK
    else ret ERROR_OK.

(** *** Post-processing *)

(** Only called for commands whose origin is a scan request. *)
Definition ulink_post_process_scan (c : ulink_cmd) : M retcode :=
  match cmd_origin c with
  | Some (JTAG_SCAN scan) =>
      match jtag_scan_type scan with
      | SCAN_IN | SCAN_IO => jtag_read_buffer (payload_in_start c) scan
      | SCAN_OUT => ret ERROR_OK
      | SCAN_UNKNOWN => ret ERROR_FAIL
      end
  | _ => ret ERROR_FAIL
  end.

Fixpoint post_process_from (current : list ulink_cmd) : M retcode :=
  match current with
  | [] => ret ERROR_OK
  | c :: next =>
      match needs_postprocessing c, cmd_origin c with
      | true, Some openocd_cmd =>
          let* r :=
            match openocd_cmd with
            | JTAG_SCAN _ => ulink_post_process_scan c
            | JTAG_TLR_RESET | JTAG_RUNTEST _ _ | JTAG_RESET _ _
            | JTAG_PATHMOVE | JTAG_SLEEP _ => ret ERROR_OK
            | JTAG_OTHER => ret ERROR_FAIL
            end in
          if is_ok r then post_process_from next else ret r
      | _, _ => post_process_from next
      end
  end.

Definition ulink_post_process_queue : M retcode :=
  let* device := get ulink_handle in
  post_process_from (queue device).

(** *** Appending *)

(** The tail of [ulink_append_queue]: link the command behind [queue_end]. *)
Definition link_cmd (cmd : ulink_cmd) : M unit :=
  let* device := get ulink_handle in
  modify (fun w => log (EvEnqueue cmd) w) ;;
  match queue device with
  | [] =>
      (* Queue was empty *)
      modify (with_handle {| commands_in_queue := 1; queue := [cmd] |})
  | _ =>
      modify (with_handle {| commands_in_queue := commands_in_queue device + 1;
                             queue := queue device ++ [cmd] |})
  end.

Definition ulink_append_queue `{Externals} (cmd : ulink_cmd) : M retcode :=
  let* device := get ulink_handle in
  let newsize_out :=
    ulink_get_queue_size device PAYLOAD_DIRECTION_OUT + 1 + payload_out_size cmd in
  let newsize_in :=
    ulink_get_queue_size device PAYLOAD_DIRECTION_IN + payload_in_size cmd in
  (* Check if the current command can be appended to the queue *)
  let* r :=
    if (newsize_out >? 64) || (newsize_in >? 64) then
      let* r := ulink_execute_queued_commands USB_TIMEOUT in
      if negb (is_ok r) then ret r
      else
        let* r := ulink_post_process_queue in
        if negb (is_ok r) then ret r
        else ulink_clear_queue ;; ret ERROR_OK
    else ret ERROR_OK in
  if negb (is_ok r) then ret r
  else link_cmd cmd ;; ret ERROR_OK.

(** ** OpenULINK command constructors *)

(** [for (i = ...; i < scan_size_bytes; i++) cmd->payload_out[i + 5] = tdi[i];] *)
Fixpoint copy_tdi (steps : nat) (i : Z) (tdi : option (list Z)) (cmd : ulink_cmd)
  : ulink_cmd :=
  match steps with
  | O => cmd
  | S k => copy_tdi k (i + 1) tdi (set_out (i + 5) (rd_payload tdi i) cmd)
  end.

(** The assignments [ulink_append_scan_cmd] makes to the command between the
    allocation of its OUT payload and the append. *)
Definition fill_scan_cmd (scan_type : scan_type)
    (scan_size_bytes bits_last_byte : Z)
    (tdi : option (list Z)) (tdo_start tdo : option ptr)
    (tms_count_start tms_sequence_start tms_count_end tms_sequence_end : Z)
    (origin : option jtag_command) (postprocess : bool) (cmd : ulink_cmd)
  : ulink_cmd :=
  (* Build payload_out that is common to all scan types *)
  let cmd := set_out 0 (Z.land scan_size_bytes 255) cmd in
  let cmd := set_out 1 (Z.land bits_last_byte 255) cmd in
  let cmd := set_out 2 (Z.lor (Z.shiftl (Z.land tms_count_start 15) 4)
                              (Z.land tms_count_end 15)) cmd in
  let cmd := set_out 3 tms_sequence_start cmd in
  let cmd := set_out 4 tms_sequence_end cmd in
  (* Setup payload_out for types with OUT transfer *)
  let cmd :=
    if scan_has_out scan_type
    then copy_tdi (Z.to_nat scan_size_bytes) 0 tdi cmd
    else cmd in
  (* Setup payload_in pointers for types with IN transfer *)
  let cmd :=
    if scan_has_in scan_type
    then set_payload_in tdo_start tdo (u8 scan_size_bytes) cmd
    else cmd in
  let cmd := set_needs_postprocessing postprocess cmd in
  let cmd := set_cmd_origin origin cmd in
  (* For scan commands, we free payload_in_start only when the command is
     the last in a series of split commands or a stand-alone command *)
  set_free_payload_in_start postprocess cmd.

Definition ulink_append_scan_cmd `{Externals} (scan_type : scan_type)
    (scan_size_bits : Z) (tdi : option (list Z)) (tdo_start tdo : option ptr)
    (tms_count_start tms_sequence_start tms_count_end tms_sequence_end : Z)
    (origin : option jtag_command) (postprocess : bool) : M retcode :=
  let* ok := calloc_ok in
  if negb ok then ret ERROR_FAIL
  else
    let cmd := zeroed_cmd in
    (* Check size of command. USB buffer can hold 64 bytes, 1 byte is command
       ID, 5 bytes are setup data -> 58 remaining payload bytes for TDI data *)
    if scan_size_bits >? 58 * 8 then ret ERROR_FAIL
    else
      let scan_size_bytes := DIV_ROUND_UP scan_size_bits 8 in
      let bits_last_byte := u8 (Z.rem scan_size_bits 8) in
      let bits_last_byte := if bits_last_byte =? 0 then 8 else bits_last_byte in
      (* Allocate out_payload depending on scan type *)
      let* rc :=
        match scan_type with
        | SCAN_IN =>
            ulink_allocate_payload (set_id CMD_SCAN_IN cmd) 5
                                   PAYLOAD_DIRECTION_OUT
        | SCAN_OUT =>
            ulink_allocate_payload (set_id CMD_SCAN_OUT cmd)
                                   (scan_size_bytes + 5) PAYLOAD_DIRECTION_OUT
        | SCAN_IO =>
            ulink_allocate_payload (set_id CMD_SCAN_IO cmd)
                                   (scan_size_bytes + 5) PAYLOAD_DIRECTION_OUT
        | SCAN_UNKNOWN => ret (ERROR_FAIL, cmd)
        end in
      let '(r, cmd) := rc in
      if negb (is_ok r) then ret r
      else
        ulink_append_queue
          (fill_scan_cmd scan_type scan_size_bytes bits_last_byte tdi
             tdo_start tdo tms_count_start tms_sequence_start
             tms_count_end tms_sequence_end origin postprocess cmd).

Definition ulink_append_clock_tms_cmd `{Externals} (count sequence : Z)
  : M retcode :=
  let* ok := calloc_ok in
  if negb ok then ret ERROR_FAIL
  else
    let cmd := set_id CMD_CLOCK_TMS zeroed_cmd in
    (* CMD_CLOCK_TMS has two OUT payload bytes and zero IN payload bytes *)
    let* rc := ulink_allocate_payload cmd 2 PAYLOAD_DIRECTION_OUT in
    let '(r, cmd) := rc in
    if negb (is_ok r) then ret r
    else
      let cmd := set_out 0 count cmd in
      let cmd := set_out 1 sequence cmd in
      ulink_append_queue cmd.

Definition ulink_append_clock_tck_cmd `{Externals} (count : Z) : M retcode :=
  let* ok := calloc_ok in
  if negb ok then ret ERROR_FAIL
  else
    let cmd := set_id CMD_CLOCK_TCK zeroed_cmd in
    (* CMD_CLOCK_TCK has two OUT payload bytes and zero IN payload bytes *)
    let* rc := ulink_allocate_payload cmd 2 PAYLOAD_DIRECTION_OUT in
    let '(r, cmd) := rc in
    if negb (is_ok r) then ret r
    else
      let cmd := set_out 0 (Z.land count 255) cmd in
      let cmd := set_out 1 (Z.land (Z.shiftr count 8) 255) cmd in
      ulink_append_queue cmd.

Definition ulink_append_get_signals_cmd `{Externals} : M retcode :=
  let* ok := calloc_ok in
  if negb ok then ret ERROR_FAIL
  else
    let cmd := set_id CMD_GET_SIGNALS zeroed_cmd in
    let cmd := set_needs_postprocessing true cmd in
    (* CMD_GET_SIGNALS has two IN payload bytes *)
    let* rc := ulink_allocate_payload cmd 2 PAYLOAD_DIRECTION_IN in
    let '(r, cmd) := rc in
    if negb (is_ok r) then ret r
    else ulink_append_queue cmd.

Definition ulink_append_set_signals_cmd `{Externals} (low high : Z)
  : M retcode :=
  let* ok := calloc_ok in
  if negb ok then ret ERROR_FAIL
  else
    let cmd := set_id CMD_SET_SIGNALS zeroed_cmd in
    (* CMD_SET_SIGNALS has two OUT payload bytes and zero IN payload bytes *)
    let* rc := ulink_allocate_payload cmd 2 PAYLOAD_DIRECTION_OUT in
    let '(r, cmd) := rc in
    if negb (is_ok r) then ret r
    else
      let cmd := set_out 0 low cmd in
      let cmd := set_out 1 high cmd in
      ulink_append_queue cmd.

Definition ulink_append_sleep_cmd `{Externals} (us : Z) : M retcode :=
  let* ok := calloc_ok in
  if negb ok then ret ERROR_FAIL
  else
    let cmd := set_id CMD_SLEEP_US zeroed_cmd in
    (* CMD_SLEEP_US has two OUT payload bytes and zero IN payload bytes *)
    let* rc := ulink_allocate_payload cmd 2 PAYLOAD_DIRECTION_OUT in
    let '(r, cmd) := rc in
    if negb (is_ok r) then ret r
    else
      let cmd := set_out 0 (Z.land us 255) cmd in
      let cmd := set_out 1 (Z.land (Z.shiftr us 8) 255) cmd in
      ulink_append_queue cmd.

Definition ulink_append_configure_tck_cmd `{Externals}
    (delay_scan delay_tck delay_tms : Z) : M retcode :=
  let* ok := calloc_ok in
  if negb ok then ret ERROR_FAIL
  else
    let cmd := set_id CMD_CONFIGURE_TCK_FREQ zeroed_cmd in
    let* rc := ulink_allocate_payload cmd 3 PAYLOAD_DIRECTION_OUT in
    let '(r, cmd) := rc in
    if negb (is_ok r) then ret r
    else
      let cmd := set_out 0 delay_scan cmd in
      let cmd := set_out 1 delay_tck cmd in
      let cmd := set_out 2 delay_tms cmd in
      ulink_append_queue cmd.

Definition ulink_append_led_cmd `{Externals} (led_state : Z) : M retcode :=
  let* ok := calloc_ok in
  if negb ok then ret ERROR_FAIL
  else
    let cmd := set_id CMD_SET_LEDS zeroed_cmd in
    let* rc := ulink_allocate_payload cmd 1 PAYLOAD_DIRECTION_OUT in
    let '(r, cmd) := rc in
    if negb (is_ok r) then ret r
    else
      let cmd := set_out 0 led_state cmd in
      ulink_append_queue cmd.

Definition ulink_append_test_cmd `{Externals} : M retcode :=
  let* ok := calloc_ok in
  if negb ok then ret ERROR_FAIL
  else
    let cmd := set_id CMD_TEST zeroed_cmd in
    let* rc := ulink_allocate_payload cmd 1 PAYLOAD_DIRECTION_OUT in
    let '(r, cmd) := rc in
    if negb (is_ok r) then ret r
    else
      let cmd := set_out 0 170 cmd in
      ulink_append_queue cmd.

(** ** Interface between OpenULINK and OpenOCD *)

Definition ulink_set_end_state `{Externals} (endstate : tap_state) : M unit :=
  if tap_is_state_stable endstate then tap_set_end_state endstate
  else exit EXIT_FAILURE.

Definition ulink_queue_statemove `{Externals} : M retcode :=
  let* cur := tap_get_state in
  let* goal := tap_get_end_state in
  if tap_state_eqb cur goal then
    (* Do nothing if we are already there *)
    ret ERROR_OK
  else
    let tms_sequence := u8 (tap_get_tms_path cur goal) in
    let tms_count := u8 (tap_get_tms_path_len cur goal) in
    let* r := ulink_append_clock_tms_cmd tms_count tms_sequence in
    (if is_ok r
     then (let* goal := tap_get_end_state in tap_set_state goal)
     else ret tt) ;;
    ret r.

(** The values [ulink_queue_scan] fixes before its loop. *)
Record scan_plan : Type := {
  type : scan_type;
  scan_size_bytes : Z;
  bits_last_scan : Z;
  tdo_buffer_start : option ptr;
  first_tms_count : Z;  first_tms_sequence : Z;
  last_tms_count : Z;   last_tms_sequence : Z;
  tms_count_pause : Z;  tms_sequence_pause : Z;
  tms_count_resume : Z; tms_sequence_resume : Z;
  origin : option jtag_command
}.

(** [p += 58] guarded by [if (p_start != NULL)]; the running pointer is NULL
    exactly when the start pointer is. *)
Definition advance_tdi (tdi_buffer : option (list Z)) : option (list Z) :=
  match tdi_buffer with Some l => Some (drop 58 l) | None => None end.

Definition advance_tdo (tdo_buffer : option ptr) : option ptr :=
  match tdo_buffer with Some p => Some (ptr_add p 58) | None => None end.

(** The [while (bytecount > 0)] loop of [ulink_queue_scan].  It returns the
    code the function returns from inside the loop, or [ERROR_OK] when the
    loop runs to its end. *)
Equations? scan_loop `{Externals} (s : scan_plan) (bytecount : Z)
    (tdi_buffer : option (list Z)) (tdo_buffer : option ptr)
  : M retcode by wf (Z.to_nat bytecount) lt :=
  scan_loop s bytecount tdi_buffer tdo_buffer with Z_gt_dec bytecount 0 := {
    | right _ => ret ERROR_OK
    | left _ =>
        let tms_count_start :=
          if bytecount =? scan_size_bytes s
          then first_tms_count s else tms_count_resume s in
        let tms_sequence_start :=
          if bytecount =? scan_size_bytes s
          then first_tms_sequence s else tms_sequence_resume s in
        if bytecount >? 58 then
          (* Full scan, at least one scan will follow *)
          let* r := ulink_append_scan_cmd (type s) (58 * 8) tdi_buffer
                      (tdo_buffer_start s) tdo_buffer
                      tms_count_start tms_sequence_start
                      (tms_count_pause s) (tms_sequence_pause s)
                      (origin s) false in
          if negb (is_ok r) then ret r
          else scan_loop s (bytecount - 58)
                         (advance_tdi tdi_buffer) (advance_tdo tdo_buffer)
        else if bytecount =? 58 then
          (* Full scan, no further scans *)
          let* r := ulink_append_scan_cmd (type s) (58 * 8) tdi_buffer
                      (tdo_buffer_start s) tdo_buffer
                      tms_count_start tms_sequence_start
                      (last_tms_count s) (last_tms_sequence s)
                      (origin s) true in
          if negb (is_ok r) then ret r
          else scan_loop s 0 tdi_buffer tdo_buffer
        else
          (* Scan with less than maximum payload, no further scans *)
          let* r := ulink_append_scan_cmd (type s) (to_int (bits_last_scan s))
                      tdi_buffer (tdo_buffer_start s) tdo_buffer
                      tms_count_start tms_sequence_start
                      (last_tms_count s) (last_tms_sequence s)
                      (origin s) true in
          if negb (is_ok r) then ret r
          else scan_loop s 0 tdi_buffer tdo_buffer }.
Proof. all: lia. Qed.

(** The "Get TAP state transitions" block of [ulink_queue_scan]; the source
    writes it once with the IR states and once with the DR states. *)
Definition scan_transitions `{Externals} (shift pause : tap_state)
    (end_state : tap_state) : M (Z * Z * (Z * Z) * (Z * Z) * (Z * Z)) :=
  ulink_set_end_state shift ;;
  let* cur := tap_get_state in
  let* goal := tap_get_end_state in
  let first_tms_count := u8 (tap_get_tms_path_len cur goal) in
  let first_tms_sequence := u8 (tap_get_tms_path cur goal) in
  tap_set_state shift ;;
  tap_set_end_state end_state ;;
  let* cur := tap_get_state in
  let* goal := tap_get_end_state in
  let last_tms_count := u8 (tap_get_tms_path_len cur goal) in
  let last_tms_sequence := u8 (tap_get_tms_path cur goal) in
  (* TAP state transitions for split scans *)
  let tms_count_pause := u8 (tap_get_tms_path_len shift pause) in
  let tms_sequence_pause := u8 (tap_get_tms_path shift pause) in
  let tms_count_resume := u8 (tap_get_tms_path_len pause shift) in
  let tms_sequence_resume := u8 (tap_get_tms_path pause shift) in
  ret (first_tms_count, first_tms_sequence,
       (last_tms_count, last_tms_sequence),
       (tms_count_pause, tms_sequence_pause),
       (tms_count_resume, tms_sequence_resume)).

Definition ulink_queue_scan `{Externals} (scan : scan_command) : M retcode :=
  (* Determine scan size *)
  let scan_size_bits := u32 (jtag_scan_size scan) in
  let scan_size_bytes := Z.quot (u32 (scan_size_bits + 8 - 1)) 8 in
  (* Determine scan type (IN/OUT/IO) *)
  let type := jtag_scan_type scan in
  (* Determine number of scan commands with maximum payload *)
  let scans_max_payload := Z.quot scan_size_bytes 58 in
  (* Determine size of last shift command *)
  let bits_last_scan := u32 (scan_size_bits - scans_max_payload * 58 * 8) in
  (* Allocate TDO buffer if required *)
  let* alloc :=
    if scan_has_in type then
      let* ok := calloc_ok in
      if negb ok then ret None
      else let* p := new_block scan_size_bytes in ret (Some (Some p))
    else ret (Some None) in
  match alloc with
  | None => ret ERROR_FAIL
  | Some tdo_buffer_start =>
      (* Fill TDI buffer if required *)
      let tdi_buffer_start :=
        if scan_has_out type then Some (jtag_build_buffer scan) else None in
      (* Get TAP state transitions *)
      let* t :=
        if ir_scan scan
        then scan_transitions TAP_IRSHIFT TAP_IRPAUSE (scan_end_state scan)
        else scan_transitions TAP_DRSHIFT TAP_DRPAUSE (scan_end_state scan) in
      let '(first_count, first_sequence, (last_count, last_sequence),
            (pause_count, pause_sequence), (resume_count, resume_sequence)) := t in
      (* Generate scan commands *)
      let* r :=
        scan_loop
          {| type := type; scan_size_bytes := scan_size_bytes;
             bits_last_scan := bits_last_scan;
             tdo_buffer_start := tdo_buffer_start;
             first_tms_count := first_count;
             first_tms_sequence := first_sequence;
             last_tms_count := last_count; last_tms_sequence := last_sequence;
             tms_count_pause := pause_count;
             tms_sequence_pause := pause_sequence;
             tms_count_resume := resume_count;
             tms_sequence_resume := resume_sequence;
             origin := Some (JTAG_SCAN scan) |}
          scan_size_bytes tdi_buffer_start tdo_buffer_start in
      if negb (is_ok r) then ret r
      else
        (* Set current state to the end state requested by the command *)
        tap_set_state (scan_end_state scan) ;;
        ret ERROR_OK
  end.

Definition ulink_queue_tlr_reset `{Externals} : M retcode :=
  let* r := ulink_append_clock_tms_cmd 5 255 in
  (if is_ok r then tap_set_state TAP_RESET else ret tt) ;;
  ret r.

Definition ulink_queue_runtest `{Externals} (num_cycles : Z)
    (end_state : tap_state) : M retcode :=
  (* Only perform statemove if the TAP currently isn't in the TAP_IDLE state *)
  let* cur := tap_get_state in
  (if negb (tap_state_eqb cur TAP_IDLE)
   then ulink_set_end_state TAP_IDLE ;;
        let* _ := ulink_queue_statemove in ret tt
   else ret tt) ;;
  (* Generate the clock cycles *)
  let* r := ulink_append_clock_tck_cmd (u16 num_cycles) in
  if negb (is_ok r) then ret r
  else
    (* Move to end state specified in command *)
    let* cur := tap_get_state in
    (if negb (tap_state_eqb end_state cur)
     then tap_set_end_state end_state ;;
          let* _ := ulink_queue_statemove in ret tt
     else ret tt) ;;
    ret ERROR_OK.

Definition ulink_queue_reset `{Externals} (trst srst : Z) : M retcode :=
  let low := 0 in
  let high := 0 in
  let* lh :=
    if negb (trst =? 0)
    then tap_set_state TAP_RESET ;; ret (low, u8 (Z.lor high SIGNAL_TRST))
    else ret (u8 (Z.lor low SIGNAL_TRST), high) in
  let '(low, high) := lh in
  let '(low, high) :=
    if negb (srst =? 0)
    then (low, u8 (Z.lor high SIGNAL_RESET))
    else (u8 (Z.lor low SIGNAL_RESET), high) in
  ulink_append_set_signals_cmd low high.

Definition ulink_queue_pathmove : M retcode :=
  ret ERROR_OK.

Definition ulink_queue_sleep `{Externals} (us : Z) : M retcode :=
  (* IMPORTANT! Due to the time offset in command execution introduced by
     command queueing, this needs to be implemented in the ULINK device *)
  ulink_append_sleep_cmd (u32 us).

(** ** JTAG driver functions *)

(** The [switch (cmd->type)] of [ulink_execute_queue]. *)
Definition dispatch `{Externals} (cmd : jtag_command) : M retcode :=
  match cmd with
  | JTAG_SCAN scan => ulink_queue_scan scan
  | JTAG_TLR_RESET => ulink_queue_tlr_reset
  | JTAG_RUNTEST num_cycles end_state => ulink_queue_runtest num_cycles end_state
  | JTAG_RESET trst srst => ulink_queue_reset trst srst
  | JTAG_PATHMOVE => ulink_queue_pathmove
  | JTAG_SLEEP us => ulink_queue_sleep us
  | JTAG_OTHER => ret ERROR_FAIL
  end.

(** The [while (cmd)] loop of [ulink_execute_queue]. *)
Fixpoint translate_from `{Externals} (cmd : list jtag_command) : M retcode :=
  match cmd with
  | [] => ret ERROR_OK
  | c :: next =>
      let* r := dispatch c in
      if negb (is_ok r) then ret r
      else translate_from next
  end.

Definition ulink_execute_queue `{Externals}
    (jtag_command_queue : list jtag_command) : M retcode :=
  let* r := translate_from jtag_command_queue in
  if negb (is_ok r) then ret r
  else
    let* device := get ulink_handle in
    if commands_in_queue device >? 0 then
      let* r := ulink_execute_queued_commands USB_TIMEOUT in
      if negb (is_ok r) then ret r
      else
        let* r := ulink_post_process_queue in
        if negb (is_ok r) then ret r
        else ulink_clear_queue ;; ret ERROR_OK
    else ret ERROR_OK.

(** [ulink_khz(khz, &jtag_speed)]: the return code and the new [*jtag_speed]. *)
Definition ulink_khz (khz : Z) (jtag_speed : Z) : retcode * Z :=
  if khz =? 0 then (ERROR_FAIL, jtag_speed)
  else if khz >? 150 then (ERROR_FAIL, jtag_speed)
  else (ERROR_OK, 0).

Definition ulink_speed (speed : Z) : retcode := ERROR_OK.

(** [ulink_speed_div(speed, &khz)]: the return code and the new [*khz]. *)
Definition ulink_speed_div (speed : Z) (khz : Z) : retcode * Z :=
  let khz :=
    if speed =? 0 then 150
    else if speed =? 1 then 100
    else khz in
  (ERROR_OK, khz).

(** ** A concrete environment

    Used to run the driver on concrete requests. *)

(** Modelled from the spec: [tap_is_state_stable] (jtag/interface.h) is not
    part of the sources.  The spec names Reset, Idle, IRPause and DRPause as
    stable and, in its glossary, the Shift states as well. *)
Definition sample_is_state_stable (s : tap_state) : bool :=
  match s with
  | TAP_RESET | TAP_IDLE | TAP_DRSHIFT | TAP_DRPAUSE
  | TAP_IRSHIFT | TAP_IRPAUSE => true
  | _ => false
  end.

(** Modelled from the spec: the TMS path table (jtag/interface.h) is not part
    of the sources; the spec only gives Idle -> DRSHIFT as 3 bits [0b001] and
    the sequence [0b011] for DRSHIFT -> Idle.  Every other entry is a
    placeholder: no property below depends on the table. *)
Definition sample_tms_path (a b : tap_state) : Z :=
  match a, b with
  | TAP_IDLE, TAP_DRSHIFT => 1
  | TAP_DRSHIFT, TAP_IDLE => 3
  | _, _ => 0
  end.

Definition sample_tms_path_len (a b : tap_state) : Z :=
  match a, b with
  | TAP_IDLE, TAP_DRSHIFT => 3
  | _, _ => 7
  end.

(** Placeholder numbering of the command identifiers and signal masks of
    msgtypes.h. *)
Definition sample_cmd_id_byte (i : cmd_id) : Z :=
  match i with
  | CMD_NONE => 0
  | CMD_SCAN_IN => 1 | CMD_SLOW_SCAN_IN => 2 | CMD_SCAN_OUT => 3
  | CMD_SLOW_SCAN_OUT => 4 | CMD_SCAN_IO => 5 | CMD_SLOW_SCAN_IO => 6
  | CMD_CLOCK_TMS => 7 | CMD_SLOW_CLOCK_TMS => 8 | CMD_CLOCK_TCK => 9
  | CMD_SLEEP_US => 10 | CMD_SLEEP_MS => 11 | CMD_GET_SIGNALS => 12
  | CMD_SET_SIGNALS => 13 | CMD_CONFIGURE_TCK_FREQ => 14
  | CMD_SET_LEDS => 15 | CMD_TEST => 16
  end.

Definition sample_externals : Externals := {|
  tap_is_state_stable := sample_is_state_stable;
  tap_get_tms_path := sample_tms_path;
  tap_get_tms_path_len := sample_tms_path_len;
  cmd_id_byte := sample_cmd_id_byte;
  SIGNAL_TRST := 16;
  SIGNAL_RESET := 32 |}.

(** An idle driver: empty queue, TAP in Run-Test/Idle, empty heap, and an
    environment in which every call succeeds until a tape says otherwise. *)
Definition idle_world : world := {|
  ulink_handle := {| commands_in_queue := 0; queue := [] |};
  cur_state := TAP_IDLE; end_state_follower := TAP_IDLE;
  heap := ∅; next_block := 0%nat;
  calloc_tape := []; bulk_write_tape := []; bulk_read_tape := [];
  read_buffer_tape := []; trace := [] |}.

(** The commands linked into the queue over a history, in order: the wire
    commands the driver has emitted. *)
Fixpoint enqueued (t : list event) : list ulink_cmd :=
  match t with
  | [] => []
  | EvEnqueue c :: t' => c :: enqueued t'
  | _ :: t' => enqueued t'
  end.

(** The value a run returned, if it returned, and the world it ended in. *)
Definition result_of {A} (o : outcome A) : option A :=
  match o with Done a _ => Some a | Exited _ _ => None end.
Definition world_of {A} (o : outcome A) : world :=
  match o with Done _ w => w | Exited _ w => w end.

(** * Firmware download *)

(** ** The host side of the download *)

Definition CPUCS_REG : Z := 32658.             (* 0x7F92 *)
Definition REQUEST_FIRMWARE_LOAD : Z := 160.   (* 0xA0 *)
Definition CPU_RESET : Z := 1.
Definition CPU_START : Z := 0.
Definition FIRMWARE_ADDR : Z := 0.
Definition SECTION_BUFFERSIZE : Z := 8192.

(** What the download does to its environment, in order. *)
Inductive host_event : Type :=
  | EvControlMsg (request value index : Z) (bytes : list Z) (size timeout : Z)
  | EvGetString (index buflen : Z)
  | EvImageOpen
  | EvImageReadSection (section : nat) (offset size : Z)
  | EvImageClose
  | EvReleaseInterface
  | EvUsbClose
  | EvHostUsleep (us : Z)
  | EvUsbOpen
  | EvClaimInterface.

(** A section of the firmware image: the two fields the driver reads. *)
Record image_section : Type := {
  section_size : Z;
  section_base_address : Z
}.

(** The environment of the download.  Each tape holds the answers of one
    library function, in call order; past its end the function succeeds
    ([usb_get_string_simple] with the string of the OpenULINK firmware),
    except [image_read_section], which fails. *)
Record host : Type := {
  usb_handle : bool;                      (* [device->usb_handle != NULL] *)
  firmware_sections : list image_section; (* the image [image_open] loads *)
  descriptor_tape : list (Z * list Z);    (* [usb_get_string_simple]: the
                                             return value and the string *)
  control_tape : list Z;                  (* [usb_control_msg] *)
  image_open_tape : list retcode;         (* [image_open] *)
  read_section_tape : list (retcode * list Z);
                                          (* [image_read_section]: the code
                                             and the bytes it stores *)
  release_tape : list Z;                  (* [usb_release_interface] *)
  usb_close_tape : list Z;                (* [usb_close] *)
  usb_open_tape : list retcode;           (* [jtag_usb_open] *)
  claim_tape : list Z;                    (* [usb_claim_interface] *)
  host_trace : list host_event
}.

Definition H (A : Type) : Type := host -> A * host.

Definition hret {A} (a : A) : H A := fun h => (a, h).

Definition hbind {A B} (m : H A) (k : A -> H B) : H B :=
  fun h => let '(a, h') := m h in k a h'.

Notation "'let+' x ':=' m 'in' k" := (hbind m (fun x => k))
  (at level 10, x pattern, m at level 100, k at level 200).

Definition host_log (e : host_event) (h : host) : host :=
  {| usb_handle := usb_handle h; firmware_sections := firmware_sections h;
     descriptor_tape := descriptor_tape h;
     control_tape := control_tape h; image_open_tape := image_open_tape h;
     read_section_tape := read_section_tape h; release_tape := release_tape h;
     usb_close_tape := usb_close_tape h; usb_open_tape := usb_open_tape h;
     claim_tape := claim_tape h; host_trace := host_trace h ++ [e] |}.

Definition with_usb_handle (b : bool) (h : host) : host :=
  {| usb_handle := b; firmware_sections := firmware_sections h;
     descriptor_tape := descriptor_tape h;
     control_tape := control_tape h; image_open_tape := image_open_tape h;
     read_section_tape := read_section_tape h; release_tape := release_tape h;
     usb_close_tape := usb_close_tape h; usb_open_tape := usb_open_tape h;
     claim_tape := claim_tape h; host_trace := host_trace h |}.

Definition with_control_tape (t : list Z) (h : host) : host :=
  {| usb_handle := usb_handle h; firmware_sections := firmware_sections h;
     descriptor_tape := descriptor_tape h;
     control_tape := t; image_open_tape := image_open_tape h;
     read_section_tape := read_section_tape h; release_tape := release_tape h;
     usb_close_tape := usb_close_tape h; usb_open_tape := usb_open_tape h;
     claim_tape := claim_tape h; host_trace := host_trace h |}.

Definition with_image_open_tape (t : list retcode) (h : host) : host :=
  {| usb_handle := usb_handle h; firmware_sections := firmware_sections h;
     descriptor_tape := descriptor_tape h;
     control_tape := control_tape h; image_open_tape := t;
     read_section_tape := read_section_tape h; release_tape := release_tape h;
     usb_close_tape := usb_close_tape h; usb_open_tape := usb_open_tape h;
     claim_tape := claim_tape h; host_trace := host_trace h |}.

Definition with_read_section_tape (t : list (retcode * list Z)) (h : host)
  : host :=
  {| usb_handle := usb_handle h; firmware_sections := firmware_sections h;
     descriptor_tape := descriptor_tape h;
     control_tape := control_tape h; image_open_tape := image_open_tape h;
     read_section_tape := t; release_tape := release_tape h;
     usb_close_tape := usb_close_tape h; usb_open_tape := usb_open_tape h;
     claim_tape := claim_tape h; host_trace := host_trace h |}.

Definition with_release_tape (t : list Z) (h : host) : host :=
  {| usb_handle := usb_handle h; firmware_sections := firmware_sections h;
     descriptor_tape := descriptor_tape h;
     control_tape := control_tape h; image_open_tape := image_open_tape h;
     read_section_tape := read_section_tape h; release_tape := t;
     usb_close_tape := usb_close_tape h; usb_open_tape := usb_open_tape h;
     claim_tape := claim_tape h; host_trace := host_trace h |}.

Definition with_usb_close_tape (t : list Z) (h : host) : host :=
  {| usb_handle := usb_handle h; firmware_sections := firmware_sections h;
     descriptor_tape := descriptor_tape h;
     control_tape := control_tape h; image_open_tape := image_open_tape h;
     read_section_tape := read_section_tape h; release_tape := release_tape h;
     usb_close_tape := t; usb_open_tape := usb_open_tape h;
     claim_tape := claim_tape h; host_trace := host_trace h |}.

Definition with_usb_open_tape (t : list retcode) (h : host) : host :=
  {| usb_handle := usb_handle h; firmware_sections := firmware_sections h;
     descriptor_tape := descriptor_tape h;
     control_tape := control_tape h; image_open_tape := image_open_tape h;
     read_section_tape := read_section_tape h; release_tape := release_tape h;
     usb_close_tape := usb_close_tape h; usb_open_tape := t;
     claim_tape := claim_tape h; host_trace := host_trace h |}.

Definition with_claim_tape (t : list Z) (h : host) : host :=
  {| usb_handle := usb_handle h; firmware_sections := firmware_sections h;
     descriptor_tape := descriptor_tape h;
     control_tape := control_tape h; image_open_tape := image_open_tape h;
     read_section_tape := read_section_tape h; release_tape := release_tape h;
     usb_close_tape := usb_close_tape h; usb_open_tape := usb_open_tape h;
     claim_tape := t; host_trace := host_trace h |}.

Definition with_descriptor_tape (t : list (Z * list Z)) (h : host) : host :=
  {| usb_handle := usb_handle h; firmware_sections := firmware_sections h;
     descriptor_tape := t;
     control_tape := control_tape h; image_open_tape := image_open_tape h;
     read_section_tape := read_section_tape h; release_tape := release_tape h;
     usb_close_tape := usb_close_tape h; usb_open_tape := usb_open_tape h;
     claim_tape := claim_tape h; host_trace := host_trace h |}.

(** The bytes of the string ["OpenULINK"]. *)
Definition OpenULINK : list Z := [79; 112; 101; 110; 85; 76; 73; 78; 75].

(** [usb_get_string_simple(handle, index, buf, buflen)]: the return value
    (the length of the string, or a negative errno) and the string stored
    in [buf], without its terminating NUL. *)
Definition usb_get_string_simple (index buflen : Z) : H (Z * list Z) := fun h =>
  let '(reply, t) := pop (9, OpenULINK) (descriptor_tape h) in
  (reply, host_log (EvGetString index buflen) (with_descriptor_tape t h)).

(** [usb_control_msg(handle, USB_ENDPOINT_OUT | USB_TYPE_VENDOR |
    USB_RECIP_DEVICE, request, value, index, bytes, size, timeout)]: the
    bytes handed over are the first [size] bytes behind the pointer; the
    answer is the number of bytes transferred, or a negative errno. *)
Definition usb_control_msg (request value index : Z) (bytes : list Z)
    (size timeout : Z) : H Z := fun h =>
  let '(r, t) := pop size (control_tape h) in
  (r, host_log (EvControlMsg request value index
                  (take (Z.to_nat size) bytes) size timeout)
        (with_control_tape t h)).

(** [image_open(&image, ULINK_FIRMWARE_FILE, "ihex")]. *)
Definition image_open : H retcode := fun h =>
  let '(r, t) := pop ERROR_OK (image_open_tape h) in
  (r, host_log EvImageOpen (with_image_open_tape t h)).

(** [image_read_section(image, section, offset, size, buffer, &size_read)]:
    the return code and the bytes stored into the buffer, [size_read] being
    their number. *)
Definition image_read_section (section : nat) (offset size : Z)
  : H (retcode * list Z) := fun h =>
  let '(reply, t) := pop (ERROR_FAIL, []) (read_section_tape h) in
  (reply, host_log (EvImageReadSection section offset size)
            (with_read_section_tape t h)).

Definition image_close : H unit := fun h => (tt, host_log EvImageClose h).

Definition usb_release_interface : H Z := fun h =>
  let '(r, t) := pop 0 (release_tape h) in
  (r, host_log EvReleaseInterface (with_release_tape t h)).

Definition usb_close : H Z := fun h =>
  let '(r, t) := pop 0 (usb_close_tape h) in
  (r, host_log EvUsbClose (with_usb_close_tape t h)).

Definition jtag_usb_open : H retcode := fun h =>
  let '(r, t) := pop ERROR_OK (usb_open_tape h) in
  (r, host_log EvUsbOpen (with_usb_open_tape t h)).

Definition usb_claim_interface : H Z := fun h =>
  let '(r, t) := pop 0 (claim_tape h) in
  (r, host_log EvClaimInterface (with_claim_tape t h)).

Definition host_usleep (us : Z) : H unit := fun h =>
  (tt, host_log (EvHostUsleep us) h).

(** ** USB helper functions *)

(** Modelled from the spec: helper/log.h is not part of the sources; it
    defines [ERROR_OK] as 0 and [ERROR_FAIL] as -4.  [error_code ret] is the
    return code that an [int] other than 0 stands for. *)
Definition error_code (ret : Z) : retcode :=
  if ret =? -4 then ERROR_FAIL else ERROR_OTHER ret.

Definition ulink_usb_open : H retcode :=
  let+ ret := jtag_usb_open in
  if negb (is_ok ret) then hret ret
  else
    let+ ret := usb_claim_interface in
    if negb (ret =? 0) then hret (error_code ret)
    else fun h => (ERROR_OK, with_usb_handle true h).

Definition ulink_usb_close : H retcode :=
  let+ r := usb_release_interface in
  if negb (r =? 0) then hret ERROR_FAIL
  else
    let+ r := usb_close in
    if negb (r =? 0) then hret ERROR_FAIL
    else fun h => (ERROR_OK, with_usb_handle false h).

(** ** ULINK CPU (EZ-USB) specific functions *)

(** How a call on the way of the download ends: with a return code, or in
    undefined behaviour, when [image_read_section] has written past the end
    of the local buffer of [ulink_write_firmware_section] or the section
    asked for is not one of the image. *)
Inductive download_result : Type :=
  | Returned (r : retcode)
  | DownloadUndefined.

(** [ret == ERROR_OK]. *)
Definition returned_ok (ret : download_result) : bool :=
  match ret with
  | Returned ERROR_OK => true
  | _ => false
  end.

Definition ulink_cpu_reset (reset_bit : Z) : H retcode :=
  let+ ret := usb_control_msg REQUEST_FIRMWARE_LOAD CPUCS_REG 0
                [u8 reset_bit] 1 USB_TIMEOUT in
  (* usb_control_msg() returns the number of bytes transferred during the
     DATA stage of the control transfer - must be exactly 1 in this case! *)
  if negb (ret =? 1) then hret ERROR_FAIL else hret ERROR_OK.

(** The [while (bytes_remaining > 0)] loop of [ulink_write_firmware_section];
    [bytes_remaining] and [addr] are 16-bit, [data_ptr] is the local buffer
    from the pointer on. *)
Equations? write_chunks (bytes_remaining addr : Z) (data_ptr : list Z)
  : H retcode by wf (Z.to_nat bytes_remaining) lt :=
  write_chunks bytes_remaining addr data_ptr with Z_gt_dec bytes_remaining 0 := {
    | right _ => hret ERROR_OK
    | left _ =>
        let chunk_size := if bytes_remaining >? 64 then 64 else bytes_remaining in
        let+ ret := usb_control_msg REQUEST_FIRMWARE_LOAD addr FIRMWARE_ADDR
                      data_ptr chunk_size USB_TIMEOUT in
        if negb (ret =? chunk_size) then
          (* Abort if libusb sent less data than requested *)
          hret ERROR_FAIL
        else
          write_chunks (u16 (bytes_remaining - chunk_size))
                       (u16 (addr + chunk_size))
                       (drop (Z.to_nat chunk_size) data_ptr) }.
Proof.
  subst chunk_size. unfold u16. destruct (Z.gtb_spec bytes_remaining 64).
  - pose proof (Z.mod_le (bytes_remaining - 64) 65536).
    pose proof (Z.mod_pos_bound (bytes_remaining - 64) 65536). lia.
  - rewrite Z.sub_diag. change (0 mod 65536) with 0. lia.
Qed.

(** [ulink_write_firmware_section(device, firmware_image, section_index)].
    The local buffer [data] holds [SECTION_BUFFERSIZE] bytes: when
    [image_read_section] stores more than that, it has written past the end
    of the buffer.  [ulink_load_firmware] passes no index past the sections
    of the image. *)
Definition ulink_write_firmware_section (section_index : nat)
  : H download_result := fun h =>
  match firmware_sections h !! section_index with
  | None => (DownloadUndefined, h)
  | Some section =>
      let size := u16 (section_size section) in
      let addr := u16 (section_base_address section) in
      (* Copy section contents to local buffer *)
      (let+ rd := image_read_section section_index 0 size in
       let '(ret, data) := rd in
       let size_read := Z.of_nat (length data) in
       if size_read >? SECTION_BUFFERSIZE then hret DownloadUndefined
       else if negb (is_ok ret) || negb (size_read =? size) then
         (* Propagating the return code would return '0' (misleadingly
            indicating successful execution of the function) if only the
            size check fails. *)
         hret (Returned ERROR_FAIL)
       else
         (* Send section data in chunks of up to 64 bytes to ULINK *)
         let+ ret := write_chunks size addr data in
         hret (Returned ret)) h
  end.

(** The [for (i = 0; i < num_sections; i++)] loop of [ulink_load_firmware],
    from section [i] on, with [n] sections to go. *)
Fixpoint write_sections (n : nat) (i : nat) : H download_result :=
  match n with
  | O => hret (Returned ERROR_OK)
  | S n' =>
      let+ ret := ulink_write_firmware_section i in
      if negb (returned_ok ret) then hret ret
      else write_sections n' (S i)
  end.

(** [ulink_load_firmware(device, filename)]; the file opened is
    [ULINK_FIRMWARE_FILE] whatever [filename] is. *)
Definition ulink_load_firmware : H download_result :=
  let+ ret := ulink_cpu_reset CPU_RESET in
  if negb (is_ok ret) then hret (Returned ret)
  else
    let+ ret := image_open in
    if negb (is_ok ret) then hret (Returned ret)
    else
      (* Download all sections in the image to ULINK *)
      let+ ret := (fun h => write_sections (length (firmware_sections h)) 0 h) in
      if negb (returned_ok ret) then hret ret
      else
        let+ _ := image_close in
        let+ ret := ulink_cpu_reset CPU_START in
        if negb (is_ok ret) then hret (Returned ret)
        else hret (Returned ERROR_OK).

Definition ulink_load_firmware_and_renumerate (delay : Z)
  : H download_result :=
  let+ ret := ulink_load_firmware in
  if negb (returned_ok ret) then hret ret
  else
    let+ ret := ulink_usb_close in
    if negb (is_ok ret) then hret (Returned ret)
    else
      let+ _ := host_usleep (u32 delay) in
      let+ ret := ulink_usb_open in
      if negb (is_ok ret) then hret (Returned ret)
      else hret (Returned ERROR_OK).

(** * Start-up *)

Definition ULINK_RENUMERATION_DELAY : Z := 1500000.

(** How a call of [ulink_init] ends: with a return code, in the dereference
    of a null pointer, after which nothing is defined, or in the undefined
    behaviour of the download. *)
Inductive init_result : Type :=
  | InitReturned (r : retcode)
  | InitUndefined
  | InitDownloadUndefined.

(** [strncmp(str_manufacturer, "OpenULINK", 9) != 0], on the string that
    [usb_get_string_simple] has stored. *)
Definition not_OpenULINK (str_manufacturer : list Z) : bool :=
  negb (bool_decide (take 9 str_manufacturer = OpenULINK)).

(** [ulink_init] from ["Initialize OpenULINK command queue"] on: the test
    command, the recovery of a lost Bulk IN packet, and the first reading of
    the signals.  The buffer [dummy] of the recovery is not looked at, and
    [usb_bulk_read] is called whether or not its [calloc] succeeded. *)
Definition init_handshake `{Externals} : M init_result :=
  (* Initialize OpenULINK command queue *)
  ulink_clear_queue ;;
  (* Issue one test command with short timeout *)
  let* r := ulink_append_test_cmd in
  if negb (is_ok r) then ret (InitReturned r)
  else
    let* r := ulink_execute_queued_commands 200 in
    let* lost :=
      if negb (is_ok r) then
        (* Sending test command failed. Try to retrieve a lost Bulk IN
           packet. *)
        let* _ := calloc_ok in
        let* rb := usb_bulk_read (replicate 64 0) 64 200 in
        ret (fst rb <? 0)
      else ret false in
    if (lost : bool) then
      (* Bulk IN transfer failed -> unrecoverable error condition *)
      ret (InitReturned ERROR_FAIL)
    else
      ulink_clear_queue ;;
      let* _ := ulink_append_get_signals_cmd in
      let* _ := ulink_execute_queued_commands 200 in
      (* Post-process the single CMD_GET_SIGNALS command:
         ulink_handle->queue_start->payload_in[0] and [1] *)
      let* device := get ulink_handle in
      match queue device with
      | [] => ret InitUndefined
      | c :: _ =>
          match payload_in c with
          | None => ret InitUndefined
          | Some _ =>
              ulink_clear_queue ;;
              ret (InitReturned ERROR_OK)
          end
      end.

(** [ulink_init()].  The download and the re-enumeration run on the [host]
    handed in, which is handed back as they leave it. *)
Definition ulink_init `{Externals} (h : host) : M (init_result * host) :=
  (* ulink_handle = calloc(1, sizeof(struct ulink)) *)
  let* ok := calloc_ok in
  if negb ok then ret (InitReturned ERROR_FAIL, h)
  else
    modify (with_handle {| commands_in_queue := 0; queue := [] |}) ;;
    (* usb_init() *)
    let '(r, h) := ulink_usb_open h in
    if negb (is_ok r) then ret (InitReturned r, h)
    else
      (* Get String Descriptor to determine if firmware needs to be loaded *)
      let '(descriptor, h) := usb_get_string_simple 1 20 h in
      let download_firmware :=
        if fst descriptor <? 0 then
          (* Could not get descriptor -> Unconfigured or original Keil
             firmware *)
          true
        else
          (* We got a String Descriptor, check if it is the correct one *)
          not_OpenULINK (snd descriptor) in
      let '(r, h) :=
        if download_firmware
        then ulink_load_firmware_and_renumerate ULINK_RENUMERATION_DELAY h
        else (Returned ERROR_OK, h) in
      match r with
      | DownloadUndefined => ret (InitDownloadUndefined, h)
      | Returned r =>
          if negb (is_ok r) then ret (InitReturned r, h)
          else
            let* result := init_handshake in
            ret (result, h)
      end.

(** * Vocabulary of the properties *)

(** ** Runs and what they leave untouched *)

(** The events of a transfer: a bulk write, a bulk read, a hand-over of
    captured bytes to the JTAG layer. *)
Definition io_event (e : event) : Prop :=
  match e with
  | EvBulkWrite _ _ _ | EvBulkRead _ _ | EvReadBuffer _ _ _ => True
  | EvEnqueue _ | EvUsleep _ => False
  end.

(** [quiet w w']: between the two worlds the driver only talked to its
    environment; queue and TAP follower are as they were. *)
Record quiet (w w' : world) : Prop := {
  quiet_handle : ulink_handle w' = ulink_handle w;
  quiet_cur : cur_state w' = cur_state w;
  quiet_end : end_state_follower w' = end_state_follower w;
  quiet_trace : exists t, trace w' = trace w ++ t /\ Forall io_event t
}.

(** [runs m w Q]: from [w] the computation [m] returns (it does not leave
    through [exit]) and its result and final world satisfy [Q]. *)
Definition runs {A} (m : M A) (w : world) (Q : A -> world -> Prop) : Prop :=
  exists a w', m w = Done a w' /\ Q a w'.

(** After [ulink_clear_queue] the queue is empty; nothing else the driver
    tracks has moved. *)
Record cleared (w w' : world) : Prop := {
  cleared_handle : ulink_handle w' = {| commands_in_queue := 0; queue := [] |};
  cleared_cur : cur_state w' = cur_state w;
  cleared_end : end_state_follower w' = end_state_follower w;
  cleared_trace : exists t, trace w' = trace w ++ t /\ Forall io_event t
}.

(** ** The queue *)

(** The sum over the queued commands of [payload_out_size + 1]. *)
Definition out_bytes (q : list ulink_cmd) : Z :=
  foldr (fun c s => (payload_out_size c + 1) + s) 0 q.

(** The sum over the queued commands of [payload_in_size]. *)
Definition in_bytes (q : list ulink_cmd) : Z :=
  foldr (fun c s => payload_in_size c + s) 0 q.

(** Whether [cmd] still fits behind the commands of [q]. *)
Definition fits (cmd : ulink_cmd) (q : list ulink_cmd) : Prop :=
  out_bytes q + 1 + payload_out_size cmd <= 64 /\
  in_bytes q + payload_in_size cmd <= 64.

(** What a call [ulink_append_queue cmd] from [w] can come to. *)
Inductive append_result (cmd : ulink_cmd) (w : world)
  : retcode -> world -> Prop :=
  | append_done w' t q0 :
      Forall io_event t ->
      trace w' = trace w ++ t ++ [EvEnqueue cmd] ->
      queue (ulink_handle w') = q0 ++ [cmd] ->
      (q0 = queue (ulink_handle w) /\ fits cmd (queue (ulink_handle w))) \/
      (q0 = [] /\ ~ fits cmd (queue (ulink_handle w))) ->
      cur_state w' = cur_state w ->
      end_state_follower w' = end_state_follower w ->
      append_result cmd w ERROR_OK w'
  | append_failed r w' :
      r <> ERROR_OK -> quiet w w' -> append_result cmd w r w'.

(** Execute, post-process, clear: the sequence [ulink_append_queue] runs
    before it appends a command that does not fit, and [ulink_execute_queue]
    runs at its end.  Both spell it out in place. *)
Definition flush `{Externals} : M retcode :=
  let* r := ulink_execute_queued_commands USB_TIMEOUT in
  if negb (is_ok r) then ret r
  else
    let* r := ulink_post_process_queue in
    if negb (is_ok r) then ret r
    else ulink_clear_queue ;; ret ERROR_OK.

(** A command with a two-byte OUT payload and no IN payload. *)
Definition two_byte_cmd (i : cmd_id) (b0 b1 : Z) : ulink_cmd := {|
  id := i; payload_out := Some [u8 b0; u8 b1]; payload_out_size := 2;
  payload_in_start := None; payload_in := None; payload_in_size := 0;
  needs_postprocessing := false; free_payload_in_start := false;
  cmd_origin := None |}.

(** The worlds the driver reaches from an empty queue by appending commands
    with [payload_out_size <= 63] and [payload_in_size <= 64]. *)
Inductive reachable `{Externals} : world -> Prop :=
  | reachable_empty w :
      queue (ulink_handle w) = [] -> reachable w
  | reachable_append w cmd r w' :
      reachable w ->
      payload_out_size cmd <= 63 -> payload_in_size cmd <= 64 ->
      ulink_append_queue cmd w = Done r w' ->
      reachable w'.

(** ** The packet *)

(** The bytes a command occupies in the OUT packet: its id, then its payload. *)
Definition wire_bytes `{Externals} (c : ulink_cmd) : list Z :=
  cmd_id_byte (id c) :: default [] (payload_out c).

(** The OUT packet of a queue: its commands back to back, in queue order. *)
Definition packet_bytes `{Externals} (q : list ulink_cmd) : list Z :=
  concat (map wire_bytes q).

(** [payload_out_size] is the length of the OUT payload (0 when there is
    none) and [payload_in_size] is not negative. *)
Definition well_formed (c : ulink_cmd) : Prop :=
  payload_out_size c = Z.of_nat (length (default [] (payload_out c))) /\
  0 <= payload_in_size c.

(** [bytes] stored from [p[i]] on. *)
Fixpoint store_bytes (p : option ptr) (i : Z) (bytes : list Z)
    (h : gmap nat (list Z)) : gmap nat (list Z) :=
  match bytes with
  | [] => h
  | b :: bs => store_bytes p (i + 1) bs (store_byte p i b h)
  end.

(** The inbound bytes dealt out to the commands in queue order, each command
    taking the next [payload_in_size] bytes into its view. *)
Fixpoint scatter (q : list ulink_cmd) (inbound : list Z)
    (h : gmap nat (list Z)) : gmap nat (list Z) :=
  match q with
  | [] => h
  | c :: q' =>
      let n := Z.to_nat (payload_in_size c) in
      scatter q' (drop n inbound) (store_bytes (payload_in c) 0 (take n inbound) h)
  end.

(** ** Scan commands *)

(** The id [ulink_append_scan_cmd] gives a command of scan type [t]. *)
Definition scan_cmd_id (t : scan_type) : cmd_id :=
  match t with
  | SCAN_IN => CMD_SCAN_IN
  | SCAN_OUT => CMD_SCAN_OUT
  | SCAN_IO => CMD_SCAN_IO
  | SCAN_UNKNOWN => CMD_NONE
  end.

(** The command [ulink_append_scan_cmd] builds from its arguments. *)
Definition scan_cmd (t : scan_type) (scan_size_bits : Z)
    (tdi : option (list Z)) (tdo_start tdo : option ptr)
    (tms_count_start tms_sequence_start tms_count_end tms_sequence_end : Z)
    (origin : option jtag_command) (postprocess : bool) : ulink_cmd :=
  let scan_size_bytes := DIV_ROUND_UP scan_size_bits 8 in
  let bits_last_byte := u8 (Z.rem scan_size_bits 8) in
  let bits_last_byte := if bits_last_byte =? 0 then 8 else bits_last_byte in
  let size := match t with SCAN_IN => 5 | _ => scan_size_bytes + 5 end in
  fill_scan_cmd t scan_size_bytes bits_last_byte tdi tdo_start tdo
    tms_count_start tms_sequence_start tms_count_end tms_sequence_end
    origin postprocess
    (set_payload_out (Some (replicate (Z.to_nat size) 0)) (u8 size)
                     (set_id (scan_cmd_id t) zeroed_cmd)).

(** Byte [k] of the OUT payload; bytes 0 to 4 of a scan command are its
    header. *)
Definition header_byte (c : ulink_cmd) (k : nat) : option Z :=
  default [] (payload_out c) !! k.

(** The TDI data a scan command carries: its OUT payload behind the header. *)
Definition tdi_bytes (c : ulink_cmd) : list Z :=
  drop 5 (default [] (payload_out c)).

(** A chunk of a split scan that is followed by another one.  [tdi_k] is the
    TDI data of the request from this chunk on. *)
Record nonfinal_chunk (t : scan_type) (tdi_k : list Z) (c : ulink_cmd)
  : Prop := {
  nf_bytes : header_byte c 0 = Some 58;
  nf_bits : header_byte c 1 = Some 8;
  nf_size : payload_out_size c = if scan_has_out t then 63 else 5;
  nf_tdi : tdi_bytes c = if scan_has_out t then u8 <$> take 58 tdi_k else [];
  nf_tdi_length : length (tdi_bytes c) = if scan_has_out t then 58%nat else 0%nat;
  nf_postprocessing : needs_postprocessing c = false;
  nf_owner : free_payload_in_start c = false
}.

(** A chunk of a scan that ends the scan. *)
Record final_chunk (bits_last_byte : Z) (c : ulink_cmd) : Prop := {
  fin_bits : header_byte c 1 = Some bits_last_byte;
  fin_postprocessing : needs_postprocessing c = true;
  fin_owner : free_payload_in_start c = true
}.

(** * Vocabulary of the further properties *)

(** ** The driver invariant *)

(** A command as the constructors hand it to [ulink_append_queue]. *)
Definition within_packet (c : ulink_cmd) : Prop :=
  well_formed c /\ payload_out_size c <= 63 /\ payload_in_size c <= 64.

(** The queue and its counter agree, the queue fits one packet in each
    direction, and every queued command is well formed. *)
Definition driver_inv (w : world) : Prop :=
  commands_in_queue (ulink_handle w)
  = Z.of_nat (length (queue (ulink_handle w))) /\
  out_bytes (queue (ulink_handle w)) <= 64 /\
  in_bytes (queue (ulink_handle w)) <= 64 /\
  Forall well_formed (queue (ulink_handle w)).

(** [keeps I m]: [m] leaves [I] standing, also when it leaves through
    [exit]. *)
Definition keeps {A} (I : world -> Prop) (m : M A) : Prop :=
  forall w, I w -> I (world_of (m w)).

(** [c'] is [c] with other bytes in its OUT payload. *)
Record same_frame (c c' : ulink_cmd) : Prop := {
  sf_id : id c' = id c;
  sf_out_size : payload_out_size c' = payload_out_size c;
  sf_out_length : length (default [] (payload_out c'))
                  = length (default [] (payload_out c));
  sf_in_start : payload_in_start c' = payload_in_start c;
  sf_in : payload_in c' = payload_in c;
  sf_in_size : payload_in_size c' = payload_in_size c;
  sf_postprocessing : needs_postprocessing c' = needs_postprocessing c;
  sf_free : free_payload_in_start c' = free_payload_in_start c;
  sf_origin : cmd_origin c' = cmd_origin c
}.

(** ** Translated requests *)

(** The clock-tms command that moves the TAP from [a] to [b]. *)
Definition move_cmd `{Externals} (a b : tap_state) : ulink_cmd :=
  two_byte_cmd CMD_CLOCK_TMS (u8 (tap_get_tms_path_len a b))
               (u8 (tap_get_tms_path a b)).

(** The clock-tck command of [count] cycles. *)
Definition tck_cmd (count : Z) : ulink_cmd :=
  two_byte_cmd CMD_CLOCK_TCK (Z.land count 255) (Z.land (Z.shiftr count 8) 255).

Definition is_pathmove (c : jtag_command) : bool :=
  match c with JTAG_PATHMOVE => true | _ => false end.

(** The state in which a scan shifts. *)
Definition shift_state (scan : scan_command) : tap_state :=
  if ir_scan scan then TAP_IRSHIFT else TAP_DRSHIFT.

(** The world after [cmd] has been linked behind the queue. *)
Definition linked (cmd : ulink_cmd) (w : world) : world :=
  with_handle
    match queue (ulink_handle w) with
    | [] => {| commands_in_queue := 1; queue := [cmd] |}
    | _ => {| commands_in_queue := commands_in_queue (ulink_handle w) + 1;
              queue := queue (ulink_handle w) ++ [cmd] |}
    end
    (log (EvEnqueue cmd) w).

(** The state in which a split scan rests between two of its commands. *)
Definition pause_state (scan : scan_command) : tap_state :=
  if ir_scan scan then TAP_IRPAUSE else TAP_DRPAUSE.

(** ** The commands of a split scan *)

(** The command the loop of [ulink_queue_scan] builds with [bytecount] bytes
    to go. *)
Definition chunk (s : scan_plan) (bytecount : Z) (tdi : option (list Z))
    (tdo : option ptr) : ulink_cmd :=
  scan_cmd (type s)
    (if bytecount >? 58 then 58 * 8
     else if bytecount =? 58 then 58 * 8 else to_int (bits_last_scan s))
    tdi (tdo_buffer_start s) tdo
    (if bytecount =? scan_size_bytes s
     then first_tms_count s else tms_count_resume s)
    (if bytecount =? scan_size_bytes s
     then first_tms_sequence s else tms_sequence_resume s)
    (if bytecount >? 58 then tms_count_pause s else last_tms_count s)
    (if bytecount >? 58 then tms_sequence_pause s else last_tms_sequence s)
    (origin s) (negb (bytecount >? 58)).

(** The first [n] commands of the loop. *)
Fixpoint chunks (s : scan_plan) (n : nat) (bytecount : Z)
    (tdi : option (list Z)) (tdo : option ptr) : list ulink_cmd :=
  match n with
  | O => []
  | S n' =>
      chunk s bytecount tdi tdo
      :: chunks s n' (bytecount - 58) (advance_tdi tdi) (advance_tdo tdo)
  end.

(** The TDI and TDO pointers after [k] full commands. *)
Definition tdi_at (tdi : option (list Z)) (k : nat) : option (list Z) :=
  match tdi with Some l => Some (drop (58 * k) l) | None => None end.

Definition tdo_at (tdo : option ptr) (k : nat) : option ptr :=
  match tdo with
  | Some p => Some (ptr_add p (58 * Z.of_nat k))
  | None => None
  end.

(** ** The firmware download *)

(** The [k]-th control transfer of a section of [size] bytes [data] that
    goes to address [addr]. *)
Definition chunk_msg (addr : Z) (data : list Z) (size : Z) (k : nat)
  : host_event :=
  let len := Z.min 64 (size - 64 * Z.of_nat k) in
  EvControlMsg REQUEST_FIRMWARE_LOAD (u16 (addr + 64 * Z.of_nat k))
    FIRMWARE_ADDR (take (Z.to_nat len) (drop (64 * k) data)) len USB_TIMEOUT.

(** The bytes a control transfer carries. *)
Definition control_bytes (e : host_event) : list Z :=
  match e with EvControlMsg _ _ _ bytes _ _ => bytes | _ => [] end.

(** The download leaves alone what it does not use. *)
Record same_host (h h' : host) : Prop := {
  sh_sections : firmware_sections h' = firmware_sections h;
  sh_handle : usb_handle h' = usb_handle h;
  sh_release : release_tape h' = release_tape h;
  sh_close : usb_close_tape h' = usb_close_tape h;
  sh_open : usb_open_tape h' = usb_open_tape h;
  sh_claim : claim_tape h' = claim_tape h
}.

(** The events of the download of section [i], whose bytes are [data]. *)
Definition section_events (i : nat) (sec : image_section) (data : list Z)
  : list host_event :=
  let size := u16 (section_size sec) in
  EvImageReadSection i 0 size
  :: map (chunk_msg (u16 (section_base_address sec)) data size)
         (seq 0 (Z.to_nat ((size + 63) / 64))).

(** The events of the download of the sections [secs], numbered from [i]. *)
Fixpoint download_events (i : nat) (secs : list image_section)
    (datas : list (list Z)) : list host_event :=
  match secs, datas with
  | sec :: secs', data :: datas' =>
      section_events i sec data ++ download_events (S i) secs' datas'
  | _, _ => []
  end.

(** The control transfer that writes [bit] to the CPUCS register. *)
Definition cpucs_msg (bit : Z) : host_event :=
  EvControlMsg REQUEST_FIRMWARE_LOAD CPUCS_REG 0 [bit] 1 USB_TIMEOUT.

(** The events of a download that runs to its end, the bytes of the
    sections being [datas]. *)
Definition firmware_events (secs : list image_section)
    (datas : list (list Z)) : list host_event :=
  cpucs_msg 1 :: EvImageOpen
  :: download_events 0 secs datas ++ [EvImageClose; cpucs_msg 0].

(** The events of the download: control transfers and calls of the image
    functions. *)
Definition is_firmware_event (e : host_event) : Prop :=
  match e with
  | EvControlMsg _ _ _ _ _ _ | EvImageOpen | EvImageReadSection _ _ _
  | EvImageClose => True
  | _ => False
  end.

(** ** Library calls and their answers *)

(** The library call that an event records, made on [h]: whether it
    succeeds, and the host it leaves.  A call succeeds when its answer passes
    the test the driver makes of it; [image_read_section] must, besides,
    have stayed within the [SECTION_BUFFERSIZE] bytes of the driver's
    buffer. *)
Definition answer (e : host_event) : H bool := fun h =>
  match e with
  | EvControlMsg _ _ _ _ size _ =>
      let '(r, t) := pop size (control_tape h) in
      (r =? size, host_log e (with_control_tape t h))
  | EvGetString _ _ =>
      let '(reply, t) := pop (9, OpenULINK) (descriptor_tape h) in
      (0 <=? fst reply, host_log e (with_descriptor_tape t h))
  | EvImageOpen =>
      let '(r, t) := pop ERROR_OK (image_open_tape h) in
      (is_ok r, host_log e (with_image_open_tape t h))
  | EvImageReadSection _ _ size =>
      let '(reply, t) := pop (ERROR_FAIL, []) (read_section_tape h) in
      let size_read := Z.of_nat (length (snd reply)) in
      (is_ok (fst reply) && (size_read =? size)
       && (size_read <=? SECTION_BUFFERSIZE),
       host_log e (with_read_section_tape t h))
  | EvImageClose => (true, host_log e h)
  | EvReleaseInterface =>
      let '(r, t) := pop 0 (release_tape h) in
      (r =? 0, host_log e (with_release_tape t h))
  | EvUsbClose =>
      let '(r, t) := pop 0 (usb_close_tape h) in
      (r =? 0, host_log e (with_usb_close_tape t h))
  | EvHostUsleep _ => (true, host_log e h)
  | EvUsbOpen =>
      let '(r, t) := pop ERROR_OK (usb_open_tape h) in
      (is_ok r, host_log e (with_usb_open_tape t h))
  | EvClaimInterface =>
      let '(r, t) := pop 0 (claim_tape h) in
      (r =? 0, host_log e (with_claim_tape t h))
  end.

(** The calls that the events [evs] record, made one after the other. *)
Fixpoint answers (evs : list host_event) : H (list bool) :=
  match evs with
  | [] => hret []
  | e :: evs' =>
      let+ b := answer e in
      let+ bs := answers evs' in
      hret (b :: bs)
  end.

(** The calls were made up to the first one that failed: with [ok] every
    call succeeded, and without it the last call failed and every call
    before it succeeded. *)
Definition stops_at_failure (ok : bool) (flags : list bool) : Prop :=
  if ok then Forall (fun b => b = true) flags
  else exists pre, flags = pre ++ [false] /\ Forall (fun b => b = true) pre.

(** A host on which nothing fails, with an image of two sections of 70 and
    3 bytes. *)
Definition sample_host : host := {|
  usb_handle := true;
  firmware_sections := [ {| section_size := 70; section_base_address := 65500 |};
                         {| section_size := 3; section_base_address := 512 |} ];
  descriptor_tape := [(-1, [])];
  control_tape := []; image_open_tape := [];
  read_section_tape := [(ERROR_OK, replicate 70 7); (ERROR_OK, [1; 2; 3])];
  release_tape := []; usb_close_tape := []; usb_open_tape := [];
  claim_tape := []; host_trace := [] |}.

(** ** Commands handed to the adapter *)

(** Over the history [t] the command [c] was handed to [usb_bulk_write]: in
    the packet of a batch of commands, with the batch's number of OUT bytes
    and the driver's timeout. *)
Definition offered `{Externals} (c : ulink_cmd) (t : list event) : Prop :=
  exists q,
    In c q /\
    In (EvBulkWrite (packet_bytes q) (out_bytes q) USB_TIMEOUT) t.

(** From [w0] to [w] no command was dropped: each command that was queued in
    [w0] or has been emitted since is still queued, or was handed to
    [usb_bulk_write]. *)
Definition none_dropped `{Externals} (w0 w : world) : Prop :=
  exists t,
    trace w = trace w0 ++ t /\
    forall c,
      In c (queue (ulink_handle w0)) \/ In c (enqueued t) ->
      In c (queue (ulink_handle w)) \/ offered c t.

Definition sending_inv `{Externals} (w0 w : world) : Prop :=
  driver_inv w /\ none_dropped w0 w.

(** ** The commands of the constructors *)

(** A command with the OUT payload [bytes] and no IN payload. *)
Definition out_cmd (i : cmd_id) (bytes : list Z) : ulink_cmd := {|
  id := i; payload_out := Some (u8 <$> bytes);
  payload_out_size := Z.of_nat (length bytes);
  payload_in_start := None; payload_in := None; payload_in_size := 0;
  needs_postprocessing := false; free_payload_in_start := false;
  cmd_origin := None |}.

(** The get-signals command whose two IN bytes go to the buffer [p]. *)
Definition get_signals_cmd (p : ptr) : ulink_cmd := {|
  id := CMD_GET_SIGNALS; payload_out := None; payload_out_size := 0;
  payload_in_start := Some p; payload_in := Some p; payload_in_size := 2;
  needs_postprocessing := true; free_payload_in_start := true;
  cmd_origin := None |}.

(** * Properties *)

(** ** Reasoning about runs *)

Lemma quiet_refl w : quiet w w.
Proof.
  split; try reflexivity. exists []. rewrite app_nil_r. auto.
Qed.

Lemma quiet_trans w1 w2 w3 : quiet w1 w2 -> quiet w2 w3 -> quiet w1 w3.
Proof.
  intros [h1 c1 e1 (t1 & T1 & F1)] [h2 c2 e2 (t2 & T2 & F2)].
  split; try congruence.
  exists (t1 ++ t2). split.
  - rewrite T2, T1, app_assoc. reflexivity.
  - apply Forall_app; auto.
Qed.

Lemma runs_ret {A} (a : A) w (Q : A -> world -> Prop) :
  Q a w -> runs (ret a) w Q.
Proof. intros HQ. exists a, w. split; [reflexivity | exact HQ]. Qed.

Lemma runs_bind {A B} (m : M A) (k : A -> M B) w (Q : B -> world -> Prop) :
  runs m w (fun a w1 => runs (k a) w1 Q) -> runs (bind m k) w Q.
Proof.
  intros (a & w1 & Hm & b & w2 & Hk & HQ).
  exists b, w2. unfold bind. rewrite Hm. auto.
Qed.

Lemma runs_weaken {A} (m : M A) w (Q Q' : A -> world -> Prop) :
  runs m w Q -> (forall a w', Q a w' -> Q' a w') -> runs m w Q'.
Proof. intros (a & w' & Hm & HQ) Himp. exists a, w'. auto. Qed.

Lemma runs_get {A} (f : world -> A) w (Q : A -> world -> Prop) :
  Q (f w) w -> runs (get f) w Q.
Proof. intros HQ. exists (f w), w. auto. Qed.

Lemma runs_modify (f : world -> world) w (Q : unit -> world -> Prop) :
  Q tt (f w) -> runs (modify f) w Q.
Proof. intros HQ. exists tt, (f w). auto. Qed.

Lemma runs_det {A} (m : M A) w (Q : A -> world -> Prop) a w' :
  runs m w Q -> m w = Done a w' -> Q a w'.
Proof. intros (a0 & w0 & Hm & HQ) E. rewrite E in Hm. congruence. Qed.

Lemma bind_Done {A B} (m : M A) (k : A -> M B) w b w' :
  bind m k w = Done b w' ->
  exists a w1, m w = Done a w1 /\ k a w1 = Done b w'.
Proof.
  unfold bind. destruct (m w) as [a w1|]; [|discriminate]. eauto.
Qed.

Lemma enqueued_app t1 t2 : enqueued (t1 ++ t2) = enqueued t1 ++ enqueued t2.
Proof.
  induction t1 as [|e t1 IH]; [reflexivity|].
  destruct e; simpl; rewrite ?IH; reflexivity.
Qed.

Lemma enqueued_io t : Forall io_event t -> enqueued t = [].
Proof.
  induction 1 as [|e t He _ IH]; [reflexivity|].
  destruct e; simpl in *; tauto.
Qed.

Lemma quiet_enqueued w w' : quiet w w' -> enqueued (trace w') = enqueued (trace w).
Proof.
  intros [_ _ _ (t & T & F)].
  rewrite T, enqueued_app, (enqueued_io t F), app_nil_r. reflexivity.
Qed.

(** ** The environment is quiet *)

Lemma log_io_quiet e w : io_event e -> quiet w (log e w).
Proof.
  intros He. split; try reflexivity. exists [e]. split; [reflexivity|].
  constructor; auto.
Qed.

Lemma calloc_ok_runs w : runs calloc_ok w (fun _ w' => quiet w w').
Proof.
  unfold runs, calloc_ok. destruct (pop true (calloc_tape w)) as [ok t].
  eexists _, _. split; [reflexivity|]. split; try reflexivity.
  exists []. rewrite app_nil_r. auto.
Qed.

Lemma new_block_runs size w : runs (new_block size) w (fun _ w' => quiet w w').
Proof.
  eexists _, _. split; [reflexivity|]. split; try reflexivity.
  exists []. rewrite app_nil_r. auto.
Qed.

Lemma free_runs p w : runs (free p) w (fun _ w' => quiet w w').
Proof.
  destruct p as [q|]; (eexists _, _; split; [reflexivity|]);
    (split; try reflexivity; exists []; rewrite app_nil_r; auto).
Qed.

Lemma usb_bulk_write_runs buf size timeout w :
  runs (usb_bulk_write buf size timeout) w (fun _ w' => quiet w w').
Proof.
  unfold runs, usb_bulk_write. destruct (pop size (bulk_write_tape w)) as [r t].
  eexists _, _. split; [reflexivity|].
  eapply quiet_trans; [|apply log_io_quiet; exact I].
  split; try reflexivity. exists []. rewrite app_nil_r. auto.
Qed.

Lemma usb_bulk_read_runs buf size timeout w :
  runs (usb_bulk_read buf size timeout) w (fun _ w' => quiet w w').
Proof.
  unfold runs, usb_bulk_read.
  destruct (pop (ReadData []) (bulk_read_tape w)) as [[errno | data] t];
    (eexists _, _; split; [reflexivity|]).
  all: eapply quiet_trans; [|apply log_io_quiet; exact I].
  all: split; try reflexivity; exists []; rewrite app_nil_r; auto.
Qed.

Lemma jtag_read_buffer_runs p scan w :
  runs (jtag_read_buffer p scan) w (fun _ w' => quiet w w').
Proof.
  unfold runs, jtag_read_buffer.
  destruct (pop ERROR_OK (read_buffer_tape w)) as [r t].
  eexists _, _. split; [reflexivity|].
  eapply quiet_trans; [|apply log_io_quiet; exact I].
  split; try reflexivity. exists []. rewrite app_nil_r. auto.
Qed.

Ltac step :=
  lazymatch goal with
  | |- runs (bind _ _) _ _ => apply runs_bind
  | |- runs (ret _) _ _ => apply runs_ret
  | |- runs (get _) _ _ => apply runs_get
  | |- runs (modify _) _ _ => apply runs_modify
  end.

(** [call L]: run a sub-computation whose behaviour is given by lemma [L]. *)
Ltac call L :=
  apply runs_bind; eapply runs_weaken; [apply L | cbv beta].

Lemma with_heap_quiet h n w : quiet w (with_heap h n w).
Proof.
  split; try reflexivity. exists []. rewrite app_nil_r. auto.
Qed.

Section Driver.

Context `{Ext : Externals}.

(** ** The queue helpers *)

Lemma execute_runs timeout w :
  runs (ulink_execute_queued_commands timeout) w (fun _ w' => quiet w w').
Proof.
  unfold ulink_execute_queued_commands.
  step. step. cbv zeta.
  call usb_bulk_write_runs. intros r w1 Q1.
  destruct (r <? 0); [step; exact Q1|].
  destruct (negb _); [step; exact Q1|].
  destruct (_ >? 0); [|step; exact Q1].
  call usb_bulk_read_runs. intros [r2 buffer'] w2 Q2.
  pose proof (quiet_trans _ _ _ Q1 Q2) as Q12.
  destruct (r2 <? 0); [step; exact Q12|].
  destruct (negb _); [step; exact Q12|].
  step. step. step.
  eapply quiet_trans; [exact Q12 | apply with_heap_quiet].
Qed.

Lemma post_process_scan_runs c w :
  runs (ulink_post_process_scan c) w (fun _ w' => quiet w w').
Proof.
  unfold ulink_post_process_scan.
  destruct (cmd_origin c) as [[scan| | | | | |]|]; try (step; apply quiet_refl).
  destruct (jtag_scan_type scan); try (step; apply quiet_refl);
    apply jtag_read_buffer_runs.
Qed.

Lemma post_process_from_runs q w :
  runs (post_process_from q) w (fun _ w' => quiet w w').
Proof.
  revert w. induction q as [|c q IH]; intros w; simpl.
  - step. apply quiet_refl.
  - destruct (needs_postprocessing c); [|apply IH].
    destruct (cmd_origin c) as [openocd_cmd|] eqn:Eo; [|apply IH].
    apply runs_bind.
    assert (runs
      match openocd_cmd with
      | JTAG_SCAN _ => ulink_post_process_scan c
      | JTAG_OTHER => ret ERROR_FAIL
      | _ => ret ERROR_OK
      end w (fun _ w' => quiet w w')) as Hr.
    { destruct openocd_cmd; try (step; apply quiet_refl).
      apply post_process_scan_runs. }
    eapply runs_weaken; [exact Hr|]. intros r w1 Q1. cbv beta.
    destruct (is_ok r).
    + eapply runs_weaken; [apply IH|]. intros r2 w2 Q2.
      exact (quiet_trans _ _ _ Q1 Q2).
    + step. exact Q1.
Qed.

Lemma post_process_runs w :
  runs ulink_post_process_queue w (fun _ w' => quiet w w').
Proof.
  unfold ulink_post_process_queue. step. step. apply post_process_from_runs.
Qed.

Lemma clear_from_runs q w :
  runs (clear_from q) w (fun _ w' => quiet w w').
Proof.
  revert w. induction q as [|c q IH]; intros w; simpl.
  - step. apply quiet_refl.
  - apply runs_bind.
    assert (runs (if free_payload_in_start c then free (payload_in_start c)
                  else ret tt) w (fun _ w' => quiet w w')) as Hr.
    { destruct (free_payload_in_start c); [apply free_runs|].
      step. apply quiet_refl. }
    eapply runs_weaken; [exact Hr|]. intros [] w1 Q1. cbv beta.
    eapply runs_weaken; [apply IH|]. intros [] w2 Q2.
    exact (quiet_trans _ _ _ Q1 Q2).
Qed.

Lemma clear_queue_runs w :
  runs ulink_clear_queue w (fun _ w' => cleared w w').
Proof.
  unfold ulink_clear_queue. step. step.
  call clear_from_runs. intros [] w1 [h c e t].
  step. split; auto.
Qed.

(** ** Queue sizes *)

Lemma queue_size_from_out q s :
  queue_size_from PAYLOAD_DIRECTION_OUT q s = s + out_bytes q.
Proof.
  revert s. induction q as [|c q IH]; intros s; simpl; [lia|].
  rewrite IH. lia.
Qed.

Lemma queue_size_from_in q s :
  queue_size_from PAYLOAD_DIRECTION_IN q s = s + in_bytes q.
Proof.
  revert s. induction q as [|c q IH]; intros s; simpl; [lia|].
  rewrite IH. lia.
Qed.

Lemma get_queue_size_out d :
  ulink_get_queue_size d PAYLOAD_DIRECTION_OUT = out_bytes (queue d).
Proof. unfold ulink_get_queue_size. rewrite queue_size_from_out. lia. Qed.

Lemma get_queue_size_in d :
  ulink_get_queue_size d PAYLOAD_DIRECTION_IN = in_bytes (queue d).
Proof. unfold ulink_get_queue_size. rewrite queue_size_from_in. lia. Qed.

Lemma out_bytes_app q1 q2 : out_bytes (q1 ++ q2) = out_bytes q1 + out_bytes q2.
Proof. induction q1 as [|c q1 IH]; simpl; [reflexivity|]. rewrite IH. lia. Qed.

Lemma in_bytes_app q1 q2 : in_bytes (q1 ++ q2) = in_bytes q1 + in_bytes q2.
Proof. induction q1 as [|c q1 IH]; simpl; [reflexivity|]. rewrite IH. lia. Qed.

(** ** Appending to the queue *)

Lemma link_cmd_runs cmd w :
  runs (link_cmd cmd) w (fun _ w' =>
    trace w' = trace w ++ [EvEnqueue cmd] /\
    queue (ulink_handle w') = queue (ulink_handle w) ++ [cmd] /\
    cur_state w' = cur_state w /\
    end_state_follower w' = end_state_follower w).
Proof.
  unfold link_cmd. step. step. step. step.
  destruct (queue (ulink_handle w)) eqn:E; step; simpl; auto.
Qed.

Lemma flush_runs w :
  runs flush w (fun r w' =>
    (r = ERROR_OK /\ cleared w w') \/ (r <> ERROR_OK /\ quiet w w')).
Proof.
  unfold flush.
  call execute_runs. intros r1 w1 Q1.
  destruct r1; simpl; try (step; right; split; [discriminate | exact Q1]).
  call post_process_runs. intros r2 w2 Q2.
  pose proof (quiet_trans _ _ _ Q1 Q2) as Q12.
  destruct r2; simpl; try (step; right; split; [discriminate | exact Q12]).
  call clear_queue_runs. intros [] w3 [h c e (t3 & T3 & F3)].
  step. left. split; [reflexivity|].
  destruct Q12 as [h' c' e' (t & T & F)].
  split; try congruence.
  exists (t ++ t3). split.
  - rewrite T3, T, app_assoc. reflexivity.
  - apply Forall_app; auto.
Qed.

Lemma fits_dec cmd (d : ulink) :
  (ulink_get_queue_size d PAYLOAD_DIRECTION_OUT + 1 + payload_out_size cmd >? 64)
  || (ulink_get_queue_size d PAYLOAD_DIRECTION_IN + payload_in_size cmd >? 64)
  = false <-> fits cmd (queue d).
Proof.
  rewrite get_queue_size_out, get_queue_size_in. unfold fits.
  rewrite orb_false_iff. lia.
Qed.

Lemma append_queue_runs cmd w :
  runs (ulink_append_queue cmd) w (append_result cmd w).
Proof.
  unfold ulink_append_queue. step. step. cbv zeta.
  pose proof (fits_dec cmd (ulink_handle w)) as Hfit.
  destruct (_ || _) eqn:Eover.
  - (* the command does not fit: flush first *)
    assert (~ fits cmd (queue (ulink_handle w))) as Hno.
    { intros Hf. apply Hfit in Hf. discriminate. }
    apply runs_bind. fold flush.
    eapply runs_weaken; [apply flush_runs|]. cbv beta.
    intros r w1 [[-> C] | [Hr Q]].
    + simpl. call link_cmd_runs. intros [] w2 (T & Hq & Hc & He).
      step. destruct C as [h c e (t & Tt & F)].
      apply append_done with (t := t) (q0 := []); auto.
      * rewrite T, Tt, app_assoc. reflexivity.
      * rewrite Hq, h. reflexivity.
      * congruence.
      * congruence.
    + destruct r; [congruence| |]; simpl; step; apply append_failed; auto.
  - assert (fits cmd (queue (ulink_handle w))) as Hyes by (apply Hfit; reflexivity).
    step. step. simpl. call link_cmd_runs. intros [] w2 (T & Hq & Hc & He).
    step. apply append_done with (t := []) (q0 := queue (ulink_handle w)); auto.
Qed.

Lemma append_result_enqueued cmd w r w' :
  append_result cmd w r w' ->
  enqueued (trace w') = enqueued (trace w) ++ (if is_ok r then [cmd] else []) /\
  cur_state w' = cur_state w /\
  end_state_follower w' = end_state_follower w.
Proof.
  intros [w2 t q0 F T Hq Hq0 Hc He | r2 w2 Hr Q].
  - repeat split; auto.
    rewrite T, !enqueued_app, (enqueued_io t F). reflexivity.
  - destruct Q as [h c e (t & T & F)]. repeat split; auto.
    rewrite T, enqueued_app, (enqueued_io t F).
    destruct r2; [congruence| |]; reflexivity.
Qed.

Lemma append_result_pre cmd w0 w r w' :
  quiet w0 w -> append_result cmd w r w' -> append_result cmd w0 r w'.
Proof.
  intros [h c e (t0 & T0 & F0)] [w2 t q0 F T Hq Hq0 Hc He | r2 w2 Hr Q].
  - apply append_done with (t := t0 ++ t) (q0 := q0).
    + apply Forall_app; auto.
    + rewrite T, T0, !app_assoc. reflexivity.
    + exact Hq.
    + rewrite <- h. exact Hq0.
    + congruence.
    + congruence.
  - apply append_failed; [exact Hr|].
    eapply quiet_trans; [|exact Q]. split; eauto.
Qed.

(** ** The command constructors *)

Lemma allocate_out_runs cmd size w :
  payload_out cmd = None ->
  runs (ulink_allocate_payload cmd size PAYLOAD_DIRECTION_OUT) w
    (fun rc w' =>
       quiet w w' /\
       (rc = (ERROR_OK,
              set_payload_out (Some (replicate (Z.to_nat size) 0)) (u8 size) cmd)
        \/ rc = (ERROR_FAIL, cmd))).
Proof.
  intros Hnull. unfold ulink_allocate_payload.
  call calloc_ok_runs. intros ok w1 Q1.
  destruct ok; simpl; [|step; auto].
  rewrite Hnull. step. auto.
Qed.

Lemma allocate_in_runs cmd size w :
  payload_in_start cmd = None ->
  runs (ulink_allocate_payload cmd size PAYLOAD_DIRECTION_IN) w
    (fun rc w' =>
       quiet w w' /\
       ((exists p, rc = (ERROR_OK,
                         set_free_payload_in_start true
                           (set_payload_in (Some p) (Some p) (u8 size) cmd)))
        \/ rc = (ERROR_FAIL, cmd))).
Proof.
  intros Hnull. unfold ulink_allocate_payload.
  call calloc_ok_runs. intros ok w1 Q1.
  destruct ok; simpl; [|step; auto].
  rewrite Hnull. call new_block_runs. intros p w2 Q2.
  step. split; [exact (quiet_trans _ _ _ Q1 Q2)|]. left. eauto.
Qed.

(** The shape shared by the constructors of two-byte commands. *)
Lemma two_byte_constructor_runs (i : cmd_id) (b0 b1 : Z) w :
  runs
    (let* ok := calloc_ok in
     if negb ok then ret ERROR_FAIL
     else
       let cmd := set_id i zeroed_cmd in
       let* rc := ulink_allocate_payload cmd 2 PAYLOAD_DIRECTION_OUT in
       let '(r, cmd) := rc in
       if negb (is_ok r) then ret r
       else
         let cmd := set_out 0 b0 cmd in
         let cmd := set_out 1 b1 cmd in
         ulink_append_queue cmd)
    w (append_result (two_byte_cmd i b0 b1) w).
Proof.
  call calloc_ok_runs. intros ok w1 Q1.
  destruct ok; simpl; [|step; apply append_failed; [discriminate | exact Q1]].
  call allocate_out_runs; [reflexivity|]. intros rc w2 [Q2 Hrc].
  pose proof (quiet_trans _ _ _ Q1 Q2) as Q12.
  destruct Hrc as [-> | ->]; simpl.
  - eapply runs_weaken; [apply append_queue_runs|].
    intros r w3 Hres. exact (append_result_pre _ _ _ _ _ Q12 Hres).
  - step. apply append_failed; [discriminate | exact Q12].
Qed.

Lemma append_clock_tms_runs count sequence w :
  runs (ulink_append_clock_tms_cmd count sequence) w
       (append_result (two_byte_cmd CMD_CLOCK_TMS count sequence) w).
Proof. apply two_byte_constructor_runs. Qed.

Lemma append_clock_tck_runs count w :
  runs (ulink_append_clock_tck_cmd count) w
       (append_result (two_byte_cmd CMD_CLOCK_TCK (Z.land count 255)
                         (Z.land (Z.shiftr count 8) 255)) w).
Proof. apply two_byte_constructor_runs. Qed.

Lemma append_set_signals_runs low high w :
  runs (ulink_append_set_signals_cmd low high) w
       (append_result (two_byte_cmd CMD_SET_SIGNALS low high) w).
Proof. apply two_byte_constructor_runs. Qed.

Lemma append_sleep_runs us w :
  runs (ulink_append_sleep_cmd us) w
       (append_result (two_byte_cmd CMD_SLEEP_US (Z.land us 255)
                         (Z.land (Z.shiftr us 8) 255)) w).
Proof. apply two_byte_constructor_runs. Qed.

Lemma append_result_trace cmd w r w' :
  append_result cmd w r w' ->
  exists t, trace w' = trace w ++ t /\
            (forall d, ~ In (EvUsleep d) t) /\
            enqueued t = (if is_ok r then [cmd] else []).
Proof.
  assert (forall t, Forall io_event t -> forall d, ~ In (EvUsleep d) t) as Hio.
  { intros t F d Hin. rewrite Forall_forall in F.
    rewrite <- list_elem_of_In in Hin. exact (F _ Hin). }
  intros [w2 t q0 F T Hq Hq0 Hc He | r2 w2 Hr Q].
  - exists (t ++ [EvEnqueue cmd]). split; [exact T|]. split.
    + intros d Hin. apply in_app_or in Hin. destruct Hin as [Hin | Hin].
      * exact (Hio t F d Hin).
      * destruct Hin as [Hin | []]. discriminate.
    + rewrite enqueued_app, (enqueued_io t F). reflexivity.
  - destruct Q as [h c e (t & T & F)]. exists t. split; [exact T|]. split.
    + exact (Hio t F).
    + rewrite (enqueued_io t F). destruct r2; [congruence| |]; reflexivity.
Qed.

Lemma append_result_queue cmd w w' :
  append_result cmd w ERROR_OK w' ->
  exists q0, queue (ulink_handle w') = q0 ++ [cmd] /\
             (q0 = queue (ulink_handle w) \/ q0 = []).
Proof.
  inversion 1 as [w2 t q0 F T Hq Hq0 Hc He | r2 w2 Hr Q]; [|congruence].
  exists q0. split; [exact Hq|]. destruct Hq0 as [[-> _] | [-> _]]; auto.
Qed.

(** ** TLR reset *)

Lemma tlr_reset_runs w :
  runs ulink_queue_tlr_reset w (fun r w' =>
    exists w1, append_result (two_byte_cmd CMD_CLOCK_TMS 5 255) w r w1 /\
               w' = (if is_ok r then with_cur_state TAP_RESET w1 else w1)).
Proof.
  unfold ulink_queue_tlr_reset.
  call append_clock_tms_runs. intros r w1 Hres.
  destruct r; simpl; unfold tap_set_state; step; step; step; eauto.
Qed.

(** C7. A TLR reset request that succeeds appends exactly one clock-tms
    command with count 5 and sequence 0xFF to the batch, and leaves the TAP
    follower's current state at Reset. *)
Theorem tlr_reset_emits_clock_tms w w' :
  ulink_queue_tlr_reset w = Done ERROR_OK w' ->
  exists c,
    id c = CMD_CLOCK_TMS /\ payload_out c = Some [5; 255] /\
    payload_out_size c = 2 /\ payload_in_size c = 0 /\
    enqueued (trace w') = enqueued (trace w) ++ [c] /\
    (exists q0, queue (ulink_handle w') = q0 ++ [c] /\
                (q0 = queue (ulink_handle w) \/ q0 = [])) /\
    cur_state w' = TAP_RESET.
Proof.
  intros Hrun.
  pose proof (runs_det _ _ _ _ _ (tlr_reset_runs w) Hrun) as (w1 & Hres & ->).
  exists (two_byte_cmd CMD_CLOCK_TMS 5 255).
  destruct (append_result_enqueued _ _ _ _ Hres) as (Henq & _ & _).
  destruct (append_result_queue _ _ _ Hres) as (q0 & Hq & Hq0).
  simpl. repeat split; auto. exists q0. auto.
Qed.

(** ** Sleep *)

Lemma land_255 x : Z.land x 255 = x mod 256.
Proof. change 255 with (Z.ones 8). rewrite Z.land_ones by lia. reflexivity. Qed.

Lemma u8_mod x : u8 (x mod 256) = x mod 256.
Proof. unfold u8. apply Z.mod_mod. lia. Qed.

Lemma sleep_payload us :
  0 <= us < 4294967296 ->
  two_byte_cmd CMD_SLEEP_US (Z.land (u32 us) 255)
               (Z.land (Z.shiftr (u32 us) 8) 255)
  = {| id := CMD_SLEEP_US;
       payload_out := Some [us mod 256; (us / 256) mod 256];
       payload_out_size := 2;
       payload_in_start := None; payload_in := None; payload_in_size := 0;
       needs_postprocessing := false; free_payload_in_start := false;
       cmd_origin := None |}.
Proof.
  intros Hus. unfold two_byte_cmd, u32.
  rewrite (Z.mod_small us) by lia.
  rewrite !land_255, !u8_mod, Z.shiftr_div_pow2 by lia.
  reflexivity.
Qed.

(** ** Line reset *)

(** C10. A reset request that asserts TRST sets the TAP follower's current
    state to Reset before it attempts to append the set-signals command, and
    the state is Reset when the call returns, with success or with an error
    from the append. *)
Theorem reset_trst_sets_follower trst srst w :
  trst <> 0 ->
  exists low high r w',
    ulink_queue_reset trst srst w
    = ulink_append_set_signals_cmd low high (with_cur_state TAP_RESET w) /\
    ulink_queue_reset trst srst w = Done r w' /\
    append_result (two_byte_cmd CMD_SET_SIGNALS low high)
                  (with_cur_state TAP_RESET w) r w' /\
    cur_state w' = TAP_RESET.
Proof.
  intros Htrst. unfold ulink_queue_reset.
  assert (negb (trst =? 0) = true) as ->.
  { apply negb_true_iff. apply Z.eqb_neq. exact Htrst. }
  unfold bind at 1. unfold bind at 1. unfold tap_set_state, modify, ret.
  destruct (negb (srst =? 0));
    match goal with
    | |- context [ulink_append_set_signals_cmd ?l ?h (with_cur_state TAP_RESET w)] =>
        destruct (append_set_signals_runs l h (with_cur_state TAP_RESET w))
          as (r & w' & Hrun & Hres);
        exists l, h, r, w'
    end;
    (repeat split; auto;
     destruct (append_result_enqueued _ _ _ _ Hres) as (_ & Hc & _);
     rewrite Hc; reflexivity).
Qed.

(** ** End state *)

(** C5 (as the code has it). For a TAP state that is not stable,
    [ulink_set_end_state] hands nothing back to its caller: it terminates the
    process with [EXIT_FAILURE], the end-state follower being as it was.  For a
    stable state it updates the desired end state. *)
Theorem set_end_state_exits s w :
  (tap_is_state_stable s = false ->
   ulink_set_end_state s w = Exited EXIT_FAILURE w) /\
  (tap_is_state_stable s = true ->
   exists w', ulink_set_end_state s w = Done tt w' /\
              end_state_follower w' = s /\ cur_state w' = cur_state w /\
              ulink_handle w' = ulink_handle w).
Proof.
  unfold ulink_set_end_state. split; intros ->.
  - reflexivity.
  - eexists. split; [reflexivity|]. auto.
Qed.

(** ** Speed *)

(** C9. [ulink_speed_div] writes 150 for index 0 and 100 for index 1 and
    leaves [*khz] as it was for every other index; it always returns
    [ERROR_OK]. *)
Theorem speed_div_table khz :
  ulink_speed_div 0 khz = (ERROR_OK, 150) /\
  ulink_speed_div 1 khz = (ERROR_OK, 100) /\
  (forall speed, speed <> 0 -> speed <> 1 ->
                 ulink_speed_div speed khz = (ERROR_OK, khz)).
Proof.
  repeat split. intros speed H0 H1. unfold ulink_speed_div.
  destruct (Z.eqb_spec speed 0); [contradiction|].
  destruct (Z.eqb_spec speed 1); [contradiction|]. reflexivity.
Qed.

(** ** The batch invariant *)

Lemma reachable_bounds w :
  reachable w ->
  out_bytes (queue (ulink_handle w)) <= 64 /\
  in_bytes (queue (ulink_handle w)) <= 64.
Proof.
  induction 1 as [w Hq | w cmd r w' Hreach IH Hout Hin Hrun].
  - rewrite Hq. simpl. lia.
  - pose proof (runs_det _ _ _ _ _ (append_queue_runs cmd w) Hrun) as Hres.
    destruct Hres as [w2 t q0 F T Hq Hq0 Hc He | r2 w2 Hr Q].
    + rewrite Hq, out_bytes_app, in_bytes_app. simpl.
      destruct Hq0 as [[-> [Ho Hi]] | [-> _]]; simpl; lia.
    + destruct Q as [h _ _ _]. rewrite h. exact IH.
Qed.

(** What [ulink_append_queue] does with a command that does not fit. *)
Lemma append_queue_overflow cmd w r w' :
  ~ fits cmd (queue (ulink_handle w)) ->
  ulink_append_queue cmd w = Done r w' ->
  (r = ERROR_OK /\
   exists w1 w2 w3,
     ulink_execute_queued_commands USB_TIMEOUT w = Done ERROR_OK w1 /\
     ulink_post_process_queue w1 = Done ERROR_OK w2 /\
     ulink_clear_queue w2 = Done tt w3 /\
     queue (ulink_handle w3) = [] /\
     link_cmd cmd w3 = Done tt w' /\
     queue (ulink_handle w') = [cmd])
  \/
  (r <> ERROR_OK /\ ulink_handle w' = ulink_handle w /\
   (ulink_execute_queued_commands USB_TIMEOUT w = Done r w' \/
    exists w1,
      ulink_execute_queued_commands USB_TIMEOUT w = Done ERROR_OK w1 /\
      ulink_post_process_queue w1 = Done r w')).
Proof.
  intros Hno Hrun. unfold ulink_append_queue in Hrun.
  unfold bind at 1 in Hrun. unfold get at 1 in Hrun.
  pose proof (fits_dec cmd (ulink_handle w)) as Hfit.
  destruct (_ || _).
  2:{ exfalso. apply Hno, Hfit. reflexivity. }
  destruct (execute_runs USB_TIMEOUT w) as (r1 & w1 & E1 & Q1).
  unfold bind at 1 in Hrun. unfold bind at 1 in Hrun. rewrite E1 in Hrun.
  destruct r1; simpl in Hrun.
  2,3: unfold ret in Hrun; injection Hrun as <- <-; right;
       (split; [discriminate|]); (split; [apply Q1 | left; exact E1]).
  destruct (post_process_runs w1) as (r2 & w2 & E2 & Q2).
  unfold bind at 1 in Hrun. rewrite E2 in Hrun.
  destruct r2; simpl in Hrun.
  2,3: unfold ret in Hrun; injection Hrun as <- <-; right;
       (split; [discriminate|]);
       (split; [destruct Q1 as [h1 _ _ _], Q2 as [h2 _ _ _]; congruence
               | right; exists w1; auto]).
  destruct (clear_queue_runs w2) as ([] & w3 & E3 & C3).
  unfold bind at 1 in Hrun. rewrite E3 in Hrun. simpl in Hrun.
  destruct (link_cmd_runs cmd w3) as ([] & w4 & E4 & _ & Hq & _).
  unfold bind at 1 in Hrun. rewrite E4 in Hrun.
  unfold ret in Hrun. injection Hrun as <- <-.
  left. split; [reflexivity|].
  assert (queue (ulink_handle w3) = []) as Hempty.
  { destruct C3 as [h _ _ _]. rewrite h. reflexivity. }
  exists w1, w2, w3. repeat split; auto.
  rewrite Hq, Hempty. reflexivity.
Qed.

(** C1. In every world reached by appending commands ([payload_out_size <= 63],
    [payload_in_size <= 64]) through [ulink_append_queue], the queued commands
    sum to at most 64 bytes per direction, [payload_out_size + 1] each in the
    OUT direction; this sum is what [ulink_get_queue_size] returns.  Appending
    a command that would break a bound first executes, post-processes and
    clears the queue and then starts a new queue with that command; when the
    execution or the post-processing fails, the append returns the error and
    the queue stays as it was. *)
Theorem queue_within_packet w :
  reachable w ->
  let q := queue (ulink_handle w) in
  (foldr (fun c s => (payload_out_size c + 1) + s) 0 q <= 64 /\
   foldr (fun c s => payload_in_size c + s) 0 q <= 64 /\
   ulink_get_queue_size (ulink_handle w) PAYLOAD_DIRECTION_OUT <= 64 /\
   ulink_get_queue_size (ulink_handle w) PAYLOAD_DIRECTION_IN <= 64) /\
  (forall cmd r w',
     64 < ulink_get_queue_size (ulink_handle w) PAYLOAD_DIRECTION_OUT
          + 1 + payload_out_size cmd \/
     64 < ulink_get_queue_size (ulink_handle w) PAYLOAD_DIRECTION_IN
          + payload_in_size cmd ->
     ulink_append_queue cmd w = Done r w' ->
     (r = ERROR_OK /\
      exists w1 w2 w3,
        ulink_execute_queued_commands USB_TIMEOUT w = Done ERROR_OK w1 /\
        ulink_post_process_queue w1 = Done ERROR_OK w2 /\
        ulink_clear_queue w2 = Done tt w3 /\
        queue (ulink_handle w3) = [] /\
        link_cmd cmd w3 = Done tt w' /\
        queue (ulink_handle w') = [cmd])
     \/
     (r <> ERROR_OK /\ ulink_handle w' = ulink_handle w /\
      (ulink_execute_queued_commands USB_TIMEOUT w = Done r w' \/
       exists w1,
         ulink_execute_queued_commands USB_TIMEOUT w = Done ERROR_OK w1 /\
         ulink_post_process_queue w1 = Done r w'))).
Proof.
  intros Hreach q. split.
  - destruct (reachable_bounds w Hreach) as [Ho Hi].
    rewrite get_queue_size_out, get_queue_size_in. auto.
  - intros cmd r w' Hover. apply append_queue_overflow.
    rewrite get_queue_size_out, get_queue_size_in in Hover.
    unfold fits. lia.
Qed.

(** ** The driver entry point *)

Lemma translate_from_app done rest w :
  translate_from (done ++ rest) w =
  match translate_from done w with
  | Done ERROR_OK w1 => translate_from rest w1
  | o => o
  end.
Proof.
  revert w. induction done as [|c done IH]; intros w; simpl.
  - reflexivity.
  - unfold bind. destruct (dispatch c w) as [r w1|]; [|reflexivity].
    destruct r; simpl; auto.
Qed.

(** C4 (as the code has it). When a translator returns a non-OK result,
    [ulink_execute_queue] processes no further request and returns that
    result; when the final execution or post-processing of the queue fails it
    returns that error.  In both cases the command queue is not cleared: the
    world is the one the failing call left behind, and after a failed final
    flush the queue still holds its commands. *)
Theorem execute_queue_fail_fast :
  (forall done c rest w w1 r w2,
     translate_from done w = Done ERROR_OK w1 ->
     dispatch c w1 = Done r w2 ->
     r <> ERROR_OK ->
     ulink_execute_queue (done ++ c :: rest) w = Done r w2) /\
  (forall reqs w w1 r w2,
     translate_from reqs w = Done ERROR_OK w1 ->
     commands_in_queue (ulink_handle w1) > 0 ->
     flush w1 = Done r w2 ->
     r <> ERROR_OK ->
     ulink_execute_queue reqs w = Done r w2 /\
     ulink_handle w2 = ulink_handle w1).
Proof.
  split.
  - intros done c rest w w1 r w2 Hdone Hc Hr.
    unfold ulink_execute_queue. unfold bind at 1.
    rewrite translate_from_app, Hdone. simpl.
    unfold bind at 1. rewrite Hc.
    destruct r; [congruence| |]; reflexivity.
  - intros reqs w w1 r w2 Hdone Hn Hflush Hr.
    split.
    + unfold ulink_execute_queue. unfold bind at 1. rewrite Hdone. simpl.
      unfold bind at 1. unfold get at 1.
      destruct (Z.gtb_spec (commands_in_queue (ulink_handle w1)) 0); [|lia].
      exact Hflush.
    + pose proof (runs_det _ _ _ _ _ (flush_runs w1) Hflush) as [[-> _] | [_ Q]].
      * congruence.
      * apply Q.
Qed.

End Driver.

(** ** Concrete runs *)

(** C5, the claim as stated fails: asked for the unstable state Exit1-DR the
    function does not return to its caller at all. *)
Lemma set_end_state_does_not_return :
  ~ exists (e : unit) w',
      @ulink_set_end_state sample_externals TAP_DREXIT1 idle_world = Done e w'.
Proof. intros (e & w' & H). discriminate H. Qed.

Lemma set_end_state_exits_witness :
  @ulink_set_end_state sample_externals TAP_DREXIT1 idle_world
  = Exited EXIT_FAILURE idle_world.
Proof.
  apply (proj1 (@set_end_state_exits sample_externals TAP_DREXIT1 idle_world)).
  reflexivity.
Defined.

Lemma speed_div_table_witness : ulink_speed_div 2 77 = (ERROR_OK, 77).
Proof.
  apply (proj2 (proj2 (speed_div_table 77)) 2); lia.
Defined.

Lemma tlr_reset_emits_clock_tms_witness :
  exists c w',
    @ulink_queue_tlr_reset sample_externals idle_world = Done ERROR_OK w' /\
    payload_out c = Some [5; 255] /\
    enqueued (trace w') = [c] /\ cur_state w' = TAP_RESET.
Proof.
  pose (w' := world_of (@ulink_queue_tlr_reset sample_externals idle_world)).
  assert (@ulink_queue_tlr_reset sample_externals idle_world = Done ERROR_OK w')
    as Hrun by (vm_compute; reflexivity).
  destruct (@tlr_reset_emits_clock_tms sample_externals idle_world w' Hrun)
    as (c & _ & Hp & _ & _ & Henq & _ & Hcur).
  exists c, w'. auto.
Defined.

Lemma reset_trst_sets_follower_witness :
  exists r w',
    @ulink_queue_reset sample_externals 1 0 idle_world = Done r w' /\
    cur_state w' = TAP_RESET.
Proof.
  destruct (@reset_trst_sets_follower sample_externals 1 0 idle_world)
    as (low & high & r & w' & _ & Hrun & _ & Hcur); [lia|].
  exists r, w'. auto.
Defined.

(** ** The USB exchange *)

Section Exchange.

Context `{Ext : Externals}.

Lemma wr_app pre x rest v idx :
  length pre = Z.to_nat idx -> 0 <= idx ->
  wr (pre ++ x :: rest) idx v = pre ++ v :: rest.
Proof.
  intros Hlen Hidx. unfold wr.
  destruct (Z.ltb_spec idx 0); [lia|].
  rewrite <- Hlen. rewrite insert_app_r_alt by lia.
  rewrite Nat.sub_diag. reflexivity.
Qed.

Lemma copy_payload_out_app steps : forall i l pre rest index_out,
  0 <= i -> 0 <= index_out ->
  length pre = Z.to_nat (index_out + i) ->
  (steps <= length rest)%nat ->
  (Z.to_nat i + steps <= length l)%nat ->
  copy_payload_out steps i (Some l) index_out (pre ++ rest)
  = pre ++ take steps (drop (Z.to_nat i) l) ++ drop steps rest.
Proof.
  induction steps as [|steps IH]; intros i l pre rest index_out Hi Hidx Hpre Hrest Hl.
  - simpl. rewrite drop_0. reflexivity.
  - destruct rest as [|x rest]; [simpl in Hrest; lia|].
    cbn [copy_payload_out].
    rewrite wr_app by (auto; lia).
    destruct (lookup_lt_is_Some_2 l (Z.to_nat i)) as [b Hb]; [lia|].
    assert (rd_payload (Some l) i = b) as ->.
    { unfold rd_payload, rd. destruct (Z.ltb_spec i 0); [lia|].
      rewrite nth_lookup, Hb. reflexivity. }
    change (pre ++ b :: rest) with (pre ++ [b] ++ rest).
    rewrite app_assoc.
    rewrite IH; simpl in Hrest; try lia.
    + rewrite (drop_S l b (Z.to_nat i) Hb). simpl.
      rewrite <- app_assoc. simpl.
      replace (Z.to_nat (i + 1)) with (S (Z.to_nat i)) by lia. reflexivity.
    + rewrite length_app. simpl. lia.
Qed.

Lemma pack_from_app q : forall p pre rest,
  Forall well_formed q ->
  buffer p = pre ++ rest ->
  0 <= index_out p ->
  length pre = Z.to_nat (index_out p) ->
  out_bytes q <= Z.of_nat (length rest) ->
  pack_from q p =
  {| buffer := pre ++ packet_bytes q ++ drop (Z.to_nat (out_bytes q)) rest;
     index_out := index_out p + out_bytes q;
     count_out := count_out p + out_bytes q;
     count_in := count_in p + in_bytes q |}.
Proof.
  induction q as [|c q IH]; intros p pre rest Hwf Hbuf Hidx Hpre Hrest.
  - simpl. rewrite drop_0, <- Hbuf, !Z.add_0_r. destruct p; reflexivity.
  - inversion Hwf as [|c' q' [Hsize Hin] Hwfq]; subst c' q'.
    assert (0 <= out_bytes q) as Hq0.
    { clear -Hwfq. induction Hwfq as [|c q [Hs _] _ IHq]; simpl; lia. }
    simpl in Hrest.
    destruct rest as [|x rest]; [simpl in Hrest; lia|].
    cbn [pack_from]. rewrite Hbuf.
    rewrite wr_app by auto.
    set (payload := default [] (payload_out c)) in *.
    assert (copy_payload_out (Z.to_nat (payload_out_size c)) 0 (payload_out c)
              (index_out p + 1) ((pre ++ [cmd_id_byte (id c)]) ++ rest)
            = (pre ++ [cmd_id_byte (id c)]) ++ payload
              ++ drop (length payload) rest) as Hcopy.
    { rewrite Hsize, Nat2Z.id.
      destruct (payload_out c) as [l|] eqn:El.
      - subst payload. simpl default.
        rewrite copy_payload_out_app; simpl in *; try lia.
        + rewrite drop_0, firstn_all. reflexivity.
        + rewrite length_app. simpl. lia.
      - subst payload. simpl. rewrite drop_0. reflexivity. }
    change (pre ++ cmd_id_byte (id c) :: rest)
      with (pre ++ [cmd_id_byte (id c)] ++ rest).
    rewrite app_assoc, Hcopy.
    erewrite IH; [| exact Hwfq | simpl; rewrite app_assoc; reflexivity
                  | simpl; lia
                  | cbn [index_out]; rewrite !length_app; simpl; lia
                  | rewrite length_drop; simpl in *; lia ].
    cbn [index_out count_out count_in buffer].
    f_equal; simpl; try lia.
    fold payload.
    replace (Z.to_nat (payload_out_size c + 1 + out_bytes q))
      with (S (length payload + Z.to_nat (out_bytes q))) by lia.
    cbn [drop]. rewrite drop_drop, <- !app_assoc. reflexivity.
Qed.

Lemma packet_bytes_length q :
  Forall well_formed q -> Z.of_nat (length (packet_bytes q)) = out_bytes q.
Proof.
  induction 1 as [|c q [Hs _] _ IH]; [reflexivity|].
  unfold packet_bytes in *. cbn [map concat].
  rewrite length_app, Nat2Z.inj_add, IH.
  unfold wire_bytes. simpl. lia.
Qed.

(** The packet the first loop builds holds the commands in queue order. *)
Lemma pack_from_fresh q :
  Forall well_formed q -> out_bytes q <= 64 ->
  let p := pack_from q {| buffer := fresh_buffer; index_out := 0;
                          count_out := 0; count_in := 0 |} in
  take (Z.to_nat (count_out p)) (buffer p) = packet_bytes q /\
  count_out p = out_bytes q /\ count_in p = in_bytes q /\
  length (buffer p) = 64%nat.
Proof.
  intros Hwf Hle.
  pose proof (packet_bytes_length q Hwf) as Hlen.
  rewrite (pack_from_app q _ [] fresh_buffer); auto; simpl; try lia.
  repeat split.
  - rewrite take_app_length'; [reflexivity | lia].
  - rewrite length_app, length_drop. change (length fresh_buffer) with 64%nat. lia.
Qed.

Lemma write_back_cmd_spec steps : forall i p buf index_in h,
  0 <= index_in ->
  (Z.to_nat index_in + steps <= length buf)%nat ->
  write_back_cmd steps i p buf index_in h
  = (store_bytes p i (take steps (drop (Z.to_nat index_in) buf)) h,
     index_in + Z.of_nat steps).
Proof.
  induction steps as [|steps IH]; intros i p buf index_in h Hidx Hlen.
  - simpl. rewrite Z.add_0_r. reflexivity.
  - cbn [write_back_cmd]. rewrite IH by lia.
    destruct (lookup_lt_is_Some_2 buf (Z.to_nat index_in)) as [b Hb]; [lia|].
    rewrite (drop_S buf b _ Hb). simpl.
    assert (rd buf index_in = b) as ->.
    { unfold rd. destruct (Z.ltb_spec index_in 0); [lia|].
      rewrite nth_lookup, Hb. reflexivity. }
    replace (Z.to_nat (index_in + 1)) with (S (Z.to_nat index_in)) by lia.
    f_equal. lia.
Qed.

Lemma write_back_from_spec q : forall buf index_in h,
  Forall well_formed q ->
  0 <= index_in ->
  index_in + in_bytes q <= Z.of_nat (length buf) ->
  write_back_from q buf index_in h
  = scatter q (drop (Z.to_nat index_in) buf) h.
Proof.
  induction q as [|c q IH]; intros buf index_in h Hwf Hidx Hlen; [reflexivity|].
  inversion Hwf as [|c' q' [_ Hin] Hwfq]; subst c' q'.
  assert (0 <= in_bytes q) as Hq0.
  { clear -Hwfq. induction Hwfq as [|c q [_ Hs] _ IHq]; simpl; lia. }
  simpl in Hlen. cbn [write_back_from].
  rewrite write_back_cmd_spec by lia.
  rewrite IH by (auto; lia).
  simpl scatter. rewrite drop_drop. f_equal. f_equal. lia.
Qed.

Lemma in_bytes_nonneg q : Forall well_formed q -> 0 <= in_bytes q.
Proof. induction 1 as [|c q [_ Hs] _ IH]; simpl; lia. Qed.

Lemma scatter_app q : forall l extra h,
  Forall well_formed q ->
  in_bytes q <= Z.of_nat (length l) ->
  scatter q (l ++ extra) h = scatter q l h.
Proof.
  induction q as [|c q IH]; intros l extra h Hwf Hlen; [reflexivity|].
  inversion Hwf as [|c' q' [_ Hin] Hwfq]; subst c' q'.
  pose proof (in_bytes_nonneg q Hwfq) as Hq0.
  simpl in Hlen. cbn [scatter].
  rewrite take_app_le, drop_app_le by lia.
  apply IH; [exact Hwfq|]. rewrite length_drop. lia.
Qed.

(** C6 (as the code has it). For a queue within the packet bounds,
    [ulink_execute_queued_commands] sends one bulk OUT transfer of exactly
    [count_out] bytes holding the commands in queue order, each as its id
    followed by its OUT payload.  After a complete write it issues a bulk IN
    read if and only if [count_in] is positive, and that read asks for 64
    bytes, the whole buffer, not for [count_in].  It returns [ERROR_FAIL] when
    the write or the read transfers another number of bytes than [count_out]
    or [count_in]; on success the received bytes are dealt out to the commands
    in queue order, [payload_in_size] bytes into each view. *)
Theorem execute_exchange timeout w :
  let q := queue (ulink_handle w) in
  let count_out := out_bytes q in
  let count_in := in_bytes q in
  Forall well_formed q -> count_out <= 64 -> count_in <= 64 ->
  exists r w' t,
    ulink_execute_queued_commands timeout w = Done r w' /\
    trace w' = trace w ++ t /\
    let sent := EvBulkWrite (packet_bytes q) count_out timeout in
    if fst (pop count_out (bulk_write_tape w)) =? count_out then
      if count_in >? 0 then
        t = [sent; EvBulkRead 64 timeout] /\
        match fst (pop (ReadData []) (bulk_read_tape w)) with
        | ReadData data =>
            if Z.of_nat (length (take 64 data)) =? count_in
            then r = ERROR_OK /\ heap w' = scatter q (take 64 data) (heap w)
            else r = ERROR_FAIL /\ heap w' = heap w
        | ReadError _ => r = ERROR_FAIL /\ heap w' = heap w
        end
      else t = [sent] /\ r = ERROR_OK /\ heap w' = heap w
    else t = [sent] /\ r = ERROR_FAIL /\ heap w' = heap w.
Proof.
  intros q count_out count_in Hwf Hout Hin.
  destruct (pack_from_fresh q Hwf Hout) as (Htake & Hco & Hci & Hlen).
  pose proof (in_bytes_nonneg q Hwf) as Hin0.
  assert (0 <= out_bytes q) as Hout0.
  { rewrite <- (packet_bytes_length q Hwf). lia. }
  unfold ulink_execute_queued_commands.
  unfold bind at 1. unfold get at 1. fold q. cbv zeta.
  set (p := pack_from q _) in *.
  unfold bind at 1. unfold usb_bulk_write.
  rewrite Htake, Hco. fold count_out.
  destruct (pop count_out (bulk_write_tape w)) as [wret wtape]. cbn [fst].
  destruct (Z.ltb_spec wret 0) as [Hneg | Hnneg].
  { destruct (Z.eqb_spec wret count_out); [subst count_out; lia|].
    eexists _, _, _. split; [reflexivity|]. simpl. auto. }
  destruct (Z.eqb_spec wret count_out) as [-> | Hne]; cbn [negb].
  2:{ eexists _, _, _. split; [reflexivity|]. simpl. auto. }
  rewrite Hci. fold count_in.
  destruct (count_in >? 0) eqn:Epos.
  2:{ eexists _, _, _. split; [reflexivity|]. simpl. auto. }
  unfold bind at 1. unfold usb_bulk_read. cbn [bulk_read_tape log with_bulk_write_tape].
  destruct (pop (ReadData []) (bulk_read_tape w)) as [[errno | data] rtape];
    cbn [fst].
  { eexists _, _, _. split; [reflexivity|]. simpl.
    rewrite <- app_assoc. auto. }
  change (Z.to_nat 64) with 64%nat.
  set (received := take 64 data).
  destruct (Z.ltb_spec (Z.of_nat (length received)) 0); [lia|].
  destruct (Z.eqb_spec (Z.of_nat (length received)) count_in) as [Hall | Hshort];
    cbn [negb].
  2:{ eexists _, _, _. split; [reflexivity|]. simpl.
      rewrite <- app_assoc. auto. }
  eexists _, _, _. split; [reflexivity|]. simpl.
  rewrite <- app_assoc. repeat split.
  rewrite write_back_from_spec; [| exact Hwf | lia |].
  - rewrite drop_0. apply scatter_app; [exact Hwf | fold count_in; lia].
  - rewrite length_app. fold count_in. lia.
Qed.

End Exchange.

(** C6, the claim as stated fails: with one get-signals command queued the
    expected inbound size is 2, and the bulk IN read asks for 64 bytes; and
    when the bulk OUT write fails no read follows at all, although the
    expected inbound size is positive. *)
Lemma bulk_read_asks_for_whole_buffer :
  let w := world_of (@ulink_append_get_signals_cmd sample_externals idle_world) in
  let w' := world_of (@ulink_execute_queued_commands sample_externals USB_TIMEOUT w) in
  let w'' := world_of (@ulink_execute_queued_commands sample_externals USB_TIMEOUT
                         (with_bulk_write_tape [-1] w)) in
  in_bytes (queue (ulink_handle w)) = 2 /\
  (exists size, In (EvBulkRead size USB_TIMEOUT) (trace w') /\ size <> 2) /\
  (forall size timeout, ~ In (EvBulkRead size timeout) (trace w'')).
Proof.
  split; [reflexivity|]. split.
  - exists 64. split; [|lia].
    vm_compute. right. right. left. reflexivity.
  - intros size timeout. vm_compute.
    intros [H | [H | []]]; discriminate H.
Qed.

Lemma execute_exchange_witness :
  let w := with_bulk_read_tape [ReadData [7; 9]]
             (world_of (@ulink_append_get_signals_cmd sample_externals idle_world)) in
  exists w',
    @ulink_execute_queued_commands sample_externals USB_TIMEOUT w
    = Done ERROR_OK w' /\
    trace w' = trace w ++ [EvBulkWrite [12] 1 USB_TIMEOUT;
                           EvBulkRead 64 USB_TIMEOUT] /\
    load_from (Some {| blk := 0; ofs := 0 |}) (heap w') = [7; 9].
Proof.
  intros w.
  destruct (@execute_exchange sample_externals USB_TIMEOUT w)
    as (r & w' & t & Hrun & T & Hcases).
  - vm_compute. repeat constructor. discriminate.
  - vm_compute. discriminate.
  - vm_compute. discriminate.
  - vm_compute in Hcases. destruct Hcases as (-> & -> & Hheap).
    exists w'. split; [exact Hrun|]. split; [exact T|].
    lazymatch type of Hheap with
    | _ = ?h => change (heap w' = h) in Hheap
    end.
    rewrite Hheap. vm_compute. reflexivity.
Defined.

(** ** Scans *)

Section Scan.

Context `{Ext : Externals}.

Lemma append_scan_cmd_runs t bits tdi tdo_start tdo tcs tss tce tse origin pp w :
  runs (ulink_append_scan_cmd t bits tdi tdo_start tdo tcs tss tce tse origin pp)
       w (fun r w' =>
            append_result
              (scan_cmd t bits tdi tdo_start tdo tcs tss tce tse origin pp)
              w r w' /\
            (r = ERROR_OK -> t <> SCAN_UNKNOWN /\ bits <= 58 * 8)).
Proof.
  unfold ulink_append_scan_cmd.
  call calloc_ok_runs. intros ok w1 Q1.
  destruct ok; simpl negb; cbv iota;
    [|step; split; [apply append_failed; [discriminate | exact Q1] | discriminate]].
  cbv zeta.
  destruct (Z.gtb_spec bits (58 * 8)) as [Hbig | Hsmall];
    [step; split; [apply append_failed; [discriminate | exact Q1] | discriminate]|].
  apply runs_bind.
  destruct t.
  4:{ step. simpl. step. split; [|discriminate].
      apply append_failed; [discriminate | exact Q1]. }
  all: eapply runs_weaken; [apply allocate_out_runs; reflexivity|].
  all: intros rc w2 [Q2 Hrc]; cbv beta.
  all: pose proof (quiet_trans _ _ _ Q1 Q2) as Q12.
  all: destruct Hrc as [-> | ->]; cbv iota beta; simpl negb; cbv iota.
  all: try (step; split; [apply append_failed; [discriminate | exact Q12]
                         | discriminate]).
  all: eapply runs_weaken; [apply append_queue_runs|].
  all: intros r w3 Hres; split;
    [exact (append_result_pre _ _ _ _ _ Q12 Hres)
    | intros _; split; [discriminate | lia]].
Qed.

Lemma scan_loop_eq s bytecount tdi_buffer tdo_buffer :
  scan_loop s bytecount tdi_buffer tdo_buffer =
  if bytecount >? 0 then
    let tms_count_start :=
      if bytecount =? scan_size_bytes s
      then first_tms_count s else tms_count_resume s in
    let tms_sequence_start :=
      if bytecount =? scan_size_bytes s
      then first_tms_sequence s else tms_sequence_resume s in
    if bytecount >? 58 then
      let* r := ulink_append_scan_cmd (type s) (58 * 8) tdi_buffer
                  (tdo_buffer_start s) tdo_buffer
                  tms_count_start tms_sequence_start
                  (tms_count_pause s) (tms_sequence_pause s)
                  (origin s) false in
      if negb (is_ok r) then ret r
      else scan_loop s (bytecount - 58)
                     (advance_tdi tdi_buffer) (advance_tdo tdo_buffer)
    else if bytecount =? 58 then
      let* r := ulink_append_scan_cmd (type s) (58 * 8) tdi_buffer
                  (tdo_buffer_start s) tdo_buffer
                  tms_count_start tms_sequence_start
                  (last_tms_count s) (last_tms_sequence s)
                  (origin s) true in
      if negb (is_ok r) then ret r
      else scan_loop s 0 tdi_buffer tdo_buffer
    else
      let* r := ulink_append_scan_cmd (type s) (to_int (bits_last_scan s))
                  tdi_buffer (tdo_buffer_start s) tdo_buffer
                  tms_count_start tms_sequence_start
                  (last_tms_count s) (last_tms_sequence s)
                  (origin s) true in
      if negb (is_ok r) then ret r
      else scan_loop s 0 tdi_buffer tdo_buffer
  else ret ERROR_OK.
Proof.
  rewrite scan_loop_equation_1.
  destruct (Z_gt_dec bytecount 0) as [Hpos | Hnpos];
    destruct (Z.gtb_spec bytecount 0); try lia; reflexivity.
Qed.

Lemma header_set c v0 v1 v2 v3 v4 h0 h1 h2 h3 h4 rest :
  payload_out c = Some (h0 :: h1 :: h2 :: h3 :: h4 :: rest) ->
  set_out 4 v4 (set_out 3 v3 (set_out 2 v2 (set_out 1 v1 (set_out 0 v0 c))))
  = set_payload_out
      (Some (u8 v0 :: u8 v1 :: u8 v2 :: u8 v3 :: u8 v4 :: rest))
      (payload_out_size c) c.
Proof.
  intros Hc. unfold set_out at 5. rewrite Hc. reflexivity.
Qed.

Lemma copy_tdi_app steps : forall i l c pre rest,
  0 <= i ->
  payload_out c = Some (pre ++ rest) ->
  length pre = Z.to_nat (i + 5) ->
  (steps <= length rest)%nat ->
  (Z.to_nat i + steps <= length l)%nat ->
  copy_tdi steps i (Some l) c
  = set_payload_out
      (Some (pre ++ (u8 <$> take steps (drop (Z.to_nat i) l)) ++ drop steps rest))
      (payload_out_size c) c.
Proof.
  induction steps as [|steps IH]; intros i l c pre rest Hi Hc Hpre Hrest Hl.
  - simpl. rewrite drop_0, <- Hc. destruct c; reflexivity.
  - destruct rest as [|x rest]; [simpl in Hrest; lia|].
    destruct (lookup_lt_is_Some_2 l (Z.to_nat i)) as [b Hb]; [lia|].
    cbn [copy_tdi].
    assert (rd_payload (Some l) i = b) as ->.
    { unfold rd_payload, rd. destruct (Z.ltb_spec i 0); [lia|].
      rewrite nth_lookup, Hb. reflexivity. }
    assert (set_out (i + 5) b c
            = set_payload_out (Some ((pre ++ [u8 b]) ++ rest))
                              (payload_out_size c) c) as ->.
    { unfold set_out. rewrite Hc.
      destruct (Z.ltb_spec (i + 5) 0); [lia|].
      rewrite <- Hpre, insert_app_r_alt, Nat.sub_diag by lia.
      rewrite <- app_assoc. reflexivity. }
    rewrite (IH (i + 1) l _ (pre ++ [u8 b]) rest); simpl in Hrest; try lia.
    + rewrite (drop_S l b (Z.to_nat i) Hb).
      replace (Z.to_nat (i + 1)) with (S (Z.to_nat i)) by lia.
      cbn [take fmap list_fmap drop]. rewrite <- !app_assoc. reflexivity.
    + reflexivity.
    + rewrite length_app. simpl. lia.
Qed.

(** The fields of the command a scan chunk is sent as. *)
Lemma scan_cmd_shape t bits l tdi tdo_start tdo tcs tss tce tse origin pp :
  let bytes := DIV_ROUND_UP bits 8 in
  let bits_last_byte :=
    if u8 (Z.rem bits 8) =? 0 then 8 else u8 (Z.rem bits 8) in
  let c := scan_cmd t bits tdi tdo_start tdo tcs tss tce tse origin pp in
  0 <= bytes ->
  t <> SCAN_UNKNOWN ->
  tdi = (if scan_has_out t then Some l else None) ->
  (scan_has_out t = true -> (Z.to_nat bytes <= length l)%nat) ->
  payload_out c
  = Some ([u8 (Z.land bytes 255); u8 (Z.land bits_last_byte 255);
           u8 (Z.lor (Z.shiftl (Z.land tcs 15) 4) (Z.land tce 15));
           u8 tss; u8 tse]
          ++ (if scan_has_out t then u8 <$> take (Z.to_nat bytes) l else [])) /\
  payload_out_size c = u8 (if scan_has_out t then bytes + 5 else 5) /\
  payload_in_size c = (if scan_has_in t then u8 bytes else 0) /\
  needs_postprocessing c = pp /\
  free_payload_in_start c = pp.
Proof.
  intros bytes bits_last_byte c Hbytes Ht Htdi Hlen. subst c.
  unfold scan_cmd. fold bytes. cbv zeta. fold bits_last_byte.
  unfold fill_scan_cmd.
  destruct t; [| | |congruence]; cbn [scan_has_out scan_has_in] in *.
  - (* SCAN_IN: header only *)
    erewrite header_set by reflexivity. repeat split; reflexivity.
  - (* SCAN_OUT *)
    subst tdi. specialize (Hlen eq_refl).
    replace (Z.to_nat (bytes + 5)) with (5 + Z.to_nat bytes)%nat by lia.
    cbn [replicate Nat.add].
    erewrite header_set by reflexivity.
    erewrite (copy_tdi_app _ 0 l _ [_; _; _; _; _] (replicate (Z.to_nat bytes) 0));
      [| lia | reflexivity | reflexivity | rewrite length_replicate; lia | simpl; lia].
    rewrite drop_0, drop_replicate, Nat.sub_diag. simpl replicate.
    rewrite app_nil_r. repeat split; reflexivity.
  - (* SCAN_IO *)
    subst tdi. specialize (Hlen eq_refl).
    replace (Z.to_nat (bytes + 5)) with (5 + Z.to_nat bytes)%nat by lia.
    cbn [replicate Nat.add].
    erewrite header_set by reflexivity.
    erewrite (copy_tdi_app _ 0 l _ [_; _; _; _; _] (replicate (Z.to_nat bytes) 0));
      [| lia | reflexivity | reflexivity | rewrite length_replicate; lia | simpl; lia].
    rewrite drop_0, drop_replicate, Nat.sub_diag. simpl replicate.
    rewrite app_nil_r. repeat split; reflexivity.
Qed.

Lemma full_chunk_nonfinal t l tdi tdo_start tdo tcs tss tce tse origin :
  t <> SCAN_UNKNOWN ->
  tdi = (if scan_has_out t then Some l else None) ->
  (scan_has_out t = true -> (58 <= length l)%nat) ->
  nonfinal_chunk t l
    (scan_cmd t (58 * 8) tdi tdo_start tdo tcs tss tce tse origin false).
Proof.
  intros Ht Htdi Hlen.
  destruct (scan_cmd_shape t (58 * 8) l tdi tdo_start tdo tcs tss tce tse
              origin false) as (Hp & Hs & _ & Hpp & Hfree); auto.
  { vm_compute. discriminate. }
  change (DIV_ROUND_UP (58 * 8) 8) with 58 in *.
  change (Z.to_nat 58) with 58%nat in *.
  split; auto.
  - unfold header_byte. rewrite Hp. reflexivity.
  - unfold header_byte. rewrite Hp. reflexivity.
  - rewrite Hs. destruct (scan_has_out t); reflexivity.
  - unfold tdi_bytes. rewrite Hp. reflexivity.
  - assert (tdi_bytes (scan_cmd t (58 * 8) tdi tdo_start tdo tcs tss tce tse
                                origin false)
            = if scan_has_out t then u8 <$> take 58 l else []) as ->.
    { unfold tdi_bytes. rewrite Hp. reflexivity. }
    destruct (scan_has_out t); [|reflexivity].
    rewrite length_fmap, length_take. specialize (Hlen eq_refl). lia.
Qed.

(** The commands the loop of [ulink_queue_scan] emits when it runs to its
    end with [bytecount] bytes still to go and [tdi_l] the TDI data from there
    on. *)
Lemma scan_loop_chunks s : forall bytecount,
  0 <= bytecount ->
  forall tdi_l tdi tdo w w',
    tdi = (if scan_has_out (type s) then Some tdi_l else None) ->
    (scan_has_out (type s) = true -> Z.of_nat (length tdi_l) = bytecount) ->
    scan_loop s bytecount tdi tdo w = Done ERROR_OK w' ->
    exists cmds,
      enqueued (trace w') = enqueued (trace w) ++ cmds /\
      Z.of_nat (length cmds) = (bytecount + 57) / 58 /\
      (forall k c, cmds !! k = Some c -> (S k < length cmds)%nat ->
                   nonfinal_chunk (type s) (drop (58 * k) tdi_l) c).
Proof.
  intros bytecount Hpos.
  induction bytecount as [bytecount IH]
    using (well_founded_induction (Z.lt_wf 0)).
  intros tdi_l tdi tdo w w' Htdi Hlen Hrun.
  rewrite scan_loop_eq in Hrun.
  destruct (Z.gtb_spec bytecount 0) as [Hgt | Hle].
  2:{ (* the loop is over *)
      injection Hrun as <-. exists []. rewrite app_nil_r.
      assert (bytecount = 0) as -> by lia.
      split; [reflexivity|]. split; [reflexivity|].
      intros k c Hk. rewrite lookup_nil in Hk. discriminate. }
  cbv zeta in Hrun.
  destruct (Z.gtb_spec bytecount 58) as [Hfull | Hlast].
  - (* Full scan, at least one scan will follow *)
    apply bind_Done in Hrun. destruct Hrun as (r & w1 & Happ & Hrest).
    pose proof (runs_det _ _ _ _ _ (append_scan_cmd_runs _ _ _ _ _ _ _ _ _ _ _ w)
                  Happ) as [Hres Hok].
    destruct r; simpl in Hrest; try (unfold ret in Hrest; discriminate).
    destruct (Hok eq_refl) as [Ht _].
    destruct (append_result_enqueued _ _ _ _ Hres) as (Henq & _ & _).
    simpl in Henq.
    apply (IH (bytecount - 58)) with (tdi_l := drop 58 tdi_l) in Hrest; try lia.
    + destruct Hrest as (cmds & Henq' & Hcount & Hchunks).
      eexists (_ :: cmds). split; [|split].
      * rewrite Henq', Henq, <- app_assoc. reflexivity.
      * simpl length. rewrite Nat2Z.inj_succ, Hcount.
        replace (bytecount + 57) with (bytecount - 58 + 57 + 1 * 58) by lia.
        rewrite Z.div_add by lia. lia.
      * intros [|k] c Hk Hnext.
        -- injection Hk as <-. rewrite Nat.mul_0_r, drop_0.
           apply full_chunk_nonfinal; auto. intros Ho. specialize (Hlen Ho). lia.
        -- simpl in Hk, Hnext.
           replace (58 * S k)%nat with (58 + 58 * k)%nat by lia.
           rewrite <- drop_drop. apply Hchunks; [exact Hk | lia].
    + rewrite Htdi. destruct (scan_has_out (type s)); reflexivity.
    + intros Ho. rewrite length_drop. specialize (Hlen Ho). lia.
  - (* the last chunk: the loop is left with bytecount = 0 *)
    assert (exists bits pp,
      (let* r := ulink_append_scan_cmd (type s) bits tdi (tdo_buffer_start s) tdo
                   (if bytecount =? scan_size_bytes s
                    then first_tms_count s else tms_count_resume s)
                   (if bytecount =? scan_size_bytes s
                    then first_tms_sequence s else tms_sequence_resume s)
                   (last_tms_count s) (last_tms_sequence s) (origin s) pp in
       if negb (is_ok r) then ret r else scan_loop s 0 tdi tdo) w
      = Done ERROR_OK w') as (bits & pp & Hrun').
    { destruct (bytecount =? 58); eauto. }
    clear Hrun. apply bind_Done in Hrun'.
    destruct Hrun' as (r & w1 & Happ & Hrest).
    pose proof (runs_det _ _ _ _ _ (append_scan_cmd_runs _ _ _ _ _ _ _ _ _ _ _ w)
                  Happ) as [Hres _].
    destruct r; simpl in Hrest; try (unfold ret in Hrest; discriminate).
    destruct (append_result_enqueued _ _ _ _ Hres) as (Henq & _ & _).
    simpl in Henq.
    rewrite scan_loop_eq in Hrest. simpl in Hrest. injection Hrest as <-.
    eexists [_]. split; [exact Henq|]. split.
    + simpl length.
      replace (bytecount + 57) with (bytecount - 1 + 1 * 58) by lia.
      rewrite Z.div_add, Z.div_small by lia. lia.
    + intros k c Hk Hnext. simpl in Hnext. lia.
Qed.

(** Header byte 1 as [ulink_append_scan_cmd] computes it from the number of
    bits it is given. *)
Lemma last_byte_bits B :
  0 < B ->
  u8 (Z.land (if u8 (Z.rem B 8) =? 0 then 8 else u8 (Z.rem B 8)) 255)
  = (B - 1) mod 8 + 1.
Proof.
  intros HB. rewrite Z.rem_mod_nonneg by lia.
  unfold u8. rewrite land_255.
  rewrite (Z.mod_small (B mod 8) 256) by (Z.div_mod_to_equations; lia).
  destruct (Z.eqb_spec (B mod 8) 0) as [H0 | Hn0].
  - change (8 mod 256 mod 256) with 8. Z.div_mod_to_equations. lia.
  - rewrite Z.mod_mod by lia.
    rewrite Z.mod_small by (Z.div_mod_to_equations; lia).
    Z.div_mod_to_equations. lia.
Qed.

Lemma div_round_up_bits B m :
  8 * (m - 1) < B <= 8 * m -> 0 < m -> DIV_ROUND_UP B 8 = m.
Proof.
  intros HB Hm. unfold DIV_ROUND_UP. rewrite Z.quot_div_nonneg by lia.
  symmetry. apply Z.div_unique with (r := B + 8 - 1 - 8 * m); lia.
Qed.

(** The last command the loop of [ulink_queue_scan] emits.  When the bytes
    to go are a multiple of 58 the last command is sent as a full chunk of
    [58 * 8] bits, whatever number of bits the request has. *)
Lemma scan_loop_final s : forall bytecount,
  0 < bytecount ->
  forall tdi_l tdi tdo w w',
    tdi = (if scan_has_out (type s) then Some tdi_l else None) ->
    (scan_has_out (type s) = true -> Z.of_nat (length tdi_l) = bytecount) ->
    (bytecount mod 58 <> 0 ->
     8 * (bytecount mod 58 - 1) < to_int (bits_last_scan s)
     <= 8 * (bytecount mod 58)) ->
    scan_loop s bytecount tdi tdo w = Done ERROR_OK w' ->
    exists cmds c,
      enqueued (trace w') = enqueued (trace w) ++ cmds ++ [c] /\
      final_chunk (if bytecount mod 58 =? 0 then 8
                   else (to_int (bits_last_scan s) - 1) mod 8 + 1) c.
Proof.
  intros bytecount Hpos.
  induction bytecount as [bytecount IH]
    using (well_founded_induction (Z.lt_wf 0)).
  intros tdi_l tdi tdo w w' Htdi Hlen Hbits Hrun.
  rewrite scan_loop_eq in Hrun.
  destruct (Z.gtb_spec bytecount 0) as [_ | Hle]; [|lia].
  cbv zeta in Hrun.
  destruct (Z.gtb_spec bytecount 58) as [Hfull | Hlast].
  - (* Full scan, at least one scan will follow *)
    apply bind_Done in Hrun. destruct Hrun as (r & w1 & Happ & Hrest).
    pose proof (runs_det _ _ _ _ _ (append_scan_cmd_runs _ _ _ _ _ _ _ _ _ _ _ w)
                  Happ) as [Hres Hok].
    destruct r; simpl in Hrest; try (unfold ret in Hrest; discriminate).
    destruct (append_result_enqueued _ _ _ _ Hres) as (Henq & _ & _).
    simpl in Henq.
    assert ((bytecount - 58) mod 58 = bytecount mod 58) as Hmod.
    { replace (bytecount - 58) with (bytecount + (-1) * 58) by lia.
      apply Z.mod_add. lia. }
    apply (IH (bytecount - 58)) with (tdi_l := drop 58 tdi_l) in Hrest; try lia.
    + destruct Hrest as (cmds & c & Henq' & Hfin).
      eexists (_ :: cmds), c. split.
      * rewrite Henq', Henq, <- !app_assoc. reflexivity.
      * rewrite Hmod in Hfin. exact Hfin.
    + rewrite Htdi. destruct (scan_has_out (type s)); reflexivity.
    + intros Ho. rewrite length_drop. specialize (Hlen Ho). lia.
  - destruct (Z.eqb_spec bytecount 58) as [-> | Hne].
    + (* Full scan, no further scans *)
      apply bind_Done in Hrun. destruct Hrun as (r & w1 & Happ & Hrest).
      pose proof (runs_det _ _ _ _ _ (append_scan_cmd_runs _ _ _ _ _ _ _ _ _ _ _ w)
                    Happ) as [Hres Hok].
      destruct r; simpl in Hrest; try (unfold ret in Hrest; discriminate).
      destruct (Hok eq_refl) as [Ht _].
      destruct (append_result_enqueued _ _ _ _ Hres) as (Henq & _ & _).
      simpl in Henq.
      rewrite scan_loop_eq in Hrest. simpl in Hrest. injection Hrest as <-.
      eexists [], _. split; [exact Henq|].
      edestruct (scan_cmd_shape (type s) (58 * 8) tdi_l tdi)
        as (Hp & _ & _ & Hpp & Hfree); [| exact Ht | exact Htdi | |].
      * vm_compute. discriminate.
      * intros Ho. specialize (Hlen Ho).
        change (DIV_ROUND_UP (58 * 8) 8) with 58. lia.
      * split; [|exact Hpp|exact Hfree].
        unfold header_byte. rewrite Hp. reflexivity.
    + (* Scan with less than maximum payload, no further scans *)
      assert (bytecount mod 58 = bytecount) as Hmod by (apply Z.mod_small; lia).
      rewrite Hmod in *.
      destruct (Z.eqb_spec bytecount 0) as [|_]; [lia|].
      specialize (Hbits ltac:(lia)).
      set (B := to_int (bits_last_scan s)) in *.
      apply bind_Done in Hrun. destruct Hrun as (r & w1 & Happ & Hrest).
      pose proof (runs_det _ _ _ _ _ (append_scan_cmd_runs _ _ _ _ _ _ _ _ _ _ _ w)
                    Happ) as [Hres Hok].
      destruct r; simpl in Hrest; try (unfold ret in Hrest; discriminate).
      destruct (Hok eq_refl) as [Ht _].
      destruct (append_result_enqueued _ _ _ _ Hres) as (Henq & _ & _).
      simpl in Henq.
      rewrite scan_loop_eq in Hrest. simpl in Hrest. injection Hrest as <-.
      eexists [], _. split; [exact Henq|].
      pose proof (div_round_up_bits B bytecount Hbits ltac:(lia)) as Hbytes.
      edestruct (scan_cmd_shape (type s) B tdi_l tdi)
        as (Hp & _ & _ & Hpp & Hfree); [| exact Ht | exact Htdi | |].
      * rewrite Hbytes. lia.
      * intros Ho. specialize (Hlen Ho). rewrite Hbytes. lia.
      * split; [|exact Hpp|exact Hfree].
        unfold header_byte. rewrite Hp. cbn [default app lookup list_lookup].
        rewrite last_byte_bits by lia. reflexivity.
Qed.

Lemma scan_transitions_trace shift pause end_state w t w' :
  scan_transitions shift pause end_state w = Done t w' ->
  trace w' = trace w.
Proof.
  unfold scan_transitions, ulink_set_end_state.
  destruct (tap_is_state_stable shift); [|discriminate].
  intros Hrun. injection Hrun as _ <-. reflexivity.
Qed.

Lemma alloc_tdo_runs (b : bool) size w :
  runs (if b then
          let* ok := calloc_ok in
          if negb ok then ret None
          else let* p := new_block size in ret (Some (Some p))
        else ret (Some None))
       w (fun _ w' => quiet w w').
Proof.
  destruct b; [|step; apply quiet_refl].
  call calloc_ok_runs. intros ok w1 Q1.
  destruct ok; simpl; [|step; exact Q1].
  call new_block_runs. intros p w2 Q2. step.
  exact (quiet_trans _ _ _ Q1 Q2).
Qed.

Lemma scan_bytes N :
  1 <= N < 2147483648 ->
  Z.quot (u32 (u32 N + 8 - 1)) 8 = (N + 7) / 8.
Proof.
  intros HN. unfold u32. rewrite (Z.mod_small N) by lia.
  rewrite Z.mod_small by lia. rewrite Z.quot_div_nonneg by lia.
  f_equal. lia.
Qed.

(** A successful [ulink_queue_scan] is a run of its loop to the end. *)
Lemma queue_scan_inv scan w w' :
  let N := jtag_scan_size scan in
  let bytes := (N + 7) / 8 in
  1 <= N < 2147483648 ->
  ulink_queue_scan scan w = Done ERROR_OK w' ->
  exists s tdo w2 w3,
    type s = jtag_scan_type scan /\
    bits_last_scan s = u32 (u32 N - Z.quot bytes 58 * 58 * 8) /\
    scan_loop s bytes
      (if scan_has_out (jtag_scan_type scan)
       then Some (jtag_build_buffer scan) else None) tdo w2
    = Done ERROR_OK w3 /\
    enqueued (trace w2) = enqueued (trace w) /\
    trace w' = trace w3.
Proof.
  intros N bytes HN Hrun. unfold ulink_queue_scan in Hrun.
  fold N in Hrun. rewrite (scan_bytes N HN) in Hrun. fold bytes in Hrun.
  cbv zeta in Hrun.
  apply bind_Done in Hrun. destruct Hrun as (alloc & w1 & Halloc & Hrun).
  pose proof (runs_det _ _ _ _ _ (alloc_tdo_runs _ _ w) Halloc) as Q1.
  destruct alloc as [tdo_buffer_start|]; [|discriminate].
  apply bind_Done in Hrun. destruct Hrun as (tr & w2 & Htr & Hrun).
  assert (trace w2 = trace w1) as T2.
  { destruct (ir_scan scan); exact (scan_transitions_trace _ _ _ _ _ _ Htr). }
  destruct tr as [[[[fc fs] [lc ls]] [pc ps]] [rc rs]].
  apply bind_Done in Hrun. destruct Hrun as (r & w3 & Hloop & Hrun).
  destruct r; simpl in Hrun; try (unfold ret in Hrun; discriminate).
  injection Hrun as <-.
  eexists _, _, w2, w3. split; [|split; [|split; [exact Hloop|]]].
  - reflexivity.
  - reflexivity.
  - split; [|reflexivity]. rewrite T2. exact (quiet_enqueued _ _ Q1).
Qed.

(** The commands a successful [ulink_queue_scan] emits. *)
Lemma queue_scan_chunks scan w w' :
  let N := jtag_scan_size scan in
  let t := jtag_scan_type scan in
  1 <= N < 2147483648 ->
  (scan_has_out t = true ->
   Z.of_nat (length (jtag_build_buffer scan)) = (N + 7) / 8) ->
  ulink_queue_scan scan w = Done ERROR_OK w' ->
  exists cmds,
    enqueued (trace w') = enqueued (trace w) ++ cmds /\
    Z.of_nat (length cmds) = ((N + 7) / 8 + 57) / 58 /\
    (forall k c, cmds !! k = Some c -> (S k < length cmds)%nat ->
       nonfinal_chunk t (drop (58 * k) (jtag_build_buffer scan)) c).
Proof.
  intros N t HN Hlen Hrun.
  destruct (queue_scan_inv scan w w' HN Hrun)
    as (s & tdo & w2 & w3 & Ht & _ & Hloop & Henq2 & T3).
  eapply scan_loop_chunks with (tdi_l := jtag_build_buffer scan) in Hloop.
  - destruct Hloop as (cmds & Henq & Hcount & Hchunks).
    exists cmds. rewrite Ht in Hchunks. split; [|split]; auto.
    rewrite T3, Henq, Henq2. reflexivity.
  - apply Z.div_pos; lia.
  - rewrite Ht. reflexivity.
  - rewrite Ht. exact Hlen.
Qed.

Lemma bits_last_scan_value N :
  1 <= N < 2147483648 ->
  let bytes := (N + 7) / 8 in
  bytes mod 58 <> 0 ->
  to_int (u32 (u32 N - Z.quot bytes 58 * 58 * 8)) = N - 464 * (bytes / 58) /\
  8 * (bytes mod 58 - 1) < N - 464 * (bytes / 58) <= 8 * (bytes mod 58).
Proof.
  intros HN bytes Hm.
  assert (0 <= bytes) as Hb by (apply Z.div_pos; lia).
  rewrite Z.quot_div_nonneg by lia.
  assert (8 * (bytes mod 58 - 1) < N - 464 * (bytes / 58) <= 8 * (bytes mod 58))
    as Hrange.
  { subst bytes. Z.div_mod_to_equations. lia. }
  split; [|exact Hrange].
  assert (0 < bytes mod 58 < 58) as Hmod.
  { pose proof (Z.mod_pos_bound bytes 58). lia. }
  unfold to_int, u32. rewrite (Z.mod_small N) by lia.
  rewrite Z.mod_mod by lia.
  rewrite Z.mod_small by lia.
  destruct (Z.ltb_spec (N - bytes / 58 * 58 * 8) 2147483648); lia.
Qed.

(** Where the last chunk of a scan gets its bit count right.  A successful
    scan ends in a command flagged for post-processing that owns the inbound
    buffer, every command before it has 8 in header byte 1 and neither flag.
    Header byte 1 of the last command is [((N - 1) mod 8) + 1] unless the
    scan fills a whole number of 58-byte chunks, in which case it is 8
    whatever [N] is. *)
Lemma queue_scan_last_chunk scan w w' :
  let N := jtag_scan_size scan in
  let t := jtag_scan_type scan in
  1 <= N < 2147483648 ->
  (scan_has_out t = true ->
   Z.of_nat (length (jtag_build_buffer scan)) = (N + 7) / 8) ->
  ulink_queue_scan scan w = Done ERROR_OK w' ->
  exists init fin,
    enqueued (trace w') = enqueued (trace w) ++ init ++ [fin] /\
    (forall c, In c init ->
       header_byte c 1 = Some 8 /\
       needs_postprocessing c = false /\ free_payload_in_start c = false) /\
    final_chunk (if ((N + 7) / 8) mod 58 =? 0 then 8 else (N - 1) mod 8 + 1) fin.
Proof.
  intros N t HN Hlen Hrun.
  destruct (queue_scan_chunks scan w w' HN Hlen Hrun)
    as (cmds & Henq & _ & Hchunks).
  destruct (queue_scan_inv scan w w' HN Hrun)
    as (s & tdo & w2 & w3 & Ht & Hbls & Hloop & Henq2 & T3).
  subst N t. set (N := jtag_scan_size scan) in *.
  assert (0 < (N + 7) / 8) as Hbytes.
  { apply Z.div_str_pos. lia. }
  eapply scan_loop_final with (tdi_l := jtag_build_buffer scan) in Hloop;
    [| exact Hbytes | rewrite Ht; reflexivity | rewrite Ht; exact Hlen |].
  - destruct Hloop as (init & fin & Henq3 & Hfin).
    exists init, fin.
    assert (cmds = init ++ [fin]) as ->.
    { apply (app_inv_head (enqueued (trace w))).
      rewrite <- Henq, T3, Henq3, Henq2. reflexivity. }
    split; [exact Henq|]. split.
    + intros c Hin. apply list_elem_of_In, list_elem_of_lookup in Hin.
      destruct Hin as (k & Hk).
      pose proof (lookup_lt_Some _ _ _ Hk) as Hlt.
      destruct (Hchunks k c) as [_ Hb _ _ _ Hpp Hfree].
      * rewrite lookup_app_l by exact Hlt. exact Hk.
      * rewrite length_app. simpl. lia.
      * auto.
    + destruct (Z.eqb_spec (((N + 7) / 8) mod 58) 0) as [|Hm]; [exact Hfin|].
      destruct (bits_last_scan_value N HN Hm) as (Hval & _).
      rewrite Hbls, Hval in Hfin.
      replace ((N - 464 * ((N + 7) / 8 / 58) - 1) mod 8) with ((N - 1) mod 8)
        in Hfin; [exact Hfin|].
      Z.div_mod_to_equations. lia.
  - intros Hm. rewrite Hbls.
    destruct (bits_last_scan_value N HN Hm) as (-> & Hrange). exact Hrange.
Qed.

(** The claim on the last chunk holds for every scan that does not fill a
    whole number of 58-byte chunks, and for every scan of a whole number of
    bytes. *)
Corollary queue_scan_last_chunk_ok scan w w' :
  let N := jtag_scan_size scan in
  let t := jtag_scan_type scan in
  1 <= N < 2147483648 ->
  (scan_has_out t = true ->
   Z.of_nat (length (jtag_build_buffer scan)) = (N + 7) / 8) ->
  ((N + 7) / 8) mod 58 <> 0 \/ N mod 8 = 0 ->
  ulink_queue_scan scan w = Done ERROR_OK w' ->
  exists init fin,
    enqueued (trace w') = enqueued (trace w) ++ init ++ [fin] /\
    (forall c, In c init ->
       header_byte c 1 = Some 8 /\
       needs_postprocessing c = false /\ free_payload_in_start c = false) /\
    final_chunk ((N - 1) mod 8 + 1) fin.
Proof.
  intros N t HN Hlen Hcase Hrun.
  destruct (queue_scan_last_chunk scan w w' HN Hlen Hrun)
    as (init & fin & Henq & Hinit & Hfin).
  exists init, fin. split; [exact Henq|]. split; [exact Hinit|].
  fold N in Hfin.
  destruct (Z.eqb_spec (((N + 7) / 8) mod 58) 0) as [Hz|]; [|exact Hfin].
  destruct Hcase as [Hm | H8]; [contradiction|].
  replace ((N - 1) mod 8 + 1) with 8; [exact Hfin|].
  Z.div_mod_to_equations. lia.
Qed.

(** C3 (as the code has it). A scan of [N >= 1] bits that is translated
    successfully is emitted as exactly [ceil(ceil(N/8) / 58)] wire commands:
    one for [N <= 58*8], two for [58*8 < N <= 2*58*8], and so on.  Every
    non-final command covers exactly 58 bytes of the scan (header byte 0 is
    58); it carries those 58 bytes of TDI data in its payload when the scan
    type is OUT or IO, and no TDI data at all, only the 5 header bytes, when
    the type is IN. *)
Theorem scan_chunk_count scan w w' :
  let N := jtag_scan_size scan in
  let t := jtag_scan_type scan in
  let tdi := jtag_build_buffer scan in
  let bytes := (N + 7) / 8 in
  1 <= N < 2147483648 ->
  (scan_has_out t = true -> Z.of_nat (length tdi) = bytes) ->
  ulink_queue_scan scan w = Done ERROR_OK w' ->
  exists cmds,
    enqueued (trace w') = enqueued (trace w) ++ cmds /\
    Z.of_nat (length cmds) = (bytes + 57) / 58 /\
    (N <= 58 * 8 -> length cmds = 1%nat) /\
    (58 * 8 < N <= 2 * 58 * 8 -> length cmds = 2%nat) /\
    (forall k c, cmds !! k = Some c -> (S k < length cmds)%nat ->
       header_byte c 0 = Some 58 /\
       if scan_has_out t
       then payload_out_size c = 63 /\ length (tdi_bytes c) = 58%nat /\
            tdi_bytes c = (u8 <$> take 58 (drop (58 * k) tdi))
       else payload_out_size c = 5 /\ tdi_bytes c = []).
Proof.
  intros N t tdi bytes HN Hlen Hrun.
  destruct (queue_scan_chunks scan w w' HN Hlen Hrun)
    as (cmds & Henq & Hcount & Hchunks).
  exists cmds. split; [exact Henq|]. split; [exact Hcount|].
  fold N in Hcount.
  split; [|split].
  - intros Hone.
    assert (1 <= (N + 7) / 8 <= 58) as Hb.
    { split; [apply Z.div_le_lower_bound | apply Z.lt_succ_r,
              Z.div_lt_upper_bound]; lia. }
    assert (1 = ((N + 7) / 8 + 57) / 58); [|lia].
    apply Z.div_unique with (r := (N + 7) / 8 - 1); lia.
  - intros Htwo.
    assert (59 <= (N + 7) / 8 <= 116) as Hb.
    { split; [apply Z.div_le_lower_bound | apply Z.lt_succ_r,
              Z.div_lt_upper_bound]; lia. }
    assert (2 = ((N + 7) / 8 + 57) / 58); [|lia].
    apply Z.div_unique with (r := (N + 7) / 8 - 59); lia.
  - intros k c Hk Hnext.
    destruct (Hchunks k c Hk Hnext) as [Hb _ Hs Htdi Hl _ _].
    split; [exact Hb|]. subst t tdi.
    destruct (scan_has_out (jtag_scan_type scan)); auto.
Qed.

End Scan.

(** C3, the claim as stated fails: the first of the two commands of a 465-bit
    IN scan is not the final one, and it carries no TDI data at all.  And a
    512-bit OUT scan whose second chunk cannot be appended, because the flush
    of the first fails on the USB side, emits one command, not two. *)
Lemma scan_in_chunk_carries_no_tdi :
  let scan := {| ir_scan := false; jtag_scan_size := 465;
                 jtag_scan_type := SCAN_IN; jtag_build_buffer := [];
                 scan_end_state := TAP_IDLE |} in
  let o := @ulink_queue_scan sample_externals scan idle_world in
  let scan' := {| ir_scan := false; jtag_scan_size := 512;
                  jtag_scan_type := SCAN_OUT;
                  jtag_build_buffer := replicate 64 170;
                  scan_end_state := TAP_IDLE |} in
  let o' := @ulink_queue_scan sample_externals scan'
              (with_bulk_write_tape [-1] idle_world) in
  (result_of o = Some ERROR_OK /\
   exists c1 c2,
     enqueued (trace (world_of o)) = [c1; c2] /\
     id c1 = CMD_SCAN_IN /\ header_byte c1 0 = Some 58 /\
     payload_out_size c1 = 5 /\ length (tdi_bytes c1) <> 58%nat) /\
  (result_of o' = Some ERROR_FAIL /\
   length (enqueued (trace (world_of o'))) = 1%nat).
Proof.
  split; [|vm_compute; split; reflexivity].
  split; [vm_compute; reflexivity|].
  eexists _, _. split; [vm_compute; reflexivity|].
  vm_compute. repeat split. discriminate.
Qed.

Lemma scan_chunk_count_witness :
  let scan := {| ir_scan := false; jtag_scan_size := 512;
                 jtag_scan_type := SCAN_OUT;
                 jtag_build_buffer := replicate 64 170;
                 scan_end_state := TAP_IDLE |} in
  exists w' cmds,
    @ulink_queue_scan sample_externals scan idle_world = Done ERROR_OK w' /\
    enqueued (trace w') = cmds /\ length cmds = 2%nat.
Proof.
  intros scan.
  pose (w' := world_of (@ulink_queue_scan sample_externals scan idle_world)).
  assert (@ulink_queue_scan sample_externals scan idle_world = Done ERROR_OK w')
    as Hrun by (vm_compute; reflexivity).
  destruct (@scan_chunk_count sample_externals scan idle_world w')
    as (cmds & Henq & _ & _ & Htwo & _).
  - simpl. lia.
  - intros _. reflexivity.
  - exact Hrun.
  - exists w', cmds. split; [exact Hrun|]. split; [exact Henq|].
    apply Htwo. simpl. lia.
Defined.

(** C2, on a scan of 461 bits (58 bytes): the single command emitted is the
    final chunk, flagged for post-processing and owning the inbound buffer,
    but its header byte 1 is 8 where [((461 - 1) mod 8) + 1] is 5: the branch
    for [bytecount == 58] sends [58 * 8] bits whatever the request asks for. *)
Theorem scan_461_last_chunk_bits :
  let scan := {| ir_scan := false; jtag_scan_size := 461;
                 jtag_scan_type := SCAN_OUT;
                 jtag_build_buffer := replicate 58 170;
                 scan_end_state := TAP_IDLE |} in
  let o := @ulink_queue_scan sample_externals scan idle_world in
  result_of o = Some ERROR_OK /\
  exists c,
    enqueued (trace (world_of o)) = [c] /\
    needs_postprocessing c = true /\ free_payload_in_start c = true /\
    header_byte c 0 = Some 58 /\
    header_byte c 1 = Some 8 /\
    (461 - 1) mod 8 + 1 = 5.
Proof.
  split; [vm_compute; reflexivity|].
  eexists. split; [vm_compute; reflexivity|].
  vm_compute. repeat split.
Qed.

(** C4, the claim as stated fails: when the final bulk write fails,
    [ulink_execute_queue] returns the error and the queued sleep command is
    still in the queue. *)
Lemma failed_flush_keeps_queue :
  let w := with_bulk_write_tape [-1] idle_world in
  let o := @ulink_execute_queue sample_externals [JTAG_SLEEP 1234] w in
  result_of o = Some ERROR_FAIL /\
  length (queue (ulink_handle (world_of o))) = 1%nat /\
  queue (ulink_handle (world_of o)) <> [].
Proof.
  vm_compute. repeat split. discriminate.
Qed.

Lemma execute_queue_fail_fast_witness :
  exists w2,
    @ulink_execute_queue sample_externals
      ([JTAG_SLEEP 1234] ++ JTAG_OTHER :: [JTAG_TLR_RESET]) idle_world
    = Done ERROR_FAIL w2 /\
    length (queue (ulink_handle w2)) = 1%nat.
Proof.
  pose (w1 := world_of (@translate_from sample_externals [JTAG_SLEEP 1234]
                          idle_world)).
  exists w1. split.
  - apply (proj1 (@execute_queue_fail_fast sample_externals)) with (w1 := w1).
    + vm_compute. reflexivity.
    + reflexivity.
    + discriminate.
  - vm_compute. reflexivity.
Defined.

Lemma queue_within_packet_witness :
  let cmd := two_byte_cmd CMD_SLEEP_US 210 4 in
  let w := world_of (@ulink_append_queue sample_externals cmd idle_world) in
  @ulink_get_queue_size (ulink_handle w) PAYLOAD_DIRECTION_OUT <= 64 /\
  @ulink_get_queue_size (ulink_handle w) PAYLOAD_DIRECTION_IN <= 64.
Proof.
  intros cmd w.
  assert (@reachable sample_externals w) as Hreach.
  { apply (@reachable_append sample_externals idle_world cmd ERROR_OK w).
    - apply reachable_empty. reflexivity.
    - vm_compute. discriminate.
    - vm_compute. discriminate.
    - vm_compute. reflexivity. }
  destruct (@queue_within_packet sample_externals w Hreach)
    as ((_ & _ & Hout & Hin) & _).
  split; assumption.
Defined.

(** [ulink_queue_runtest] drops the result of [ulink_queue_statemove]: when
    the move to Run-Test/Idle cannot be queued (here the allocation of the
    clock-tms command fails) the translator still returns [ERROR_OK], with
    only the clock-tck command queued and the follower left in Reset. *)
Lemma runtest_drops_statemove_error :
  let w := with_calloc_tape [false] (with_cur_state TAP_RESET idle_world) in
  let o := @ulink_queue_runtest sample_externals 100 TAP_RESET w in
  @ulink_queue_statemove sample_externals (with_end_state TAP_IDLE w)
  = Done ERROR_FAIL (with_end_state TAP_IDLE (with_calloc_tape [] w)) /\
  result_of o = Some ERROR_OK /\
  map id (enqueued (trace (world_of o))) = [CMD_CLOCK_TCK] /\
  cur_state (world_of o) = TAP_RESET.
Proof.
  vm_compute. repeat split.
Qed.


(** * Further properties of the driver *)

(** ** What every queue the driver builds satisfies *)

Lemma bind_eq {A B} (m : M A) (k : A -> M B) w :
  bind m k w =
  match m w with Done a w1 => k a w1 | Exited st w1 => Exited st w1 end.
Proof. reflexivity. Qed.

Lemma keeps_ret {A} (I : world -> Prop) (a : A) : keeps I (ret a).
Proof. intros w HI. exact HI. Qed.

Lemma keeps_bind {A B} (I : world -> Prop) (m : M A) (k : A -> M B) :
  keeps I m -> (forall a, keeps I (k a)) -> keeps I (bind m k).
Proof.
  intros Hm Hk w HI. specialize (Hm w HI). unfold bind.
  destruct (m w) as [a w1 | s w1]; simpl in *.
  - apply Hk. exact Hm.
  - exact Hm.
Qed.

Lemma keeps_get {A} (I : world -> Prop) (f : world -> A) : keeps I (get f).
Proof. intros w HI. exact HI. Qed.

Lemma keeps_exit {A} (I : world -> Prop) (s : Z) : keeps I (@exit A s).
Proof. intros w HI. exact HI. Qed.

Lemma runs_keeps {A} (I : world -> Prop) (m : M A) :
  (forall w, I w -> runs m w (fun _ w' => I w')) -> keeps I m.
Proof.
  intros Hr w HI. destruct (Hr w HI) as (a & w' & E & HI'). rewrite E. exact HI'.
Qed.

Lemma driver_inv_handle w w' :
  ulink_handle w' = ulink_handle w -> driver_inv w -> driver_inv w'.
Proof. unfold driver_inv. intros ->. auto. Qed.

Lemma quiet_driver_inv w w' : quiet w w' -> driver_inv w -> driver_inv w'.
Proof. intros [h _ _ _]. apply driver_inv_handle. exact h. Qed.

Section Invariant.

Context `{Ext : Externals}.

Lemma link_cmd_handle cmd w :
  runs (link_cmd cmd) w (fun _ w' =>
    ulink_handle w' =
    match queue (ulink_handle w) with
    | [] => {| commands_in_queue := 1; queue := [cmd] |}
    | _ => {| commands_in_queue := commands_in_queue (ulink_handle w) + 1;
              queue := queue (ulink_handle w) ++ [cmd] |}
    end).
Proof.
  unfold link_cmd. step. step. step. step.
  destruct (queue (ulink_handle w)); step; reflexivity.
Qed.

Lemma append_queue_inv cmd w :
  driver_inv w -> within_packet cmd ->
  runs (ulink_append_queue cmd) w (fun _ w' => driver_inv w').
Proof.
  intros (Hc & Ho & Hi & Hwf) (Hcwf & Hco & Hci).
  unfold ulink_append_queue. step. step. cbv zeta.
  pose proof (fits_dec cmd (ulink_handle w)) as Hfit.
  destruct (_ || _) eqn:Eover.
  - apply runs_bind. fold flush.
    eapply runs_weaken; [apply flush_runs|]. cbv beta.
    intros r w1 [[-> C] | [Hr Q]].
    + simpl. call link_cmd_handle. intros [] w2 Hh. step.
      destruct C as [h _ _ _]. rewrite h in Hh. simpl in Hh.
      unfold driver_inv. rewrite Hh. simpl.
      repeat split; auto; lia.
    + destruct r; [congruence| |]; simpl; step;
        exact (quiet_driver_inv _ _ Q (conj Hc (conj Ho (conj Hi Hwf)))).
  - destruct (proj1 Hfit eq_refl) as [Hfo Hfi].
    step. step. simpl. call link_cmd_handle. intros [] w2 Hh. step.
    unfold driver_inv. rewrite Hh.
    destruct (queue (ulink_handle w)) as [|c0 q0] eqn:Eq.
    + simpl. simpl in Hfo, Hfi. repeat split; auto; lia.
    + cbn [commands_in_queue queue]. rewrite <- Eq in *.
      rewrite length_app, out_bytes_app, in_bytes_app. simpl.
      repeat split; try lia.
      apply Forall_app. auto.
Qed.

Lemma same_frame_refl c : same_frame c c.
Proof. split; reflexivity. Qed.

Lemma same_frame_trans c1 c2 c3 :
  same_frame c1 c2 -> same_frame c2 c3 -> same_frame c1 c3.
Proof. intros [] []. split; congruence. Qed.

Lemma set_out_frame i v c : same_frame c (set_out i v c).
Proof.
  unfold set_out. destruct (payload_out c) as [l|] eqn:El;
    [|apply same_frame_refl].
  destruct (i <? 0); [apply same_frame_refl|].
  split; try reflexivity. simpl. rewrite El. simpl. apply length_insert.
Qed.

Lemma copy_tdi_frame steps : forall i tdi c, same_frame c (copy_tdi steps i tdi c).
Proof.
  induction steps as [|steps IH]; intros i tdi c; simpl.
  - apply same_frame_refl.
  - eapply same_frame_trans; [apply set_out_frame | apply IH].
Qed.

Lemma div_round_up_range bits :
  0 <= bits <= 58 * 8 -> 0 <= DIV_ROUND_UP bits 8 <= 58.
Proof.
  intros Hb. unfold DIV_ROUND_UP. rewrite Z.quot_div_nonneg by lia.
  split; [apply Z.div_pos; lia|].
  apply Z.lt_succ_r, Z.div_lt_upper_bound; lia.
Qed.

Lemma u8_small x : 0 <= x < 256 -> u8 x = x.
Proof. intros Hx. unfold u8. apply Z.mod_small. exact Hx. Qed.

(** A scan command of at most [58 * 8] bits fits a packet on its own. *)
Lemma scan_cmd_within_packet t bits tdi tdo_start tdo tcs tss tce tse origin pp :
  0 <= bits <= 58 * 8 ->
  within_packet (scan_cmd t bits tdi tdo_start tdo tcs tss tce tse origin pp).
Proof.
  intros Hbits. pose proof (div_round_up_range bits Hbits) as Hbytes.
  unfold scan_cmd. cbv zeta.
  set (bytes := DIV_ROUND_UP bits 8) in *.
  set (size := match t with SCAN_IN => 5 | _ => bytes + 5 end).
  assert (0 <= size <= 63) as Hsize by (subst size; destruct t; lia).
  set (c0 := set_payload_out _ _ _).
  unfold fill_scan_cmd.
  set (c1 := set_out 4 _ _).
  assert (same_frame c0 c1) as F1.
  { subst c1. repeat (eapply same_frame_trans; [|apply set_out_frame]).
    apply same_frame_refl. }
  set (c2 := if scan_has_out t then _ else c1).
  assert (same_frame c0 c2) as F2.
  { subst c2. destruct (scan_has_out t); [|exact F1].
    eapply same_frame_trans; [exact F1 | apply copy_tdi_frame]. }
  destruct F2 as [_ Hs Hl _ _ His _ _ _].
  assert (payload_out_size c0 = size) as Hs0.
  { subst c0. simpl. apply u8_small. lia. }
  assert (length (default [] (payload_out c0)) = Z.to_nat size) as Hl0.
  { subst c0. simpl. apply length_replicate. }
  unfold within_packet, well_formed.
  destruct (scan_has_in t); cbn [payload_out payload_out_size payload_in_size
    set_free_payload_in_start set_cmd_origin set_needs_postprocessing
    set_payload_in].
  - rewrite Hs, Hl, Hs0, Hl0, u8_small by lia. lia.
  - rewrite Hs, Hl, His, Hs0, Hl0. subst c0. simpl. lia.
Qed.

Lemma append_scan_cmd_inv t bits tdi tdo_start tdo tcs tss tce tse origin pp w :
  driver_inv w -> 0 <= bits ->
  runs (ulink_append_scan_cmd t bits tdi tdo_start tdo tcs tss tce tse origin pp)
       w (fun _ w' => driver_inv w').
Proof.
  intros HI Hbits. unfold ulink_append_scan_cmd.
  call calloc_ok_runs. intros ok w1 Q1.
  pose proof (quiet_driver_inv _ _ Q1 HI) as HI1.
  destruct ok; simpl negb; cbv iota; [|step; exact HI1].
  cbv zeta.
  destruct (Z.gtb_spec bits (58 * 8)) as [Hbig | Hsmall]; [step; exact HI1|].
  pose proof (scan_cmd_within_packet t bits tdi tdo_start tdo tcs tss tce tse
                origin pp (conj Hbits Hsmall)) as Hwp.
  unfold scan_cmd in Hwp. cbv zeta in Hwp.
  apply runs_bind.
  destruct t.
  4:{ step. simpl. step. exact HI1. }
  all: eapply runs_weaken; [apply allocate_out_runs; reflexivity|].
  all: intros rc w2 [Q2 Hrc]; cbv beta.
  all: pose proof (quiet_driver_inv _ _ Q2 HI1) as HI2.
  all: destruct Hrc as [-> | ->]; cbv iota beta; simpl negb; cbv iota.
  all: try (step; exact HI2).
  all: apply append_queue_inv; [exact HI2 | exact Hwp].
Qed.

(** The shape shared by the constructors of commands without IN payload. *)
Ltac constructor_keeps :=
  let ok := fresh "ok" in
  let w1 := fresh "w" in
  let Q1 := fresh "Q" in
  let HI1 := fresh "HI" in
  match goal with
  | HI : driver_inv ?w |- runs _ ?w _ =>
      call calloc_ok_runs; intros ok w1 Q1;
      pose proof (quiet_driver_inv _ _ Q1 HI) as HI1;
      destruct ok; simpl negb; cbv iota; [|step; exact HI1];
      cbv zeta
  end.

Lemma out_constructor_inv (i : cmd_id) (size : Z) (f : ulink_cmd -> ulink_cmd) w :
  driver_inv w ->
  0 <= size <= 63 ->
  (forall c, same_frame c (f c)) ->
  runs
    (let* ok := calloc_ok in
     if negb ok then ret ERROR_FAIL
     else
       let cmd := set_id i zeroed_cmd in
       let* rc := ulink_allocate_payload cmd size PAYLOAD_DIRECTION_OUT in
       let '(r, cmd) := rc in
       if negb (is_ok r) then ret r
       else ulink_append_queue (f cmd))
    w (fun _ w' => driver_inv w').
Proof.
  intros HI Hsize Hf. constructor_keeps.
  call allocate_out_runs; [reflexivity|]. intros rc w2 [Q2 Hrc].
  pose proof (quiet_driver_inv _ _ Q2 HI0) as HI2.
  destruct Hrc as [-> | ->]; simpl; [|step; exact HI2].
  apply append_queue_inv; [exact HI2|].
  destruct (Hf (set_payload_out (Some (replicate (Z.to_nat size) 0)) (u8 size)
                  (set_id i zeroed_cmd))) as [_ Hs Hl _ _ His _ _ _].
  unfold within_packet, well_formed. rewrite Hs, Hl, His. simpl.
  rewrite length_replicate, u8_small by lia. lia.
Qed.

Lemma set_out2_frame a0 v0 a1 v1 c :
  same_frame c (set_out a1 v1 (set_out a0 v0 c)).
Proof.
  eapply same_frame_trans; apply set_out_frame.
Qed.

(** X1. From a world in which the queue and its counter agree, the queue
    fits one packet per direction and every queued command is well formed,
    each of the command constructors returns and leaves a world of that kind:
    what it appends is a well-formed command of at most 63 OUT and 64 IN
    payload bytes.  For a scan command this takes a bit count that is not
    negative. *)
Theorem constructors_keep_invariant w :
  driver_inv w ->
  let I := fun (_ : retcode) w' => driver_inv w' in
  (forall t bits tdi tdo_start tdo tcs tss tce tse origin pp,
     0 <= bits ->
     runs (ulink_append_scan_cmd t bits tdi tdo_start tdo tcs tss tce tse
             origin pp) w I) /\
  (forall count sequence, runs (ulink_append_clock_tms_cmd count sequence) w I) /\
  (forall count, runs (ulink_append_clock_tck_cmd count) w I) /\
  runs ulink_append_get_signals_cmd w I /\
  (forall low high, runs (ulink_append_set_signals_cmd low high) w I) /\
  (forall us, runs (ulink_append_sleep_cmd us) w I) /\
  (forall delay_scan delay_tck delay_tms,
     runs (ulink_append_configure_tck_cmd delay_scan delay_tck delay_tms) w I) /\
  (forall led_state, runs (ulink_append_led_cmd led_state) w I) /\
  runs ulink_append_test_cmd w I.
Proof.
  intros HI I.
  split; [intros; apply append_scan_cmd_inv; assumption|].
  split; [intros; apply (out_constructor_inv _ 2
            (fun c => set_out 1 sequence (set_out 0 count c)));
          [assumption | lia | intros; apply set_out2_frame]|].
  split; [intros; apply (out_constructor_inv _ 2
            (fun c => set_out 1 (Z.land (Z.shiftr count 8) 255)
                        (set_out 0 (Z.land count 255) c)));
          [assumption | lia | intros; apply set_out2_frame]|].
  split.
  { unfold ulink_append_get_signals_cmd. constructor_keeps.
    call allocate_in_runs; [reflexivity|]. intros rc w2 [Q2 Hrc].
    pose proof (quiet_driver_inv _ _ Q2 HI0) as HI2.
    destruct Hrc as [[p ->] | ->]; simpl; [|step; exact HI2].
    apply append_queue_inv; [exact HI2|].
    unfold within_packet, well_formed. simpl. rewrite !u8_small by lia. lia. }
  split; [intros; apply (out_constructor_inv _ 2
            (fun c => set_out 1 high (set_out 0 low c)));
          [assumption | lia | intros; apply set_out2_frame]|].
  split; [intros; apply (out_constructor_inv _ 2
            (fun c => set_out 1 (Z.land (Z.shiftr us 8) 255)
                        (set_out 0 (Z.land us 255) c)));
          [assumption | lia | intros; apply set_out2_frame]|].
  split; [intros; apply (out_constructor_inv _ 3
            (fun c => set_out 2 delay_tms
                        (set_out 1 delay_tck (set_out 0 delay_scan c))));
          [assumption | lia
          | intros; eapply same_frame_trans;
            [apply set_out2_frame | apply set_out_frame]]|].
  split; [intros; apply (out_constructor_inv _ 1 (fun c => set_out 0 led_state c));
          [assumption | lia | intros; apply set_out_frame]|].
  apply (out_constructor_inv _ 1 (fun c => set_out 0 170 c));
    [assumption | lia | intros; apply set_out_frame].
Qed.

(** ** The translators *)

Lemma clock_tms_inv count sequence w :
  driver_inv w ->
  runs (ulink_append_clock_tms_cmd count sequence) w (fun _ w' => driver_inv w').
Proof.
  intros HI. apply (out_constructor_inv _ 2
    (fun c => set_out 1 sequence (set_out 0 count c)));
    [assumption | lia | intros; apply set_out2_frame].
Qed.

Lemma clock_tck_inv count w :
  driver_inv w ->
  runs (ulink_append_clock_tck_cmd count) w (fun _ w' => driver_inv w').
Proof.
  intros HI. apply (out_constructor_inv _ 2
    (fun c => set_out 1 (Z.land (Z.shiftr count 8) 255)
                (set_out 0 (Z.land count 255) c)));
    [assumption | lia | intros; apply set_out2_frame].
Qed.

Lemma set_signals_inv low high w :
  driver_inv w ->
  runs (ulink_append_set_signals_cmd low high) w (fun _ w' => driver_inv w').
Proof.
  intros HI. apply (out_constructor_inv _ 2
    (fun c => set_out 1 high (set_out 0 low c)));
    [assumption | lia | intros; apply set_out2_frame].
Qed.

Lemma sleep_inv us w :
  driver_inv w ->
  runs (ulink_append_sleep_cmd us) w (fun _ w' => driver_inv w').
Proof.
  intros HI. apply (out_constructor_inv _ 2
    (fun c => set_out 1 (Z.land (Z.shiftr us 8) 255)
                (set_out 0 (Z.land us 255) c)));
    [assumption | lia | intros; apply set_out2_frame].
Qed.

Lemma tap_set_state_keeps s : keeps driver_inv (tap_set_state s).
Proof. intros w HI. exact HI. Qed.

Lemma tap_set_end_state_keeps s : keeps driver_inv (tap_set_end_state s).
Proof. intros w HI. exact HI. Qed.

Lemma set_end_state_keeps s : keeps driver_inv (ulink_set_end_state s).
Proof.
  unfold ulink_set_end_state. destruct (tap_is_state_stable s).
  - apply tap_set_end_state_keeps.
  - apply keeps_exit.
Qed.

Ltac keeps_step :=
  lazymatch goal with
  | |- keeps _ (bind _ _) => apply keeps_bind; [|intros ?]
  | |- keeps _ (ret _) => apply keeps_ret
  | |- keeps _ (get _) => apply keeps_get
  | |- keeps _ tap_get_state => apply keeps_get
  | |- keeps _ tap_get_end_state => apply keeps_get
  | |- keeps _ (exit _) => apply keeps_exit
  | |- keeps _ (tap_set_state _) => apply tap_set_state_keeps
  | |- keeps _ (tap_set_end_state _) => apply tap_set_end_state_keeps
  | |- keeps _ (ulink_set_end_state _) => apply set_end_state_keeps
  | |- keeps _ (ulink_append_clock_tms_cmd _ _) =>
      apply runs_keeps; intros; apply clock_tms_inv; assumption
  | |- keeps _ (ulink_append_clock_tck_cmd _) =>
      apply runs_keeps; intros; apply clock_tck_inv; assumption
  | |- keeps _ (ulink_append_set_signals_cmd _ _) =>
      apply runs_keeps; intros; apply set_signals_inv; assumption
  | |- keeps _ (ulink_append_sleep_cmd _) =>
      apply runs_keeps; intros; apply sleep_inv; assumption
  | |- keeps _ (if ?b then _ else _) => destruct b
  | |- keeps _ (match ?x with _ => _ end) => destruct x
  end.

Lemma statemove_keeps : keeps driver_inv ulink_queue_statemove.
Proof. unfold ulink_queue_statemove. cbv zeta. repeat keeps_step. Qed.

Lemma scan_transitions_keeps shift pause end_state :
  keeps driver_inv (scan_transitions shift pause end_state).
Proof. unfold scan_transitions. cbv zeta. repeat keeps_step. Qed.

(** The bit count of a last chunk that is not a full one: between 0 and
    [58 * 8] whatever the size of the scan. *)
Lemma last_scan_bits_range n :
  let N := u32 n in
  let bytes := Z.quot (u32 (N + 8 - 1)) 8 in
  bytes mod 58 <> 0 ->
  0 <= to_int (u32 (N - Z.quot bytes 58 * 58 * 8)) <= 58 * 8.
Proof.
  intros N bytes Hm.
  assert (0 <= N < 4294967296) as HN by (apply Z.mod_pos_bound; lia).
  assert (0 <= u32 (N + 8 - 1)) as Hu by (apply Z.mod_pos_bound; lia).
  destruct (Z_lt_dec (N + 7) 4294967296) as [Hlt | Hge].
  - assert (bytes = (N + 7) / 8) as Eb.
    { subst bytes. unfold u32 at 1. rewrite Z.mod_small by lia.
      rewrite Z.quot_div_nonneg by lia. f_equal. lia. }
    assert (0 <= bytes) as Hb by (rewrite Eb; apply Z.div_pos; lia).
    rewrite Z.quot_div_nonneg by lia.
    assert (8 * (bytes mod 58 - 1) < N - bytes / 58 * 58 * 8 <= 8 * (bytes mod 58))
      as Hrange.
    { rewrite Eb in *. clear Eb Hb Hu. clearbody N.
      Z.div_mod_to_equations. lia. }
    assert (0 <= bytes mod 58 < 58) as Hmod by (apply Z.mod_pos_bound; lia).
    set (X := N - bytes / 58 * 58 * 8) in *.
    assert (u32 X = X) as EX by (apply Z.mod_small; lia).
    unfold to_int. cbv zeta. rewrite !EX.
    destruct (Z.ltb_spec X 2147483648); lia.
  - exfalso. apply Hm.
    assert (u32 (N + 8 - 1) = N + 7 - 4294967296) as Eu.
    { unfold u32 at 1. symmetry.
      apply (Z.mod_unique_pos _ _ 1); lia. }
    subst bytes. rewrite Eu.
    rewrite Z.quot_small by lia. reflexivity.
Qed.

Lemma scan_loop_inv s :
  forall bytecount tdi tdo w,
    (bytecount mod 58 <> 0 -> 0 <= to_int (bits_last_scan s)) ->
    driver_inv w ->
    runs (scan_loop s bytecount tdi tdo) w (fun _ w' => driver_inv w').
Proof.
  intros bytecount.
  induction bytecount as [bytecount IH] using (well_founded_induction (Z.lt_wf 0)).
  intros tdi tdo w Hbits HI.
  rewrite scan_loop_eq.
  destruct (Z.gtb_spec bytecount 0) as [Hpos|]; [|step; exact HI].
  cbv zeta.
  assert (forall w1 tdi1 tdo1, driver_inv w1 ->
            runs (scan_loop s 0 tdi1 tdo1) w1 (fun _ w' => driver_inv w')) as Hend.
  { intros w1 tdi1 tdo1 HI1. rewrite scan_loop_eq. simpl. step. exact HI1. }
  destruct (Z.gtb_spec bytecount 58) as [Hbig|Hsmall].
  - apply runs_bind. eapply runs_weaken;
      [apply append_scan_cmd_inv; [exact HI | lia]|].
    intros r w1 HI1. cbv beta.
    destruct (negb (is_ok r)); [step; exact HI1|].
    apply IH; [lia| |exact HI1].
    intros Hm. apply Hbits. intros E. apply Hm.
    replace (bytecount - 58) with (bytecount + (-1) * 58) by lia.
    rewrite Z.mod_add by lia. exact E.
  - destruct (Z.eqb_spec bytecount 58) as [E58|Hne].
    + apply runs_bind. eapply runs_weaken;
        [apply append_scan_cmd_inv; [exact HI | lia]|].
      intros r w1 HI1. cbv beta.
      destruct (negb (is_ok r)); [step; exact HI1|]. apply Hend. exact HI1.
    + apply runs_bind. eapply runs_weaken;
        [apply append_scan_cmd_inv; [exact HI|]|].
      * apply Hbits. rewrite Z.mod_small by lia. lia.
      * intros r w1 HI1. cbv beta.
        destruct (negb (is_ok r)); [step; exact HI1|]. apply Hend. exact HI1.
Qed.

Lemma queue_scan_keeps scan : keeps driver_inv (ulink_queue_scan scan).
Proof.
  unfold ulink_queue_scan. cbv zeta.
  apply keeps_bind.
  { apply runs_keeps. intros w HI.
    eapply runs_weaken; [apply alloc_tdo_runs|].
    intros a w' Q. exact (quiet_driver_inv _ _ Q HI). }
  intros [tdo_start|]; [|apply keeps_ret].
  apply keeps_bind.
  { destruct (ir_scan scan); apply scan_transitions_keeps. }
  intros [[[[fc fs] [lc ls]] [pc ps]] [rc rs]].
  apply keeps_bind.
  { apply runs_keeps. intros w HI. apply scan_loop_inv; [|exact HI].
    cbn [bits_last_scan]. intros Hm.
    apply (last_scan_bits_range (jtag_scan_size scan)). exact Hm. }
  intros r. repeat keeps_step.
Qed.

Lemma dispatch_keeps c : keeps driver_inv (dispatch c).
Proof.
  destruct c as [scan| |num_cycles end_state|trst srst| |us|]; simpl.
  - apply queue_scan_keeps.
  - unfold ulink_queue_tlr_reset. repeat keeps_step.
  - unfold ulink_queue_runtest. repeat keeps_step; apply statemove_keeps.
  - unfold ulink_queue_reset. cbv zeta. repeat keeps_step.
  - apply keeps_ret.
  - unfold ulink_queue_sleep. keeps_step.
  - apply keeps_ret.
Qed.

Lemma translate_from_keeps reqs : keeps driver_inv (translate_from reqs).
Proof.
  induction reqs as [|c reqs IH]; simpl.
  - apply keeps_ret.
  - apply keeps_bind; [apply dispatch_keeps|].
    intros r. destruct (negb (is_ok r)); [apply keeps_ret | exact IH].
Qed.

Lemma cleared_driver_inv w w' : cleared w w' -> driver_inv w'.
Proof.
  intros [h _ _ _]. unfold driver_inv. rewrite h. simpl.
  repeat split; try lia. constructor.
Qed.

(** What [ulink_execute_queue] does once the requests are translated. *)
Lemma execute_queue_tail_runs w :
  driver_inv w ->
  runs
    (let* device := get ulink_handle in
     if commands_in_queue device >? 0 then
       let* r := ulink_execute_queued_commands USB_TIMEOUT in
       if negb (is_ok r) then ret r
       else
         let* r := ulink_post_process_queue in
         if negb (is_ok r) then ret r
         else ulink_clear_queue ;; ret ERROR_OK
     else ret ERROR_OK)
    w (fun r w' =>
         driver_inv w' /\
         (r = ERROR_OK ->
          ulink_handle w' = {| commands_in_queue := 0; queue := [] |})).
Proof.
  intros HI. step. step.
  destruct (Z.gtb_spec (commands_in_queue (ulink_handle w)) 0) as [Hpos | Hz].
  - fold flush. eapply runs_weaken; [apply flush_runs|].
    intros r w' [[-> C] | [Hr Q]].
    + split; [exact (cleared_driver_inv _ _ C)|]. intros _. apply C.
    + split; [exact (quiet_driver_inv _ _ Q HI) | congruence].
  - step. split; [exact HI|]. intros _.
    destruct HI as (Hc & _). destruct (ulink_handle w) as [n q]. simpl in *.
    destruct q; simpl in *; [|lia]. f_equal. lia.
Qed.

(** X2. Each translated request leaves the queue as it should be: from a
    world in which the queue and its counter agree, the queue fits one packet
    per direction and every queued command is well formed, the translation of
    any request, of any scan size, ends in a world of that kind, whether it
    returns or leaves through [exit]. *)
Theorem translators_keep_invariant c w :
  driver_inv w -> driver_inv (world_of (dispatch c w)).
Proof. apply dispatch_keeps. Qed.

End Invariant.

(** ** State moves and run-test *)

Lemma tap_state_eqb_eq a b : tap_state_eqb a b = true <-> a = b.
Proof. destruct a, b; simpl; split; congruence. Qed.

Lemma u8_idem x : u8 (u8 x) = u8 x.
Proof. unfold u8. apply Z.mod_mod. lia. Qed.

Section Moves.

Context `{Ext : Externals}.

Lemma move_cmd_payload a b :
  id (move_cmd a b) = CMD_CLOCK_TMS /\
  payload_out (move_cmd a b)
  = Some [u8 (tap_get_tms_path_len a b); u8 (tap_get_tms_path a b)].
Proof. unfold move_cmd, two_byte_cmd. simpl. rewrite !u8_idem. auto. Qed.

Lemma tck_cmd_payload n :
  id (tck_cmd (u16 n)) = CMD_CLOCK_TCK /\
  payload_out (tck_cmd (u16 n)) = Some [n mod 256; (n / 256) mod 256].
Proof.
  unfold tck_cmd, two_byte_cmd, u16. simpl. split; [reflexivity|].
  rewrite !land_255, !u8_mod, Z.shiftr_div_pow2 by lia.
  change 65536 with (256 * 256). change (2 ^ 8) with 256.
  rewrite Z.rem_mul_r by lia.
  do 2 f_equal.
  - Z.div_mod_to_equations. lia.
  - f_equal. Z.div_mod_to_equations. lia.
Qed.

Lemma statemove_runs w :
  runs ulink_queue_statemove w (fun r w' =>
    end_state_follower w' = end_state_follower w /\
    if tap_state_eqb (cur_state w) (end_state_follower w)
    then r = ERROR_OK /\ w' = w
    else
      enqueued (trace w')
      = enqueued (trace w)
        ++ (if is_ok r then [move_cmd (cur_state w) (end_state_follower w)]
            else []) /\
      cur_state w' = if is_ok r then end_state_follower w else cur_state w).
Proof.
  unfold ulink_queue_statemove, tap_get_state, tap_get_end_state.
  step. step. step. step.
  destruct (tap_state_eqb _ _); [step; auto|].
  cbv zeta. call append_clock_tms_runs. intros r w1 Hres.
  apply append_result_enqueued in Hres. destruct Hres as (Henq & Hc & He).
  fold (move_cmd (cur_state w) (end_state_follower w)) in Henq.
  unfold tap_get_end_state, tap_set_state.
  destruct r; simpl in *; repeat step; simpl; auto.
Qed.

(** X4. [ulink_queue_statemove] always returns.  With the TAP already in its
    end state it returns [ERROR_OK] and changes nothing at all.  Otherwise it
    tries to append one clock-tms command carrying the length and the bits of
    the TMS path from the current state to the end state: when that succeeds
    this command is the only one emitted and the follower's current state
    becomes the end state; when it fails nothing is emitted and the current
    state stays.  The end state is never changed. *)
Theorem statemove_moves w :
  exists r w',
    ulink_queue_statemove w = Done r w' /\
    end_state_follower w' = end_state_follower w /\
    (cur_state w = end_state_follower w -> r = ERROR_OK /\ w' = w) /\
    (cur_state w <> end_state_follower w ->
     exists c,
       id c = CMD_CLOCK_TMS /\
       payload_out c
       = Some [u8 (tap_get_tms_path_len (cur_state w) (end_state_follower w));
               u8 (tap_get_tms_path (cur_state w) (end_state_follower w))] /\
       enqueued (trace w')
       = enqueued (trace w) ++ (if is_ok r then [c] else []) /\
       cur_state w' = if is_ok r then end_state_follower w else cur_state w).
Proof.
  destruct (statemove_runs w) as (r & w' & Hrun & He & Hres).
  exists r, w'. split; [exact Hrun|]. split; [exact He|].
  destruct (tap_state_eqb _ _) eqn:E.
  - split; [auto|]. apply tap_state_eqb_eq in E. congruence.
  - split.
    + intros Heq. apply tap_state_eqb_eq in Heq. congruence.
    + intros _. exists (move_cmd (cur_state w) (end_state_follower w)).
      destruct (move_cmd_payload (cur_state w) (end_state_follower w)).
      destruct Hres. auto.
Qed.

(** What a state move on the way of a run-test leaves behind: at most one
    clock-tms command, the return code being dropped. *)
Lemma runtest_move_runs (b : bool) (set_end : M unit) goal w :
  runs set_end w (fun _ w1 => w1 = with_end_state goal w) ->
  runs (if b then set_end ;; (let* _ := ulink_queue_statemove in ret tt)
        else ret tt) w
    (fun _ w' => exists cs,
       enqueued (trace w') = enqueued (trace w) ++ cs /\
       (length cs <= 1)%nat /\
       Forall (fun c => id c = CMD_CLOCK_TMS) cs /\
       (b = false -> w' = w) /\
       (cs <> [] -> cur_state w' = goal) /\
       (cur_state w' = cur_state w \/ cur_state w' = goal)).
Proof.
  intros Hset. destruct b.
  - apply runs_bind. eapply runs_weaken; [exact Hset|].
    intros [] w1 ->. cbv beta.
    call statemove_runs. intros r w2 (He & Hres). step.
    simpl in Hres.
    destruct (tap_state_eqb (cur_state w) goal).
    + destruct Hres as [_ ->]. exists []. simpl. rewrite app_nil_r.
      repeat split; auto; try discriminate. congruence.
    + destruct Hres as [Henq Hc]. simpl in Henq.
      destruct r; simpl in *.
      * exists [move_cmd (cur_state w) goal].
        repeat split; auto; try discriminate.
      * exists []. repeat split; auto; try discriminate. congruence.
      * exists []. repeat split; auto; try discriminate. congruence.
  - step. exists []. rewrite app_nil_r. repeat split; auto. congruence.
Qed.

Lemma runtest_runs num_cycles end_state w :
  tap_is_state_stable TAP_IDLE = true ->
  runs (ulink_queue_runtest num_cycles end_state) w (fun r w' =>
    exists pre post,
      enqueued (trace w')
      = enqueued (trace w)
        ++ pre ++ (if is_ok r then tck_cmd (u16 num_cycles) :: post else []) /\
      (length pre <= 1)%nat /\ (length post <= 1)%nat /\
      Forall (fun c => id c = CMD_CLOCK_TMS) (pre ++ post) /\
      (cur_state w = TAP_IDLE -> pre = []) /\
      (pre <> [] -> cur_state w <> TAP_IDLE) /\
      (post <> [] -> cur_state w' = end_state)).
Proof.
  intros Hstable. unfold ulink_queue_runtest, tap_get_state. step. step.
  apply runs_bind. eapply runs_weaken.
  { apply (runtest_move_runs _ _ TAP_IDLE).
    unfold ulink_set_end_state. rewrite Hstable.
    unfold tap_set_end_state. step. reflexivity. }
  intros [] w1 (pre & Hpre & Lpre & Fpre & Hsame & Hgoal & Hcur). cbv beta.
  assert (cur_state w = TAP_IDLE -> pre = []) as Hidle.
  { intros E. destruct (tap_state_eqb (cur_state w) TAP_IDLE) eqn:Eb.
    - specialize (Hsame eq_refl). subst w1.
      apply (f_equal (@length _)) in Hpre. rewrite length_app in Hpre.
      destruct pre; [reflexivity | simpl in Hpre; lia].
    - apply tap_state_eqb_eq in E. congruence. }
  assert (pre <> [] -> cur_state w <> TAP_IDLE) as Hnidle by tauto.
  call append_clock_tck_runs. intros r w2 Hres.
  apply append_result_enqueued in Hres. destruct Hres as (Henq & Hc & He).
  fold (tck_cmd (u16 num_cycles)) in Henq.
  destruct r; simpl negb; cbv iota.
  2,3: step; exists pre, []; simpl in *; rewrite Henq, Hpre, !app_nil_r;
       repeat split; auto; try congruence; rewrite app_nil_r; exact Fpre.
  step. step.
  apply runs_bind. eapply runs_weaken.
  { apply (runtest_move_runs _ _ end_state).
    unfold tap_set_end_state. step. reflexivity. }
  intros [] w3 (post & Hpost & Lpost & Fpost & _ & Hgoal3 & _). cbv beta.
  step. exists pre, post. simpl in *.
  rewrite Hpost, Henq, Hpre, <- !app_assoc. simpl.
  repeat split; auto. apply Forall_app. auto.
Qed.

(** The calls a run-test request is made of: the result of a state move is
    not looked at, and the return code is that of the clock-tck append. *)
Lemma runtest_code num_cycles end_state w r w' :
  tap_is_state_stable TAP_IDLE = true ->
  ulink_queue_runtest num_cycles end_state w = Done r w' ->
  exists w1 w2,
    (cur_state w = TAP_IDLE -> w1 = w) /\
    (cur_state w <> TAP_IDLE ->
     exists r0,
       ulink_queue_statemove (with_end_state TAP_IDLE w) = Done r0 w1) /\
    ulink_append_clock_tck_cmd (u16 num_cycles) w1 = Done r w2 /\
    (r <> ERROR_OK -> w' = w2) /\
    (r = ERROR_OK ->
     (end_state = cur_state w2 -> w' = w2) /\
     (end_state <> cur_state w2 ->
      exists r3,
        ulink_queue_statemove (with_end_state end_state w2) = Done r3 w')).
Proof.
  intros Hstable Hrun. unfold ulink_queue_runtest in Hrun.
  apply bind_Done in Hrun as (cur & w0 & Hget & Hrun).
  unfold tap_get_state, get in Hget. injection Hget as <- <-.
  apply bind_Done in Hrun as ([] & w1 & Hmove & Hrun).
  apply bind_Done in Hrun as (r1 & w2 & Htck & Hrun).
  exists w1, w2.
  assert ((cur_state w = TAP_IDLE -> w1 = w) /\
          (cur_state w <> TAP_IDLE ->
           exists r0,
             ulink_queue_statemove (with_end_state TAP_IDLE w) = Done r0 w1))
    as [Hidle Hmoved].
  { destruct (tap_state_eqb (cur_state w) TAP_IDLE) eqn:E; cbn [negb] in Hmove.
    - apply tap_state_eqb_eq in E. injection Hmove as <-.
      split; [reflexivity | congruence].
    - assert (cur_state w <> TAP_IDLE) as Hne.
      { intros Heq. apply tap_state_eqb_eq in Heq. congruence. }
      apply bind_Done in Hmove as ([] & wa & Hset & Hmove).
      unfold ulink_set_end_state in Hset. rewrite Hstable in Hset.
      unfold tap_set_end_state, modify in Hset. injection Hset as <-.
      apply bind_Done in Hmove as (r0 & wb & Hsm & Hret).
      injection Hret as <-. split; [congruence | eauto]. }
  split; [exact Hidle|]. split; [exact Hmoved|].
  destruct r1; cbn [negb is_ok] in Hrun.
  2,3: injection Hrun as <- <-;
       (split; [exact Htck|]); (split; [reflexivity | discriminate]).
  apply bind_Done in Hrun as (cur2 & w3 & Hget & Hrun).
  unfold tap_get_state, get in Hget. injection Hget as <- <-.
  apply bind_Done in Hrun as ([] & w4 & Hmove2 & Hret).
  injection Hret as <- <-.
  split; [exact Htck|]. split; [congruence|]. intros _.
  destruct (tap_state_eqb end_state (cur_state w2)) eqn:E; cbn [negb] in Hmove2.
  - apply tap_state_eqb_eq in E. injection Hmove2 as <-.
    split; [reflexivity | congruence].
  - assert (end_state <> cur_state w2) as Hne.
    { intros Heq. apply tap_state_eqb_eq in Heq. congruence. }
    apply bind_Done in Hmove2 as ([] & wa & Hset & Hmove2).
    unfold tap_set_end_state, modify in Hset. injection Hset as <-.
    apply bind_Done in Hmove2 as (r3 & wb & Hsm & Hret).
    injection Hret as <-. split; [congruence | eauto].
Qed.

(** X5. With Run-Test/Idle a stable state, [ulink_queue_runtest] always
    returns, and what it returns is the code of its clock-tck append alone:
    the append is made from the world the move to Run-Test/Idle has left,
    whatever that move returned, and after a successful append the move to
    the end state is made and [ERROR_OK] returned, whatever that move
    returns.  On [ERROR_OK] the commands emitted are one clock-tck command,
    whose two payload bytes are the low 16 bits of the cycle count in
    little-endian order, with at most one clock-tms command before it and at
    most one after it; on an error no clock-tck command is emitted and
    nothing is done after the failed append.  A clock-tms command comes
    first only if the TAP was not in Run-Test/Idle, and when one comes last
    the TAP is in the requested end state. *)
Theorem runtest_emits_clock_tck num_cycles end_state w :
  tap_is_state_stable TAP_IDLE = true ->
  exists w1 r w2 w' tck pre post,
    (cur_state w = TAP_IDLE -> w1 = w) /\
    (cur_state w <> TAP_IDLE ->
     exists r0,
       ulink_queue_statemove (with_end_state TAP_IDLE w) = Done r0 w1) /\
    ulink_append_clock_tck_cmd (u16 num_cycles) w1 = Done r w2 /\
    ulink_queue_runtest num_cycles end_state w = Done r w' /\
    (r <> ERROR_OK -> w' = w2) /\
    (r = ERROR_OK ->
     (end_state = cur_state w2 -> w' = w2) /\
     (end_state <> cur_state w2 ->
      exists r3,
        ulink_queue_statemove (with_end_state end_state w2) = Done r3 w')) /\
    id tck = CMD_CLOCK_TCK /\
    payload_out tck = Some [num_cycles mod 256; (num_cycles / 256) mod 256] /\
    enqueued (trace w')
    = enqueued (trace w) ++ pre ++ (if is_ok r then tck :: post else []) /\
    (length pre <= 1)%nat /\ (length post <= 1)%nat /\
    Forall (fun c => id c = CMD_CLOCK_TMS) (pre ++ post) /\
    (pre <> [] -> cur_state w <> TAP_IDLE) /\
    (post <> [] -> cur_state w' = end_state).
Proof.
  intros Hstable.
  destruct (runtest_runs num_cycles end_state w Hstable)
    as (r & w' & Hrun & pre & post & Henq & Lpre & Lpost & F & _ & Hn & Hp).
  destruct (runtest_code num_cycles end_state w r w' Hstable Hrun)
    as (w1 & w2 & Hidle & Hmoved & Htck & Hfail & Hok).
  destruct (tck_cmd_payload num_cycles) as [Hid Hpay].
  exists w1, r, w2, w', (tck_cmd (u16 num_cycles)), pre, post.
  repeat split; auto; apply Hok; assumption.
Qed.

End Moves.

(** ** Path moves *)

Section Pathmove.

Context `{Ext : Externals}.

Lemma translate_from_pathmove reqs w :
  translate_from (filter (fun c => negb (is_pathmove c)) reqs) w
  = translate_from reqs w.
Proof.
  revert w. induction reqs as [|c reqs IH]; intros w; [reflexivity|].
  rewrite filter_cons.
  destruct c; cbn [is_pathmove negb];
    (destruct (decide _) as [Hy | Hn];
     [try (exfalso; exact Hy) | try (exfalso; apply Hn; exact I)]).
  5:{ cbn [translate_from dispatch]. rewrite bind_eq. apply IH. }
  all: cbn [translate_from]; rewrite !bind_eq;
       destruct (dispatch _ w) as [r w1 | st w1]; [|reflexivity];
       destruct (negb (is_ok r)); [reflexivity | apply IH].
Qed.

(** X6. Path-move requests are accepted and dropped: a request list and the
    same list without its path-move requests are translated and executed to
    the same result and the same world.  No command is generated for a path
    move and the TAP follower does not move. *)
Theorem pathmove_is_dropped reqs w :
  ulink_execute_queue (filter (fun c => negb (is_pathmove c)) reqs) w
  = ulink_execute_queue reqs w.
Proof.
  unfold ulink_execute_queue. rewrite !bind_eq, translate_from_pathmove.
  reflexivity.
Qed.

End Pathmove.

(** ** The TAP follower over a scan *)

Section ScanFollower.

Context `{Ext : Externals}.

Lemma scan_loop_runs s :
  forall bytecount tdi tdo w,
    runs (scan_loop s bytecount tdi tdo) w (fun r w' =>
      cur_state w' = cur_state w /\
      end_state_follower w' = end_state_follower w /\
      (bytecount <= 0 -> r = ERROR_OK /\ w' = w)).
Proof.
  intros bytecount.
  induction bytecount as [bytecount IH] using (well_founded_induction (Z.lt_wf 0)).
  intros tdi tdo w.
  rewrite scan_loop_eq.
  destruct (Z.gtb_spec bytecount 0) as [Hpos|]; [|step; auto].
  cbv zeta.
  assert (forall tcs tss tce tse bits pp k,
    (forall w1, runs k w1 (fun _ w' =>
       cur_state w' = cur_state w1 /\
       end_state_follower w' = end_state_follower w1)) ->
    runs (let* r := ulink_append_scan_cmd (type s) bits tdi (tdo_buffer_start s)
                      tdo tcs tss tce tse (origin s) pp in
          if negb (is_ok r) then ret r else k) w
      (fun _ w' =>
         cur_state w' = cur_state w /\
         end_state_follower w' = end_state_follower w /\
         (bytecount <= 0 -> False))) as Hbody.
  { intros tcs tss tce tse bits pp k Hk.
    call append_scan_cmd_runs. intros r w1 [Hres _].
    apply append_result_enqueued in Hres. destruct Hres as (_ & Hc & He).
    destruct (negb (is_ok r)).
    - step. repeat split; auto; lia.
    - eapply runs_weaken; [apply Hk|]. intros r2 w2 [Hc2 He2].
      repeat split; try congruence; lia. }
  assert (forall bc tdi1 tdo1, bc < bytecount -> 0 <= bc ->
    forall w1, runs (scan_loop s bc tdi1 tdo1) w1 (fun _ w' =>
       cur_state w' = cur_state w1 /\
       end_state_follower w' = end_state_follower w1)) as Hrec.
  { intros bc tdi1 tdo1 Hlt Hbc w1.
    eapply runs_weaken; [apply IH; lia|]. intros r w' (Hc & He & _). auto. }
  assert (forall (Q : retcode -> world -> Prop) m,
    runs m w (fun _ w' => cur_state w' = cur_state w /\
                          end_state_follower w' = end_state_follower w /\
                          (bytecount <= 0 -> False)) ->
    runs m w (fun r w' => cur_state w' = cur_state w /\
                          end_state_follower w' = end_state_follower w /\
                          (bytecount <= 0 -> r = ERROR_OK /\ w' = w))) as Hw.
  { intros _ m Hm. eapply runs_weaken; [exact Hm|].
    intros r w' (Hc & He & Hf). repeat split; auto; contradiction. }
  destruct (Z.gtb_spec bytecount 58); [|destruct (bytecount =? 58)].
  all: apply (Hw (fun _ _ => True)), Hbody, Hrec; lia.
Qed.

Lemma queue_scan_runs scan w :
  tap_is_state_stable (shift_state scan) = true ->
  runs (ulink_queue_scan scan) w (fun r w' =>
    (r = ERROR_OK /\
     cur_state w' = scan_end_state scan /\
     end_state_follower w' = scan_end_state scan) \/
    (r <> ERROR_OK /\
     ((scan_has_in (jtag_scan_type scan) = true /\
       cur_state w' = cur_state w /\
       end_state_follower w' = end_state_follower w /\
       trace w' = trace w /\ ulink_handle w' = ulink_handle w) \/
      (cur_state w' = shift_state scan /\
       end_state_follower w' = scan_end_state scan)))).
Proof.
  intros Hstable. unfold ulink_queue_scan. cbv zeta.
  apply runs_bind.
  assert (runs
    (if scan_has_in (jtag_scan_type scan) then
       let* ok := calloc_ok in
       if negb ok then ret None
       else let* p := new_block
                        (Z.quot (u32 (u32 (jtag_scan_size scan) + 8 - 1)) 8) in
            ret (Some (Some p))
     else ret (Some None))
    w (fun a w1 =>
         cur_state w1 = cur_state w /\
         end_state_follower w1 = end_state_follower w /\
         trace w1 = trace w /\ ulink_handle w1 = ulink_handle w /\
         (a = None -> scan_has_in (jtag_scan_type scan) = true))) as Halloc.
  { destruct (scan_has_in (jtag_scan_type scan)).
    - unfold calloc_ok, new_block, runs, bind, ret.
      destruct (pop true (calloc_tape w)) as [[|] t]; simpl;
        eexists _, _; (split; [reflexivity|]); simpl; repeat split; auto;
        discriminate.
    - step. repeat split; auto. discriminate. }
  eapply runs_weaken; [exact Halloc|].
  intros [tdo_start|] w1 (Hc1 & He1 & T1 & Hh1 & Hin); cbv beta iota.
  2:{ step. right. split; [discriminate|]. left. auto. }
  apply runs_bind.
  assert (runs
    (if ir_scan scan
     then scan_transitions TAP_IRSHIFT TAP_IRPAUSE (scan_end_state scan)
     else scan_transitions TAP_DRSHIFT TAP_DRPAUSE (scan_end_state scan))
    w1 (fun _ w2 => cur_state w2 = shift_state scan /\
                    end_state_follower w2 = scan_end_state scan)) as Htr.
  { unfold shift_state in *. unfold scan_transitions, ulink_set_end_state.
    destruct (ir_scan scan); rewrite Hstable;
      unfold tap_set_end_state, tap_set_state, tap_get_state, tap_get_end_state;
      repeat step; simpl; auto. }
  eapply runs_weaken; [exact Htr|].
  intros [[[[fc fs] [lc ls]] [pc ps]] [rc rs]] w2 [Hc2 He2]. cbv beta iota.
  call scan_loop_runs. intros r w3 (Hc3 & He3 & _).
  destruct r; simpl negb; cbv iota.
  - unfold tap_set_state. step. step. step. left. simpl.
    repeat split; auto. congruence.
  - step. right. split; [discriminate|]. right. split; congruence.
  - step. right. split; [discriminate|]. right. split; congruence.
Qed.

(** X7. With the shift state stable, [ulink_queue_scan] always returns.  On
    [ERROR_OK] the follower's current state and end state are both the end
    state the request asks for, which is taken as it is, stable or not.  On
    an error either the TDO buffer could not be allocated and nothing has
    changed, or the follower is left in the shift state with the requested
    end state: the follower's move to the shift state is not taken back. *)
Theorem queue_scan_follower scan w :
  tap_is_state_stable (shift_state scan) = true ->
  exists r w',
    ulink_queue_scan scan w = Done r w' /\
    (r = ERROR_OK ->
     cur_state w' = scan_end_state scan /\
     end_state_follower w' = scan_end_state scan) /\
    (r <> ERROR_OK ->
     (scan_has_in (jtag_scan_type scan) = true /\
      cur_state w' = cur_state w /\
      end_state_follower w' = end_state_follower w /\
      trace w' = trace w /\ ulink_handle w' = ulink_handle w) \/
     (cur_state w' = shift_state scan /\
      end_state_follower w' = scan_end_state scan)).
Proof.
  intros Hstable.
  destruct (queue_scan_runs scan w Hstable) as (r & w' & Hrun & Hres).
  exists r, w'. split; [exact Hrun|].
  destruct Hres as [(-> & Hc & He) | (Hr & Hres)].
  - split; [auto | congruence].
  - split; [congruence | auto].
Qed.

End ScanFollower.

Section ZeroBitScan.

Context `{Ext : Externals}.

(** X8. A scan of zero bits, with the shift state stable, emits no command
    and leaves the queue alone, and when it returns [ERROR_OK] the follower
    stands in the requested end state although no TMS sequence has been
    queued to move the TAP there.  For a scan type without TDO it always
    returns [ERROR_OK]; for one with TDO the zero-byte buffer it has
    allocated is still allocated when it returns. *)
Theorem zero_bit_scan scan w :
  u32 (jtag_scan_size scan) = 0 ->
  tap_is_state_stable (shift_state scan) = true ->
  exists r w',
    ulink_queue_scan scan w = Done r w' /\
    trace w' = trace w /\ ulink_handle w' = ulink_handle w /\
    (scan_has_in (jtag_scan_type scan) = false ->
     r = ERROR_OK /\ heap w' = heap w) /\
    (r = ERROR_OK ->
     cur_state w' = scan_end_state scan /\
     end_state_follower w' = scan_end_state scan /\
     (scan_has_in (jtag_scan_type scan) = true ->
      heap w' = <[next_block w := []]> (heap w))).
Proof.
  intros Hz Hst. unfold ulink_queue_scan. rewrite Hz.
  change (Z.quot (u32 (0 + 8 - 1)) 8) with 0. cbv zeta.
  unfold shift_state in Hst.
  assert (forall s tdi tdo w0, scan_loop s 0 tdi tdo w0 = Done ERROR_OK w0) as Hloop.
  { intros s tdi tdo w0. rewrite scan_loop_eq. reflexivity. }
  unfold calloc_ok, new_block, scan_transitions, ulink_set_end_state,
    tap_set_end_state, tap_set_state, tap_get_state, tap_get_end_state.
  unfold bind, ret, modify, get.
  destruct (scan_has_in (jtag_scan_type scan)) eqn:Ein.
  - destruct (pop true (calloc_tape w)) as [[|] t]; cbn [negb]; cbn beta iota.
    + destruct (ir_scan scan); rewrite Hst; cbn beta iota; rewrite Hloop;
        eexists _, _; (split; [reflexivity|]); simpl;
        repeat split; auto; discriminate.
    + eexists _, _. split; [reflexivity|]. simpl.
      repeat split; auto; discriminate.
  - destruct (ir_scan scan); rewrite Hst; cbn beta iota; rewrite Hloop;
      eexists _, _; (split; [reflexivity|]); simpl;
      repeat split; auto; discriminate.
Qed.

End ZeroBitScan.

(** ** A scan from the request to the captured data *)

Section RoundTrip.

Context `{Ext : Externals}.

Lemma calloc_ok_exact w : calloc_tape w = [] -> calloc_ok w = Done true w.
Proof.
  intros E. unfold calloc_ok. rewrite E. simpl.
  f_equal. destruct w; simpl in *; subst; reflexivity.
Qed.

Lemma allocate_out_exact cmd size w :
  calloc_tape w = [] -> payload_out cmd = None ->
  ulink_allocate_payload cmd size PAYLOAD_DIRECTION_OUT w
  = Done (ERROR_OK,
          set_payload_out (Some (replicate (Z.to_nat size) 0)) (u8 size) cmd) w.
Proof.
  intros E Hnull. unfold ulink_allocate_payload.
  rewrite bind_eq, (calloc_ok_exact w E). simpl. rewrite Hnull. reflexivity.
Qed.

Lemma link_cmd_exact cmd w : link_cmd cmd w = Done tt (linked cmd w).
Proof.
  unfold link_cmd, linked, bind, get, modify.
  destruct (queue (ulink_handle w)); reflexivity.
Qed.

Lemma append_queue_exact cmd w :
  fits cmd (queue (ulink_handle w)) ->
  ulink_append_queue cmd w = Done ERROR_OK (linked cmd w).
Proof.
  intros Hf. apply fits_dec in Hf. unfold ulink_append_queue.
  rewrite bind_eq. unfold get at 1. cbv beta iota zeta.
  rewrite Hf. unfold bind, ret. cbn [negb is_ok]. cbv beta iota.
  rewrite link_cmd_exact. reflexivity.
Qed.

Lemma append_scan_cmd_exact t bits tdi tdo_start tdo tcs tss tce tse origin pp w :
  calloc_tape w = [] -> t <> SCAN_UNKNOWN -> bits <= 58 * 8 ->
  fits (scan_cmd t bits tdi tdo_start tdo tcs tss tce tse origin pp)
       (queue (ulink_handle w)) ->
  ulink_append_scan_cmd t bits tdi tdo_start tdo tcs tss tce tse origin pp w
  = Done ERROR_OK
      (linked (scan_cmd t bits tdi tdo_start tdo tcs tss tce tse origin pp) w).
Proof.
  intros E Ht Hbits Hfits. unfold ulink_append_scan_cmd.
  rewrite bind_eq, (calloc_ok_exact w E). cbv beta iota zeta.
  cbn [negb]. cbv beta iota.
  destruct (Z.gtb_spec bits (58 * 8)) as [Hbig|_]; [lia|].
  cbv beta iota. rewrite bind_eq.
  destruct t; [| | |congruence];
    rewrite allocate_out_exact by (auto; reflexivity);
    cbv beta iota; simpl negb; cbv iota;
    apply append_queue_exact; exact Hfits.
Qed.

(** Storing into a live block overwrites its bytes in place. *)
Lemma store_bytes_block b data : forall i pre old post h,
  0 <= i -> length pre = Z.to_nat i -> length old = length data ->
  store_bytes (Some {| blk := b; ofs := 0 |}) i data (<[b := pre ++ old ++ post]> h)
  = <[b := pre ++ data ++ post]> h.
Proof.
  induction data as [|x data IH]; intros i pre old post h Hi Hpre Hold.
  - destruct old; [reflexivity | discriminate].
  - destruct old as [|o old]; [discriminate|]. injection Hold as Hold.
    cbn [store_bytes]. unfold store_byte. cbn [ofs blk].
    destruct (Z.ltb_spec (0 + i) 0); [lia|].
    rewrite alter_insert_eq.
    replace (Z.to_nat (0 + i)) with (length pre + 0)%nat by lia.
    rewrite insert_app_r. cbn [app]. simpl insert.
    replace (pre ++ x :: old ++ post) with ((pre ++ [x]) ++ old ++ post)
      by (rewrite <- app_assoc; reflexivity).
    rewrite (IH (i + 1) (pre ++ [x]) old post h); [| lia | | exact Hold].
    + rewrite <- app_assoc. reflexivity.
    + rewrite length_app. simpl. lia.
Qed.

(** A complete exchange with an adapter that takes the whole packet and
    answers with exactly the bytes the queue expects. *)
Lemma execute_exact timeout data rest w :
  let q := queue (ulink_handle w) in
  Forall well_formed q -> out_bytes q <= 64 ->
  0 < in_bytes q <= 64 ->
  bulk_write_tape w = [] ->
  bulk_read_tape w = ReadData data :: rest ->
  Z.of_nat (length data) = in_bytes q ->
  ulink_execute_queued_commands timeout w
  = Done ERROR_OK
      (with_heap (scatter q data (heap w)) (next_block w)
         (log (EvBulkRead 64 timeout)
            (with_bulk_read_tape rest
               (log (EvBulkWrite (packet_bytes q) (out_bytes q) timeout)
                  (with_bulk_write_tape [] w))))).
Proof.
  intros q Hwf Hout Hin Hwt Hrt Hlen.
  destruct (pack_from_fresh q Hwf Hout) as (Htake & Hco & Hci & Hblen).
  unfold ulink_execute_queued_commands.
  rewrite bind_eq. unfold get at 1. cbv beta iota. fold q. cbv zeta.
  set (p := pack_from q _) in *.
  rewrite bind_eq. unfold usb_bulk_write.
  rewrite Htake, Hco, Hwt. cbn [pop]. cbv beta iota.
  destruct (Z.ltb_spec (out_bytes q) 0) as [Hneg|_].
  { pose proof (packet_bytes_length q Hwf). lia. }
  rewrite Z.eqb_refl. cbn [negb]. rewrite Hci.
  destruct (Z.gtb_spec (in_bytes q) 0) as [_|]; [|lia].
  rewrite bind_eq. unfold usb_bulk_read.
  cbn [bulk_read_tape log with_bulk_write_tape]. rewrite Hrt. cbn [pop].
  cbv beta iota zeta.
  assert (take (Z.to_nat 64) data = data) as Etake.
  { apply take_ge. lia. }
  rewrite Etake.
  destruct (Z.ltb_spec (Z.of_nat (length data)) 0); [lia|].
  rewrite Hlen, Z.eqb_refl. cbn [negb].
  rewrite bind_eq. unfold modify at 1. cbv beta iota. unfold ret.
  f_equal. cbn [heap next_block log with_bulk_read_tape with_bulk_write_tape].
  rewrite write_back_from_spec; [| exact Hwf | lia |].
  - rewrite drop_0, scatter_app by (auto; lia). reflexivity.
  - rewrite length_app. lia.
Qed.

Lemma scan_cmd_in_fields t bits tdi tdo_start tdo tcs tss tce tse origin pp :
  scan_has_in t = true ->
  let c := scan_cmd t bits tdi tdo_start tdo tcs tss tce tse origin pp in
  payload_in_start c = tdo_start /\ payload_in c = tdo /\
  payload_in_size c = u8 (DIV_ROUND_UP bits 8) /\
  needs_postprocessing c = pp /\ free_payload_in_start c = pp /\
  cmd_origin c = origin.
Proof.
  intros Hin. unfold scan_cmd, fill_scan_cmd. cbv zeta. rewrite Hin.
  repeat split; reflexivity.
Qed.

Lemma scan_loop_end s tdi tdo w : scan_loop s 0 tdi tdo w = Done ERROR_OK w.
Proof. rewrite scan_loop_eq. reflexivity. Qed.

(** A scan that fits one command: the loop runs once. *)
Lemma scan_loop_single s bytecount tdi tdo w :
  0 < bytecount <= 58 -> bytecount = scan_size_bytes s ->
  calloc_tape w = [] -> type s <> SCAN_UNKNOWN ->
  let bits := if bytecount =? 58 then 58 * 8 else to_int (bits_last_scan s) in
  let c := scan_cmd (type s) bits tdi (tdo_buffer_start s) tdo
             (first_tms_count s) (first_tms_sequence s)
             (last_tms_count s) (last_tms_sequence s) (origin s) true in
  bits <= 58 * 8 ->
  fits c (queue (ulink_handle w)) ->
  scan_loop s bytecount tdi tdo w = Done ERROR_OK (linked c w).
Proof.
  intros Hbc Hfirst E Ht bits c Hbits Hfits. subst c bits.
  rewrite scan_loop_eq.
  destruct (Z.gtb_spec bytecount 0) as [_|]; [|lia].
  cbv zeta. rewrite <- Hfirst, Z.eqb_refl.
  destruct (Z.gtb_spec bytecount 58) as [|_]; [lia|].
  destruct (bytecount =? 58).
  - rewrite bind_eq, append_scan_cmd_exact by (auto; lia).
    cbn [negb is_ok]. apply scan_loop_end.
  - rewrite bind_eq, append_scan_cmd_exact by auto.
    cbn [negb is_ok]. apply scan_loop_end.
Qed.

Lemma scan_transitions_exact shift pause end_state w :
  tap_is_state_stable shift = true ->
  scan_transitions shift pause end_state w
  = Done (u8 (tap_get_tms_path_len (cur_state w) shift),
          u8 (tap_get_tms_path (cur_state w) shift),
          (u8 (tap_get_tms_path_len shift end_state),
           u8 (tap_get_tms_path shift end_state)),
          (u8 (tap_get_tms_path_len shift pause),
           u8 (tap_get_tms_path shift pause)),
          (u8 (tap_get_tms_path_len pause shift),
           u8 (tap_get_tms_path pause shift)))
         (with_end_state end_state
            (with_cur_state shift (with_end_state shift w))).
Proof.
  intros Hst. unfold scan_transitions, ulink_set_end_state. rewrite Hst.
  reflexivity.
Qed.

(** The world a scan with TDO that fits one command leaves behind when
    nothing fails: a fresh TDO buffer, and one command in the queue that
    views and owns it. *)
Lemma queue_scan_single scan w :
  let N := jtag_scan_size scan in
  let bytes := (N + 7) / 8 in
  let p := {| blk := next_block w; ofs := 0 |} in
  1 <= N <= 58 * 8 ->
  scan_has_in (jtag_scan_type scan) = true ->
  tap_is_state_stable (shift_state scan) = true ->
  calloc_tape w = [] ->
  queue (ulink_handle w) = [] ->
  exists c w2,
    ulink_queue_scan scan w = Done ERROR_OK w2 /\
    ulink_handle w2 = {| commands_in_queue := 1; queue := [c] |} /\
    heap w2 = <[next_block w := replicate (Z.to_nat bytes) 0]> (heap w) /\
    next_block w2 = S (next_block w) /\
    trace w2 = trace w ++ [EvEnqueue c] /\
    bulk_write_tape w2 = bulk_write_tape w /\
    bulk_read_tape w2 = bulk_read_tape w /\
    read_buffer_tape w2 = read_buffer_tape w /\
    cur_state w2 = scan_end_state scan /\
    end_state_follower w2 = scan_end_state scan /\
    within_packet c /\
    payload_in_start c = Some p /\ payload_in c = Some p /\
    payload_in_size c = bytes /\
    needs_postprocessing c = true /\ free_payload_in_start c = true /\
    cmd_origin c = Some (JTAG_SCAN scan).
Proof.
  intros N bytes p HN Hin Hst E Hq.
  assert (0 < bytes <= 58) as Hbytes.
  { subst bytes. split.
    - apply Z.div_str_pos. lia.
    - apply Z.lt_succ_r, Z.div_lt_upper_bound; lia. }
  assert (u32 N = N) as EN by (apply Z.mod_small; lia).
  unfold ulink_queue_scan. fold N.
  rewrite (scan_bytes N) by lia. fold bytes. rewrite EN. cbv zeta.
  rewrite Hin.
  rewrite bind_eq, bind_eq, (calloc_ok_exact w E). cbv beta iota.
  cbn [negb]. cbv beta iota.
  rewrite bind_eq. unfold new_block at 1. cbv beta iota zeta.
  unfold ret at 1. cbv beta iota.
  set (w1 := with_heap _ _ w).
  assert (type_ok : jtag_scan_type scan <> SCAN_UNKNOWN).
  { intros Eu. rewrite Eu in Hin. discriminate. }
  set (tdi := if scan_has_out (jtag_scan_type scan)
              then Some (jtag_build_buffer scan) else None).
  rewrite bind_eq.
  assert (exists tr,
    (if ir_scan scan
     then scan_transitions TAP_IRSHIFT TAP_IRPAUSE (scan_end_state scan)
     else scan_transitions TAP_DRSHIFT TAP_DRPAUSE (scan_end_state scan)) w1
    = Done tr (with_end_state (scan_end_state scan)
                 (with_cur_state (shift_state scan)
                    (with_end_state (shift_state scan) w1)))) as (tr & ->).
  { unfold shift_state in *.
    destruct (ir_scan scan); rewrite scan_transitions_exact by exact Hst;
      eexists; reflexivity. }
  cbv beta iota.
  destruct tr as [[[[fc fs] [lc ls]] [pc ps]] [rc rs]].
  set (w2 := with_end_state _ _).
  set (bits := if bytes =? 58 then 58 * 8
               else to_int (u32 (N - Z.quot bytes 58 * 58 * 8))).
  assert (bits = if bytes =? 58 then 58 * 8 else N) as Ebits.
  { subst bits. destruct (Z.eqb_spec bytes 58); [reflexivity|].
    rewrite Z.quot_small by lia. rewrite Z.sub_0_r.
    rewrite EN. unfold to_int. cbv zeta. rewrite EN.
    destruct (Z.ltb_spec N 2147483648); [reflexivity | lia]. }
  assert (0 <= bits <= 58 * 8) as Hbits.
  { rewrite Ebits. destruct (bytes =? 58); lia. }
  assert (DIV_ROUND_UP bits 8 = bytes) as Hdiv.
  { rewrite Ebits. destruct (Z.eqb_spec bytes 58) as [-> | _]; [reflexivity|].
    unfold DIV_ROUND_UP. rewrite Z.quot_div_nonneg by lia.
    subst bytes. f_equal. lia. }
  rewrite bind_eq.
  match goal with |- context [scan_loop ?s0 _ _ _ _] => set (s := s0) end.
  set (c := scan_cmd (jtag_scan_type scan) bits tdi (Some p) (Some p)
              fc fs lc ls (Some (JTAG_SCAN scan)) true).
  pose proof (scan_cmd_within_packet (jtag_scan_type scan) bits tdi (Some p)
                (Some p) fc fs lc ls (Some (JTAG_SCAN scan)) true Hbits) as Hwp.
  fold c in Hwp. fold p.
  rewrite (scan_loop_single s bytes tdi (Some p) w2); try assumption;
    try reflexivity; try lia.
  2:{ exact (proj2 Hbits). }
  2:{ change (queue (ulink_handle w2)) with (queue (ulink_handle w)).
      rewrite Hq. destruct Hwp as (_ & Ho & Hi).
      change (fits c []). clearbody c.
      unfold fits, out_bytes, in_bytes. cbn [foldr]. lia. }
  cbn [negb is_ok]. cbv beta iota.
  subst s. cbn [type tdo_buffer_start first_tms_count first_tms_sequence
                last_tms_count last_tms_sequence origin bits_last_scan].
  fold bits. fold c.
  destruct (scan_cmd_in_fields (jtag_scan_type scan) bits tdi (Some p) (Some p)
              fc fs lc ls (Some (JTAG_SCAN scan)) true Hin)
    as (Hps & Hpi & Hsz & Hpp & Hfr & Hor).
  fold c in Hps, Hpi, Hsz, Hpp, Hfr, Hor.
  rewrite Hdiv, u8_small in Hsz by lia.
  exists c. eexists. split; [reflexivity|].
  unfold linked.
  change (queue (ulink_handle (log (EvEnqueue c) w2)))
    with (queue (ulink_handle w)).
  change (queue (ulink_handle w2)) with (queue (ulink_handle w)).
  rewrite Hq.
  split; [reflexivity|]. split; [reflexivity|]. split; [reflexivity|].
  split; [reflexivity|]. split; [reflexivity|]. split; [reflexivity|].
  split; [reflexivity|]. split; [reflexivity|]. split; [reflexivity|].
  split; [exact Hwp|]. auto 10.
Qed.

(** X9. A scan with TDO that fits one command, from the request to the
    captured data.  With an empty queue, an allocator and a bulk OUT
    transfer that do not fail, and an adapter that answers with exactly the
    [ceil(N / 8)] bytes of the scan, [ulink_execute_queue] on the single
    scan request queues one command, sends it in one packet, reads the
    answer and hands the received bytes, unchanged and in order, to
    [jtag_read_buffer] together with the request; what it returns is the
    answer of [jtag_read_buffer].  When that answer is [ERROR_OK] the queue
    is empty again and the TDO buffer has been freed. *)
Theorem scan_round_trip scan data rest w :
  let N := jtag_scan_size scan in
  let p := Some {| blk := next_block w; ofs := 0 |} in
  let r := fst (pop ERROR_OK (read_buffer_tape w)) in
  1 <= N <= 58 * 8 ->
  scan_has_in (jtag_scan_type scan) = true ->
  tap_is_state_stable (shift_state scan) = true ->
  calloc_tape w = [] -> bulk_write_tape w = [] ->
  queue (ulink_handle w) = [] ->
  bulk_read_tape w = ReadData data :: rest ->
  Z.of_nat (length data) = (N + 7) / 8 ->
  exists c w',
    ulink_execute_queue [JTAG_SCAN scan] w = Done r w' /\
    trace w' = trace w ++
      [EvEnqueue c;
       EvBulkWrite (packet_bytes [c]) (out_bytes [c]) USB_TIMEOUT;
       EvBulkRead 64 USB_TIMEOUT;
       EvReadBuffer p data scan] /\
    cmd_origin c = Some (JTAG_SCAN scan) /\
    (r = ERROR_OK ->
     ulink_handle w' = {| commands_in_queue := 0; queue := [] |} /\
     heap w' = delete (next_block w) (heap w)).
Proof.
  intros N p r HN Hin Hst Ec Ew Hq Hread Hlen.
  destruct (queue_scan_single scan w HN Hin Hst Ec Hq)
    as (c & w2 & Hscan & Hh & Hheap & Hnb & Htr & Hwt & Hrt & Hbt & _ & _
        & Hwp & Hps & Hpi & Hsz & Hpp & Hfr & Hor).
  fold N in Hheap, Hsz.
  assert (0 < (N + 7) / 8 <= 58) as Hbytes.
  { split.
    - apply Z.div_str_pos. lia.
    - apply Z.lt_succ_r, Z.div_lt_upper_bound; lia. }
  destruct Hwp as ((Hwf1 & Hwf2) & Ho & Hi).
  assert (Forall well_formed [c]) as Hwf by (repeat constructor; auto).
  assert (out_bytes [c] <= 64) as Hout.
  { unfold out_bytes. cbn [foldr]. lia. }
  assert (in_bytes [c] = (N + 7) / 8) as Hinb.
  { unfold in_bytes. cbn [foldr]. lia. }
  (* the exchange *)
  pose proof (execute_exact USB_TIMEOUT data rest w2) as Hex.
  cbv zeta in Hex. rewrite Hh in Hex. cbn [queue] in Hex.
  specialize (Hex Hwf Hout).
  rewrite Hinb, Hwt, Hrt in Hex.
  specialize (Hex ltac:(lia) Ew Hread Hlen).
  rewrite Hheap in Hex.
  (* what the exchange stores in the TDO buffer *)
  assert (scatter [c] data
            (<[next_block w := replicate (Z.to_nat ((N + 7) / 8)) 0]> (heap w))
          = <[next_block w := data]> (heap w)) as Hsc.
  { cbn [scatter]. rewrite Hsz, Hpi.
    rewrite take_ge by lia.
    pose proof (store_bytes_block (next_block w) data 0 []
                  (replicate (Z.to_nat ((N + 7) / 8)) 0) [] (heap w)) as Hst0.
    rewrite !app_nil_r in Hst0. cbn [app] in Hst0.
    apply Hst0; [lia | reflexivity | rewrite length_replicate; lia]. }
  rewrite Hsc in Hex.
  set (w3 := with_heap _ _ _) in Hex.
  (* post-processing *)
  assert (ulink_post_process_queue w3
          = Done r (log (EvReadBuffer p data scan)
                      (with_read_buffer_tape
                         (snd (pop ERROR_OK (read_buffer_tape w))) w3))) as Hpost.
  { unfold ulink_post_process_queue. rewrite bind_eq. unfold get at 1.
    cbv beta iota.
    change (ulink_handle w3) with (ulink_handle w2). rewrite Hh.
    cbn [queue post_process_from]. rewrite Hpp, Hor.
    rewrite bind_eq. unfold ulink_post_process_scan. rewrite Hor, Hps.
    assert (jtag_read_buffer p scan w3
            = Done r (log (EvReadBuffer p data scan)
                        (with_read_buffer_tape
                           (snd (pop ERROR_OK (read_buffer_tape w))) w3))) as Hrb.
    { unfold jtag_read_buffer.
      change (read_buffer_tape w3) with (read_buffer_tape w2). rewrite Hbt.
      subst r. destruct (pop ERROR_OK (read_buffer_tape w)) as [r0 t0].
      cbn [fst snd]. do 3 f_equal.
      subst p. unfold load_from. cbn [blk ofs].
      change (heap w3) with (<[next_block w := data]> (heap w)).
      rewrite lookup_insert_eq. reflexivity. }
    fold p.
    destruct (jtag_scan_type scan); try discriminate Hin; rewrite Hrb;
      destruct r; reflexivity. }
  set (w4 := log _ _) in Hpost.
  (* the whole *)
  unfold ulink_execute_queue. rewrite bind_eq.
  cbn [translate_from]. rewrite bind_eq. cbn [dispatch]. rewrite Hscan.
  cbv beta iota. cbn [negb is_ok]. cbv beta iota. unfold ret at 1.
  cbv beta iota. cbn [negb is_ok]. cbv beta iota.
  rewrite bind_eq. unfold get at 1. cbv beta iota.
  rewrite Hh. cbn [commands_in_queue]. change (1 >? 0) with true. cbv iota.
  rewrite bind_eq, Hex. cbv beta iota. cbn [negb is_ok]. cbv beta iota.
  rewrite bind_eq, Hpost. cbv beta iota.
  exists c.
  destruct r eqn:Er; cbn [negb is_ok]; cbv beta iota.
  - unfold ulink_clear_queue. rewrite bind_eq, bind_eq. unfold get at 1.
    cbv beta iota. rewrite bind_eq.
    change (ulink_handle w4) with (ulink_handle w2). rewrite Hh.
    cbn [queue clear_from]. rewrite Hfr, Hps.
    eexists. split; [reflexivity|].
    split; [|split; [exact Hor|]].
    + cbn. rewrite Htr, <- !app_assoc. reflexivity.
    + intros _. split; [reflexivity|]. cbn.
      apply delete_insert_eq.
  - eexists. split; [reflexivity|].
    split; [|split; [exact Hor | discriminate]].
    cbn. rewrite Htr, <- !app_assoc. reflexivity.
  - eexists. split; [reflexivity|].
    split; [|split; [exact Hor | discriminate]].
    cbn. rewrite Htr, <- !app_assoc. reflexivity.
Qed.

End RoundTrip.

(** ** The properties at work on the sample adapter *)

Lemma idle_world_inv : driver_inv idle_world.
Proof. repeat split; simpl; try lia. constructor. Qed.

Lemma constructors_keep_invariant_witness :
  driver_inv idle_world /\
  runs (@ulink_append_get_signals_cmd sample_externals) idle_world
       (fun _ w' => driver_inv w') /\
  runs (@ulink_append_scan_cmd sample_externals SCAN_IO 12 (Some [170; 5])
          None None 1 0 2 1 None true) idle_world
       (fun _ w' => driver_inv w').
Proof.
  pose proof idle_world_inv as H.
  destruct (@constructors_keep_invariant sample_externals idle_world H)
    as (Hscan & _ & _ & Hget & _).
  split; [exact H|]. split; [exact Hget|]. apply Hscan. lia.
Defined.

Lemma translators_keep_invariant_witness :
  driver_inv idle_world /\
  driver_inv (world_of (@dispatch sample_externals (JTAG_RUNTEST 7 TAP_DRPAUSE)
                          idle_world)).
Proof.
  pose proof idle_world_inv as H. split; [exact H|].
  exact (@translators_keep_invariant sample_externals _ idle_world H).
Defined.

Lemma runtest_emits_clock_tck_witness :
  let w := with_calloc_tape [false] (with_cur_state TAP_RESET idle_world) in
  @tap_is_state_stable sample_externals TAP_IDLE = true /\
  exists w1 w' tck,
    @ulink_queue_statemove sample_externals (with_end_state TAP_IDLE w)
    = Done ERROR_FAIL w1 /\
    @ulink_queue_runtest sample_externals 70000 TAP_RESET w
    = Done ERROR_OK w' /\
    payload_out tck = Some [112; 17] /\
    enqueued (trace w') = [tck].
Proof.
  intros w. split; [reflexivity|].
  destruct (@runtest_emits_clock_tck sample_externals 70000 TAP_RESET w eq_refl)
    as (w1 & r & w2 & w' & tck & pre & post & _ & Hmoved & _ & Hrun & _ & _
        & _ & Hpay & Henq & _).
  destruct Hmoved as (r0 & Hsm); [discriminate|].
  assert (r0 = ERROR_FAIL) as ->.
  { assert (result_of (@ulink_queue_statemove sample_externals
                         (with_end_state TAP_IDLE w)) = Some ERROR_FAIL)
      as E by (vm_compute; reflexivity).
    rewrite Hsm in E. injection E as ->. reflexivity. }
  assert (r = ERROR_OK) as ->.
  { assert (result_of (@ulink_queue_runtest sample_externals 70000 TAP_RESET w)
            = Some ERROR_OK) as E by (vm_compute; reflexivity).
    rewrite Hrun in E. injection E as ->. reflexivity. }
  assert (length (enqueued (trace w')) = 1%nat) as Hlen.
  { assert (length (enqueued (trace (world_of
              (@ulink_queue_runtest sample_externals 70000 TAP_RESET w))))
            = 1%nat) as E by (vm_compute; reflexivity).
    rewrite Hrun in E. exact E. }
  exists w1, w', tck. split; [exact Hsm|]. split; [exact Hrun|].
  split; [exact Hpay|].
  rewrite Henq in Hlen |- *. change (trace w) with (@nil event) in *.
  cbn [enqueued app is_ok] in *.
  rewrite length_app in Hlen. cbn [length] in Hlen.
  destruct pre; [|cbn [length] in Hlen; lia].
  destruct post; [reflexivity | cbn [app length] in Hlen; lia].
Defined.

Lemma queue_scan_follower_witness :
  let scan := {| ir_scan := true; jtag_scan_size := 5;
                 jtag_scan_type := SCAN_OUT;
                 jtag_build_buffer := [21];
                 scan_end_state := TAP_IRPAUSE |} in
  @tap_is_state_stable sample_externals (shift_state scan) = true /\
  exists w',
    @ulink_queue_scan sample_externals scan idle_world = Done ERROR_OK w' /\
    cur_state w' = TAP_IRPAUSE.
Proof.
  intros scan. split; [reflexivity|].
  destruct (@queue_scan_follower sample_externals scan idle_world eq_refl)
    as (r & w' & Hrun & Hok & _).
  assert (r = ERROR_OK) as ->.
  { assert (result_of (@ulink_queue_scan sample_externals scan idle_world)
            = Some ERROR_OK) as Hr by (vm_compute; reflexivity).
    rewrite Hrun in Hr. injection Hr as ->. reflexivity. }
  exists w'. split; [exact Hrun|]. apply Hok. reflexivity.
Defined.

Lemma zero_bit_scan_witness :
  let scan := {| ir_scan := false; jtag_scan_size := 0;
                 jtag_scan_type := SCAN_OUT;
                 jtag_build_buffer := [];
                 scan_end_state := TAP_DRPAUSE |} in
  exists w',
    @ulink_queue_scan sample_externals scan idle_world = Done ERROR_OK w' /\
    trace w' = [] /\ cur_state w' = TAP_DRPAUSE.
Proof.
  intros scan.
  destruct (@zero_bit_scan sample_externals scan idle_world eq_refl eq_refl)
    as (r & w' & Hrun & Htr & _ & Hout & Hok).
  destruct (Hout eq_refl) as [-> _].
  exists w'. split; [exact Hrun|]. split; [exact Htr|]. apply Hok. reflexivity.
Defined.

Lemma scan_round_trip_witness :
  let scan := {| ir_scan := false; jtag_scan_size := 12;
                 jtag_scan_type := SCAN_IN;
                 jtag_build_buffer := [];
                 scan_end_state := TAP_IDLE |} in
  let w := with_bulk_read_tape [ReadData [165; 3]] idle_world in
  exists w',
    @ulink_execute_queue sample_externals [JTAG_SCAN scan] w = Done ERROR_OK w' /\
    In (EvReadBuffer (Some {| blk := 0; ofs := 0 |}) [165; 3] scan) (trace w') /\
    heap w' = ∅.
Proof.
  intros scan w.
  destruct (@scan_round_trip sample_externals scan [165; 3] [] w)
    as (c & w' & Hrun & Htr & _ & Hok); try reflexivity.
  { simpl. lia. }
  exists w'. split; [exact Hrun|]. split.
  - rewrite Htr. simpl. right. right. right. left. reflexivity.
  - destruct (Hok eq_refl) as [_ ->]. reflexivity.
Defined.

(** ** Clock rate *)

(** X10. [ulink_khz] accepts exactly the rates that are not zero and not
    above 150, negative ones included; it then selects speed 0 whatever the
    rate, which [ulink_speed_div] reports as 150 kHz, so that the 100 kHz
    entry of [ulink_speed_div] is never selected.  A rejected rate leaves
    [*jtag_speed] as it was. *)
Theorem khz_selects_speed_zero khz jtag_speed reported :
  (fst (ulink_khz khz jtag_speed) = ERROR_OK <-> khz <> 0 /\ khz <= 150) /\
  (fst (ulink_khz khz jtag_speed) = ERROR_OK ->
   snd (ulink_khz khz jtag_speed) = 0 /\
   ulink_speed_div (snd (ulink_khz khz jtag_speed)) reported = (ERROR_OK, 150)) /\
  (fst (ulink_khz khz jtag_speed) <> ERROR_OK ->
   ulink_khz khz jtag_speed = (ERROR_FAIL, jtag_speed)).
Proof.
  unfold ulink_khz.
  destruct (Z.eqb_spec khz 0) as [-> | Hnz]; simpl.
  - repeat split; try discriminate; try tauto; try congruence.
  - destruct (Z.gtb_spec khz 150) as [Hbig | Hsmall]; simpl.
    + repeat split; try discriminate; try tauto; try lia.
    + repeat split; auto; try congruence.
Qed.

(** ** Reset lines *)

Lemma u8_lor_l x y : u8 (Z.lor (u8 x) y) = u8 (Z.lor x y).
Proof.
  unfold u8. rewrite <- !land_255.
  rewrite !Z.land_lor_distr_l, <- Z.land_assoc, Z.land_diag. reflexivity.
Qed.

Section ResetLines.

Context `{Ext : Externals}.

(** X11. [ulink_queue_reset] always returns, and the set-signals command
    it tries to append names each of the two reset lines in exactly one of
    its two bytes: TRST in the high byte when the request asserts TRST and in
    the low byte otherwise, and likewise SRST; no other line is named.  When
    the append succeeds this command is the only one emitted, otherwise
    nothing is emitted.  A request that does not assert TRST leaves the TAP
    follower where it was. *)
Theorem reset_names_each_line_once trst srst w :
  let low := u8 (Z.lor (if trst =? 0 then SIGNAL_TRST else 0)
                       (if srst =? 0 then SIGNAL_RESET else 0)) in
  let high := u8 (Z.lor (if trst =? 0 then 0 else SIGNAL_TRST)
                        (if srst =? 0 then 0 else SIGNAL_RESET)) in
  exists r w' c,
    ulink_queue_reset trst srst w = Done r w' /\
    id c = CMD_SET_SIGNALS /\
    payload_out c = Some [low; high] /\
    Z.lor low high = u8 (Z.lor SIGNAL_TRST SIGNAL_RESET) /\
    enqueued (trace w') = enqueued (trace w) ++ (if is_ok r then [c] else []) /\
    cur_state w' = (if trst =? 0 then cur_state w else TAP_RESET) /\
    end_state_follower w' = end_state_follower w.
Proof.
  intros low high.
  assert (Z.lor low high = u8 (Z.lor SIGNAL_TRST SIGNAL_RESET)) as Hall.
  { subst low high. unfold u8. rewrite <- !land_255, <- Z.land_lor_distr_l.
    f_equal. destruct (trst =? 0), (srst =? 0);
      rewrite ?Z.lor_0_r, ?Z.lor_0_l; try reflexivity.
    apply Z.lor_comm. }
  unfold ulink_queue_reset. cbv zeta.
  destruct (trst =? 0); cbn [negb]; rewrite bind_eq;
    unfold tap_set_state, modify, ret, bind; cbv beta iota;
    destruct (srst =? 0); cbn [negb]; cbv beta iota;
    match goal with
    | |- context [ulink_append_set_signals_cmd ?l ?h ?w0] =>
        destruct (append_set_signals_runs l h w0) as (r & w' & Hrun & Hres);
        destruct (append_result_enqueued _ _ _ _ Hres) as (Henq & Hc & He);
        exists r, w', (two_byte_cmd CMD_SET_SIGNALS l h)
    end;
    (split; [exact Hrun|]); (split; [reflexivity|]);
    (split; [|split; [exact Hall|split; [exact Henq|split; [exact Hc|exact He]]]]);
    subst low high; unfold two_byte_cmd; cbn [payload_out];
    rewrite ?u8_idem, ?u8_lor_l, ?Z.lor_0_l, ?Z.lor_0_r, ?u8_idem;
    try reflexivity.
Qed.

End ResetLines.

(** ** The layout of a split scan *)

Lemma chunks_lookup s n : forall bytecount tdi tdo k c,
  chunks s n bytecount tdi tdo !! k = Some c ->
  (k < n)%nat /\
  c = chunk s (bytecount - 58 * Z.of_nat k) (tdi_at tdi k) (tdo_at tdo k).
Proof.
  induction n as [|n IH]; intros bytecount tdi tdo k c Hk; [discriminate|].
  destruct k as [|k]; cbn [chunks] in Hk.
  - injection Hk as <-. split; [lia|].
    replace (bytecount - 58 * Z.of_nat 0) with bytecount by lia.
    f_equal.
    + destruct tdi; reflexivity.
    + destruct tdo as [[b o]|]; [|reflexivity].
      unfold tdo_at, ptr_add. cbn [blk ofs]. do 2 f_equal. lia.
  - apply IH in Hk. destruct Hk as [Hlt ->]. split; [lia|].
    replace (bytecount - 58 - 58 * Z.of_nat k)
      with (bytecount - 58 * Z.of_nat (S k)) by lia.
    f_equal.
    + destruct tdi as [l|]; [|reflexivity].
      unfold tdi_at, advance_tdi. rewrite drop_drop. do 2 f_equal. lia.
    + destruct tdo as [[b o]|]; [|reflexivity].
      unfold tdo_at, advance_tdo, ptr_add. cbn [blk ofs]. do 2 f_equal. lia.
Qed.

Lemma chunks_length s n : forall bytecount tdi tdo,
  length (chunks s n bytecount tdi tdo) = n.
Proof.
  induction n as [|n IH]; intros; [reflexivity|]. simpl. rewrite IH. reflexivity.
Qed.

Section SplitScan.

Context `{Ext : Externals}.

(** What a run of the loop to its end emits. *)
Lemma scan_loop_emits s : forall bytecount,
  0 <= bytecount ->
  forall tdi tdo w w',
    scan_loop s bytecount tdi tdo w = Done ERROR_OK w' ->
    enqueued (trace w')
    = enqueued (trace w)
      ++ chunks s (Z.to_nat ((bytecount + 57) / 58)) bytecount tdi tdo /\
    (0 < bytecount -> type s <> SCAN_UNKNOWN).
Proof.
  intros bytecount Hpos.
  induction bytecount as [bytecount IH]
    using (well_founded_induction (Z.lt_wf 0)).
  intros tdi tdo w w' Hrun.
  rewrite scan_loop_eq in Hrun.
  destruct (Z.gtb_spec bytecount 0) as [Hgt | Hle].
  2:{ injection Hrun as <-. assert (bytecount = 0) as -> by lia.
      simpl. rewrite app_nil_r. split; [reflexivity | lia]. }
  cbv zeta in Hrun.
  destruct (bytecount >? 58) eqn:E58.
  - apply Z.gtb_lt in E58.
    apply bind_Done in Hrun. destruct Hrun as (r & w1 & Happ & Hrest).
    pose proof (runs_det _ _ _ _ _ (append_scan_cmd_runs _ _ _ _ _ _ _ _ _ _ _ w)
                  Happ) as [Hres Hok].
    destruct r; simpl in Hrest; try (unfold ret in Hrest; discriminate).
    destruct (Hok eq_refl) as [Ht _].
    destruct (append_result_enqueued _ _ _ _ Hres) as (Henq & _ & _).
    simpl in Henq.
    apply (IH (bytecount - 58)) in Hrest; try lia.
    destruct Hrest as [Henq' _]. split; [|auto].
    replace (Z.to_nat ((bytecount + 57) / 58))
      with (S (Z.to_nat ((bytecount - 58 + 57) / 58))).
    + cbn [chunks]. rewrite Henq', Henq, <- app_assoc. cbn [app].
      unfold chunk. rewrite (proj2 (Z.gtb_lt bytecount 58) E58).
      reflexivity.
    + replace (bytecount + 57) with (bytecount - 58 + 57 + 1 * 58) by lia.
      rewrite Z.div_add by lia.
      assert (0 <= (bytecount - 58 + 57) / 58) by (apply Z.div_pos; lia).
      lia.
  - assert (bytecount <= 58) as Hlast.
    { destruct (Z.gtb_spec bytecount 58); [discriminate | lia]. }
    assert ((let* r := ulink_append_scan_cmd (type s)
                   (if bytecount =? 58 then 58 * 8
                    else to_int (bits_last_scan s))
                   tdi (tdo_buffer_start s) tdo
                   (if bytecount =? scan_size_bytes s
                    then first_tms_count s else tms_count_resume s)
                   (if bytecount =? scan_size_bytes s
                    then first_tms_sequence s else tms_sequence_resume s)
                   (last_tms_count s) (last_tms_sequence s) (origin s) true in
       if negb (is_ok r) then ret r else scan_loop s 0 tdi tdo) w
      = Done ERROR_OK w') as Hrun'.
    { destruct (bytecount =? 58); exact Hrun. }
    clear Hrun. apply bind_Done in Hrun'.
    destruct Hrun' as (r & w1 & Happ & Hrest).
    pose proof (runs_det _ _ _ _ _ (append_scan_cmd_runs _ _ _ _ _ _ _ _ _ _ _ w)
                  Happ) as [Hres Hok].
    destruct r; simpl in Hrest; try (unfold ret in Hrest; discriminate).
    destruct (Hok eq_refl) as [Ht _].
    destruct (append_result_enqueued _ _ _ _ Hres) as (Henq & _ & _).
    simpl in Henq.
    rewrite scan_loop_eq in Hrest. simpl in Hrest. injection Hrest as <-.
    split; [|auto].
    replace (Z.to_nat ((bytecount + 57) / 58)) with 1%nat.
    + cbn [chunks]. unfold chunk. rewrite E58. exact Henq.
    + replace (bytecount + 57) with (bytecount - 1 + 1 * 58) by lia.
      rewrite Z.div_add, Z.div_small by lia. reflexivity.
Qed.

Lemma header_byte_payload c l k :
  payload_out c = Some l -> header_byte c k = l !! k.
Proof. unfold header_byte. intros ->. reflexivity. Qed.

Lemma tdi_bytes_payload c l : payload_out c = Some l -> tdi_bytes c = drop 5 l.
Proof. unfold tdi_bytes. intros ->. reflexivity. Qed.

(** A successful [ulink_queue_scan] is a run of its loop to the end, on the
    plan written out here. *)
Lemma queue_scan_plan scan w w' :
  let N := jtag_scan_size scan in
  let t := jtag_scan_type scan in
  let bytes := (N + 7) / 8 in
  let shift := shift_state scan in
  let pause := pause_state scan in
  let tdo := if scan_has_in t
             then Some {| blk := next_block w; ofs := 0 |} else None in
  let s := {| type := t; scan_size_bytes := bytes;
              bits_last_scan := u32 (u32 N - Z.quot bytes 58 * 58 * 8);
              tdo_buffer_start := tdo;
              first_tms_count := u8 (tap_get_tms_path_len (cur_state w) shift);
              first_tms_sequence := u8 (tap_get_tms_path (cur_state w) shift);
              last_tms_count :=
                u8 (tap_get_tms_path_len shift (scan_end_state scan));
              last_tms_sequence :=
                u8 (tap_get_tms_path shift (scan_end_state scan));
              tms_count_pause := u8 (tap_get_tms_path_len shift pause);
              tms_sequence_pause := u8 (tap_get_tms_path shift pause);
              tms_count_resume := u8 (tap_get_tms_path_len pause shift);
              tms_sequence_resume := u8 (tap_get_tms_path pause shift);
              origin := Some (JTAG_SCAN scan) |} in
  1 <= N < 2147483648 ->
  ulink_queue_scan scan w = Done ERROR_OK w' ->
  exists w2 w3,
    scan_loop s bytes
      (if scan_has_out t then Some (jtag_build_buffer scan) else None) tdo w2
    = Done ERROR_OK w3 /\
    enqueued (trace w2) = enqueued (trace w) /\
    trace w' = trace w3.
Proof.
  intros N t bytes shift pause tdo s HN Hrun. unfold ulink_queue_scan in Hrun.
  fold N in Hrun. rewrite (scan_bytes N HN) in Hrun. fold bytes t in Hrun.
  cbv zeta in Hrun.
  apply bind_Done in Hrun. destruct Hrun as (alloc & w1 & Halloc & Hrun).
  assert (alloc = Some tdo /\ cur_state w1 = cur_state w /\ trace w1 = trace w)
    as (-> & Hc1 & T1).
  { subst tdo. destruct (scan_has_in t).
    - unfold bind, calloc_ok, new_block, ret in Halloc.
      destruct (pop true (calloc_tape w)) as [[|] tape]; cbn [negb] in Halloc.
      + injection Halloc as <- <-. auto.
      + injection Halloc as <- <-. discriminate Hrun.
    - injection Halloc as <- <-. auto. }
  apply bind_Done in Hrun. destruct Hrun as (tr & w2 & Htr & Hrun).
  assert (tap_is_state_stable shift = true) as Hst.
  { subst shift. unfold shift_state.
    unfold scan_transitions, ulink_set_end_state in Htr.
    destruct (ir_scan scan);
      match goal with
      | |- ?b = true => destruct b; [reflexivity | discriminate Htr]
      end. }
  assert (tr = (first_tms_count s, first_tms_sequence s,
                (last_tms_count s, last_tms_sequence s),
                (tms_count_pause s, tms_sequence_pause s),
                (tms_count_resume s, tms_sequence_resume s)) /\
          trace w2 = trace w1) as [-> T2].
  { subst s shift pause. unfold shift_state, pause_state in *.
    cbn [first_tms_count first_tms_sequence last_tms_count last_tms_sequence
         tms_count_pause tms_sequence_pause tms_count_resume
         tms_sequence_resume].
    rewrite <- Hc1.
    destruct (ir_scan scan); rewrite scan_transitions_exact in Htr by exact Hst;
      injection Htr as <- <-; auto. }
  cbv beta iota in Hrun.
  apply bind_Done in Hrun. destruct Hrun as (r & w3 & Hloop & Hrun).
  destruct r; simpl in Hrun; try (unfold ret in Hrun; discriminate).
  injection Hrun as <-.
  exists w2, w3. split; [exact Hloop|]. split; [congruence | reflexivity].
Qed.

(** X12. The layout of a scan over its commands.  A scan of [N] bits that
    is translated successfully is emitted as commands of 58 bytes each and a
    last one with the rest.  The first command starts with the TMS path from
    the current state to the shift state and every later one with the path
    from the pause state back to it; the last command ends with the path
    from the shift state to the requested end state and every earlier one
    with the path to the pause state.  For a scan with TDO all commands
    share one buffer, allocated by the scan, and command [k] views it from
    byte [58 * k] on; for a scan with TDI command [k] carries the bytes of
    the request from byte [58 * k] on.  Every command names the request it
    comes from. *)
Theorem split_scan_layout scan w w' :
  let N := jtag_scan_size scan in
  let t := jtag_scan_type scan in
  let bytes := (N + 7) / 8 in
  let shift := shift_state scan in
  let pause := pause_state scan in
  let buffer := {| blk := next_block w; ofs := 0 |} in
  1 <= N < 2147483648 ->
  (scan_has_out t = true ->
   Z.of_nat (length (jtag_build_buffer scan)) = bytes) ->
  ulink_queue_scan scan w = Done ERROR_OK w' ->
  exists cmds,
    enqueued (trace w') = enqueued (trace w) ++ cmds /\
    Z.of_nat (length cmds) = (bytes + 57) / 58 /\
    forall k c, cmds !! k = Some c ->
      let from := match k with O => cur_state w | S _ => pause end in
      let to := if (S k =? length cmds)%nat
                then scan_end_state scan else pause in
      let size := Z.min 58 (bytes - 58 * Z.of_nat k) in
      header_byte c 0 = Some size /\
      header_byte c 2
      = Some (u8 (Z.lor
                    (Z.shiftl (Z.land (u8 (tap_get_tms_path_len from shift)) 15) 4)
                    (Z.land (u8 (tap_get_tms_path_len shift to)) 15))) /\
      header_byte c 3 = Some (u8 (tap_get_tms_path from shift)) /\
      header_byte c 4 = Some (u8 (tap_get_tms_path shift to)) /\
      cmd_origin c = Some (JTAG_SCAN scan) /\
      (scan_has_in t = true ->
       payload_in_start c = Some buffer /\
       payload_in c = Some (ptr_add buffer (58 * Z.of_nat k)) /\
       payload_in_size c = size) /\
      (scan_has_out t = true ->
       tdi_bytes c
       = u8 <$> take (Z.to_nat size) (drop (58 * k) (jtag_build_buffer scan))).
Proof.
  intros N t bytes shift pause buffer HN Hlen Hrun.
  destruct (queue_scan_plan scan w w' HN Hrun) as (w2 & w3 & Hloop & Henq2 & T3).
  fold N t bytes shift pause in Hloop.
  set (tdo := if scan_has_in t then Some buffer else None) in *.
  set (tdi := if scan_has_out t then Some (jtag_build_buffer scan) else None) in *.
  set (s := {| type := t |}) in *.
  assert (0 < bytes) as Hbytes by (apply Z.div_str_pos; lia).
  destruct (scan_loop_emits s bytes ltac:(lia) tdi tdo w2 w3 Hloop)
    as [Henq Ht].
  specialize (Ht Hbytes). change (type s) with t in Ht.
  set (n := Z.to_nat ((bytes + 57) / 58)) in *.
  assert (0 < (bytes + 57) / 58) as Hn.
  { apply Z.div_str_pos. lia. }
  assert (58 * (Z.of_nat n - 1) < bytes <= 58 * Z.of_nat n) as Hnb.
  { subst n. rewrite Z2Nat.id by lia. Z.div_mod_to_equations. lia. }
  exists (chunks s n bytes tdi tdo).
  split; [rewrite T3, Henq, Henq2; reflexivity|].
  rewrite chunks_length. split; [subst n; lia|].
  intros k c Hk. apply chunks_lookup in Hk. destruct Hk as [Hkn ->].
  cbv zeta.
  set (bc := bytes - 58 * Z.of_nat k).
  assert (0 < bc) as Hbc by (subst bc; lia).
  (* which command this is *)
  assert ((bc =? bytes) = match k with O => true | S _ => false end) as Efirst.
  { subst bc. destruct k; [apply Z.eqb_eq | apply Z.eqb_neq]; lia. }
  assert ((bc >? 58) = negb (S k =? n)%nat) as Elast.
  { destruct (Nat.eqb_spec (S k) n) as [E | E]; cbn [negb].
    - destruct (Z.gtb_spec bc 58); [subst bc; lia | reflexivity].
    - destruct (Z.gtb_spec bc 58); [reflexivity | subst bc; lia]. }
  (* the number of bits of this command *)
  set (bits := if bc >? 58 then 58 * 8
               else if bc =? 58 then 58 * 8 else to_int (bits_last_scan s)).
  assert (DIV_ROUND_UP bits 8 = Z.min 58 bc) as Hdiv.
  { subst bits. destruct (Z.gtb_spec bc 58) as [Hbig | Hsmall].
    - rewrite Z.min_l by lia. reflexivity.
    - destruct (Z.eqb_spec bc 58) as [E58 | Hne].
      + rewrite E58. reflexivity.
      + rewrite Z.min_r by lia.
        assert (S k = n) as Ek.
        { destruct (Nat.eqb_spec (S k) n); [assumption|].
          rewrite Elast in *. destruct (Z.gtb_spec bc 58); [lia | discriminate]. }
        assert (bytes mod 58 = bc /\ bytes / 58 = Z.of_nat k) as [Hm Hq].
        { subst bc. clear -Hnb Ek Hsmall Hne Hbc.
          assert (bytes = 58 * Z.of_nat k + (bytes - 58 * Z.of_nat k)) as E by lia.
          split.
          - symmetry. apply (Z.mod_unique_pos _ _ (Z.of_nat k)); lia.
          - symmetry. apply (Z.div_unique_pos _ _ _ (bytes - 58 * Z.of_nat k)); lia. }
        destruct (bits_last_scan_value N) as [Hv Hr];
          [lia | fold bytes; lia |].
        fold bytes in Hv, Hr. cbn [bits_last_scan s].
        apply div_round_up_bits; [|lia].
        change (bits_last_scan s)
          with (u32 (u32 N - Z.quot bytes 58 * 58 * 8)).
        rewrite Hv, <- Hm. exact Hr. }
  assert (0 <= Z.min 58 bc <= 58) as Hsize by lia.
  (* the TDI data of this command *)
  assert (tdi_at tdi k
          = if scan_has_out t
            then Some (drop (58 * k) (jtag_build_buffer scan)) else None) as Htdi.
  { subst tdi. destruct (scan_has_out t); reflexivity. }
  unfold chunk. fold bits. change (type s) with t.
  destruct (scan_cmd_shape t bits (drop (58 * k) (jtag_build_buffer scan))
              (tdi_at tdi k) (tdo_buffer_start s) (tdo_at tdo k)
              (if bc =? scan_size_bytes s
               then first_tms_count s else tms_count_resume s)
              (if bc =? scan_size_bytes s
               then first_tms_sequence s else tms_sequence_resume s)
              (if bc >? 58 then tms_count_pause s else last_tms_count s)
              (if bc >? 58 then tms_sequence_pause s else last_tms_sequence s)
              (origin s) (negb (bc >? 58)))
    as (Hp & _ & _ & _ & _).
  { rewrite Hdiv. lia. }
  { exact Ht. }
  { exact Htdi. }
  { intros Ho. rewrite Hdiv, length_drop. specialize (Hlen Ho).
    subst bc. lia. }
  rewrite Hdiv in Hp.
  change (scan_size_bytes s) with bytes in *.
  rewrite Efirst, Elast in *.
  split; [|split; [|split; [|split; [|split; [|split]]]]].
  - rewrite (header_byte_payload _ _ _ Hp). cbn [lookup list_lookup app].
    rewrite land_255, u8_mod. f_equal. apply Z.mod_small. lia.
  - rewrite (header_byte_payload _ _ _ Hp). cbn [lookup list_lookup app].
    destruct k, (S _ =? n)%nat; reflexivity.
  - rewrite (header_byte_payload _ _ _ Hp). cbn [lookup list_lookup app].
    destruct k; cbn [first_tms_sequence tms_sequence_resume s];
      rewrite u8_idem; reflexivity.
  - rewrite (header_byte_payload _ _ _ Hp). cbn [lookup list_lookup app].
    destruct (S k =? n)%nat; cbn [negb last_tms_sequence tms_sequence_pause s];
      rewrite u8_idem; reflexivity.
  - unfold scan_cmd, fill_scan_cmd. cbv zeta. reflexivity.
  - intros Hin.
    destruct (scan_cmd_in_fields t bits (tdi_at tdi k) (tdo_buffer_start s)
                (tdo_at tdo k)
                (match k with
                 | O => first_tms_count s | S _ => tms_count_resume s end)
                (match k with
                 | O => first_tms_sequence s | S _ => tms_sequence_resume s end)
                (if negb (S k =? n)%nat
                 then tms_count_pause s else last_tms_count s)
                (if negb (S k =? n)%nat
                 then tms_sequence_pause s else last_tms_sequence s)
                (origin s) (negb (negb (S k =? n)%nat)) Hin)
      as (Hps & Hpi & Hsz & _).
    destruct k; (rewrite Hps, Hpi, Hsz, Hdiv;
      subst tdo; cbn [tdo_buffer_start s]; rewrite Hin;
      split; [reflexivity|]; split; [reflexivity|]; apply u8_small; lia).
  - intros Ho. rewrite (tdi_bytes_payload _ _ Hp), Ho. reflexivity.
Qed.

End SplitScan.

(** * Properties of the firmware download *)

(** ** Library calls and their answers *)

Lemma same_host_refl h : same_host h h.
Proof. split; reflexivity. Qed.

Lemma same_host_trans h1 h2 h3 :
  same_host h1 h2 -> same_host h2 h3 -> same_host h1 h3.
Proof. intros [] []. split; congruence. Qed.

Lemma hbind_eq {A B} (m : H A) (k : A -> H B) h :
  hbind m k h = k (fst (m h)) (snd (m h)).
Proof. unfold hbind. destruct (m h). reflexivity. Qed.

Lemma answers_cons e evs h :
  answers (e :: evs) h
  = (fst (answer e h) :: fst (answers evs (snd (answer e h))),
     snd (answers evs (snd (answer e h)))).
Proof. cbn [answers]. rewrite !hbind_eq. reflexivity. Qed.

Lemma answers_app evs1 evs2 h :
  answers (evs1 ++ evs2) h
  = (fst (answers evs1 h) ++ fst (answers evs2 (snd (answers evs1 h))),
     snd (answers evs2 (snd (answers evs1 h)))).
Proof.
  revert h. induction evs1 as [|e evs1 IH]; intros h; cbn [app].
  - cbn [answers hret fst snd app]. destruct (answers evs2 h); reflexivity.
  - rewrite !answers_cons, IH. reflexivity.
Qed.

Lemma answer_trace e h : host_trace (snd (answer e h)) = host_trace h ++ [e].
Proof.
  unfold answer. destruct e; try (destruct (pop _ _) as [? ?]); reflexivity.
Qed.

Lemma answers_trace evs h :
  host_trace (snd (answers evs h)) = host_trace h ++ evs.
Proof.
  revert h. induction evs as [|e evs IH]; intros h.
  - cbn. rewrite app_nil_r. reflexivity.
  - rewrite answers_cons. cbn [snd]. rewrite IH, answer_trace, <- app_assoc.
    reflexivity.
Qed.

Lemma answers_length evs h : length (fst (answers evs h)) = length evs.
Proof.
  revert h. induction evs as [|e evs IH]; intros h; [reflexivity|].
  rewrite answers_cons. cbn [fst length]. rewrite IH. reflexivity.
Qed.

(** The calls of the download leave alone what the download does not use. *)
Lemma answers_same_host evs h :
  Forall is_firmware_event evs -> same_host h (snd (answers evs h)).
Proof.
  intros F. revert h. induction F as [|e evs He _ IH]; intros h.
  - apply same_host_refl.
  - rewrite answers_cons. cbn [snd].
    eapply same_host_trans; [|apply IH].
    unfold answer. destruct e; try (destruct He);
      try (destruct (pop _ _) as [? ?]); split; reflexivity.
Qed.

Lemma answer_sections e h :
  firmware_sections (snd (answer e h)) = firmware_sections h.
Proof.
  unfold answer. destruct e; try (destruct (pop _ _) as [? ?]); reflexivity.
Qed.

Lemma answers_sections evs h :
  firmware_sections (snd (answers evs h)) = firmware_sections h.
Proof.
  revert h. induction evs as [|e evs IH]; intros h; [reflexivity|].
  rewrite answers_cons. cbn [snd]. rewrite IH. apply answer_sections.
Qed.

Lemma answer_read_tape e h :
  (forall section offset size, e <> EvImageReadSection section offset size) ->
  read_section_tape (snd (answer e h)) = read_section_tape h.
Proof.
  intros Hne. unfold answer.
  destruct e; try (exfalso; eapply Hne; reflexivity);
    try (destruct (pop _ _) as [? ?]); reflexivity.
Qed.

(** The answers of [image_read_section] are taken from the tape in order. *)
Lemma answers_read_tape evs h :
  exists n,
    read_section_tape (snd (answers evs h)) = drop n (read_section_tape h).
Proof.
  revert h. induction evs as [|e evs IH]; intros h.
  - exists 0%nat. reflexivity.
  - rewrite answers_cons. cbn [snd].
    destruct (IH (snd (answer e h))) as (n & ->).
    assert (exists k, read_section_tape (snd (answer e h))
                      = drop k (read_section_tape h)) as (k & ->).
    { unfold answer. destruct e;
        try (exists 0%nat; try (destruct (pop _ _) as [? ?]); reflexivity).
      destruct (read_section_tape h) as [|x t]; cbn [pop snd];
        [exists 0%nat | exists 1%nat]; reflexivity. }
    exists (k + n)%nat. apply drop_drop.
Qed.

(** ** Stopping at the first failure *)

Lemma stops_cons_true ok flags :
  stops_at_failure ok flags -> stops_at_failure ok (true :: flags).
Proof.
  destruct ok; cbn [stops_at_failure].
  - intros F. constructor; [reflexivity | exact F].
  - intros (pre & -> & F). exists (true :: pre).
    split; [reflexivity|]. constructor; [reflexivity | exact F].
Qed.

Lemma stops_app ok flags1 flags2 :
  Forall (fun b => b = true) flags1 ->
  stops_at_failure ok flags2 -> stops_at_failure ok (flags1 ++ flags2).
Proof.
  induction 1 as [|b flags1 -> _ IH]; intros Hs; [exact Hs|].
  cbn [app]. apply stops_cons_true, IH, Hs.
Qed.

Lemma stops_failed : stops_at_failure false [false].
Proof. exists []. split; [reflexivity | constructor]. Qed.

Lemma stops_snoc_failed flags :
  Forall (fun b => b = true) flags -> stops_at_failure false (flags ++ [false]).
Proof. intros F. exists flags. auto. Qed.

(** With a failure among the answers, [ok] is off. *)
Lemma stops_all_true ok flags :
  stops_at_failure ok flags -> Forall (fun b => b = true) flags -> ok = true.
Proof.
  destruct ok; [reflexivity|]. intros (pre & -> & _) F.
  apply Forall_app in F. destruct F as [_ F]. inversion F. discriminate.
Qed.

(** ** The download, section by section *)

Lemma write_chunks_eq bytes_remaining addr data_ptr :
  write_chunks bytes_remaining addr data_ptr =
  if bytes_remaining >? 0 then
    let chunk_size := if bytes_remaining >? 64 then 64 else bytes_remaining in
    let+ ret := usb_control_msg REQUEST_FIRMWARE_LOAD addr FIRMWARE_ADDR
                  data_ptr chunk_size USB_TIMEOUT in
    if negb (ret =? chunk_size) then hret ERROR_FAIL
    else
      write_chunks (u16 (bytes_remaining - chunk_size))
                   (u16 (addr + chunk_size))
                   (drop (Z.to_nat chunk_size) data_ptr)
  else hret ERROR_OK.
Proof.
  rewrite write_chunks_equation_1.
  destruct (Z_gt_dec bytes_remaining 0);
    destruct (Z.gtb_spec bytes_remaining 0); try lia; reflexivity.
Qed.

Lemma chunk_msg_shift addr data size k :
  0 <= size - 64 ->
  chunk_msg (u16 (addr + 64)) (drop 64 data) (size - 64) k
  = chunk_msg addr data size (S k).
Proof.
  intros _. unfold chunk_msg. cbv zeta.
  replace (size - 64 - 64 * Z.of_nat k) with (size - 64 * Z.of_nat (S k)) by lia.
  rewrite drop_drop.
  replace (64 + 64 * k)%nat with (64 * S k)%nat by lia.
  f_equal. unfold u16. rewrite Zplus_mod_idemp_l. f_equal. lia.
Qed.

(** The first transfer of the loop is the call its event records. *)
Lemma control_msg_first addr data size c h :
  0 <= addr < 65536 -> 0 < size -> c = Z.min 64 size ->
  answer (chunk_msg addr data size 0) h
  = (fst (usb_control_msg REQUEST_FIRMWARE_LOAD addr FIRMWARE_ADDR
            data c USB_TIMEOUT h) =? c,
     snd (usb_control_msg REQUEST_FIRMWARE_LOAD addr FIRMWARE_ADDR
            data c USB_TIMEOUT h)).
Proof.
  intros Haddr Hsize ->.
  assert (chunk_msg addr data size 0
          = EvControlMsg REQUEST_FIRMWARE_LOAD addr FIRMWARE_ADDR
              (take (Z.to_nat (Z.min 64 size)) data) (Z.min 64 size)
              USB_TIMEOUT) as ->.
  { unfold chunk_msg. cbv zeta.
    change (Z.of_nat 0) with 0. rewrite Z.mul_0_r, Z.add_0_r, Z.sub_0_r.
    change (64 * 0)%nat with 0%nat. rewrite drop_0.
    unfold u16. rewrite Z.mod_small by lia. reflexivity. }
  unfold answer, usb_control_msg.
  destruct (pop _ (control_tape h)) as [r t]. reflexivity.
Qed.

(** The transfers of the loop: made up to the first one that is cut short,
    all of them when the loop returns [ERROR_OK]. *)
Lemma write_chunks_calls : forall bytes_remaining,
  0 <= bytes_remaining < 65536 ->
  forall addr data h,
    0 <= addr < 65536 ->
    exists m,
      snd (write_chunks bytes_remaining addr data h)
      = snd (answers (map (chunk_msg addr data bytes_remaining) (seq 0 m)) h) /\
      (m <= Z.to_nat ((bytes_remaining + 63) / 64))%nat /\
      stops_at_failure
        (is_ok (fst (write_chunks bytes_remaining addr data h)))
        (fst (answers (map (chunk_msg addr data bytes_remaining) (seq 0 m)) h)) /\
      (fst (write_chunks bytes_remaining addr data h) = ERROR_OK ->
       m = Z.to_nat ((bytes_remaining + 63) / 64)) /\
      (fst (write_chunks bytes_remaining addr data h) = ERROR_OK \/
       fst (write_chunks bytes_remaining addr data h) = ERROR_FAIL).
Proof.
  intros br.
  induction br as [br IH] using (well_founded_induction (Z.lt_wf 0)).
  intros Hbr addr data h Haddr. rewrite write_chunks_eq.
  destruct (Z.gtb_spec br 0) as [Hpos | Hz].
  2:{ exists 0%nat. assert (br = 0) as -> by lia.
      cbn [seq map answers hret fst snd is_ok stops_at_failure].
      repeat split; auto; lia. }
  cbv zeta. rewrite hbind_eq.
  set (c := if br >? 64 then 64 else br).
  assert (c = Z.min 64 br) as Ec.
  { subst c. destruct (Z.gtb_spec br 64); lia. }
  pose proof (control_msg_first addr data br c h Haddr Hpos Ec) as Hfirst.
  set (o := usb_control_msg _ _ _ _ _ _ h) in *.
  assert (1 <= Z.to_nat ((br + 63) / 64))%nat as Hceil.
  { assert (1 <= (br + 63) / 64) by (apply Z.div_le_lower_bound; lia). lia. }
  destruct (fst o =? c) eqn:Esent; cbn [negb].
  2:{ (* libusb sent less data than requested *)
      exists 1%nat. cbn [seq map]. rewrite answers_cons, Hfirst.
      cbn [hret fst snd answers is_ok].
      split; [reflexivity|]. split; [exact Hceil|].
      split; [apply stops_failed|]. split; [discriminate | auto]. }
  destruct (Z.gtb_spec br 64) as [Hbig | Hsmall].
  - (* a full chunk, more to go *)
    subst c.
    replace (u16 (br - 64)) with (br - 64)
      by (unfold u16; rewrite Z.mod_small; lia).
    change (Z.to_nat 64) with 64%nat.
    assert (0 <= u16 (addr + 64) < 65536) as Haddr'.
    { apply Z.mod_pos_bound. lia. }
    destruct (IH (br - 64) ltac:(lia) ltac:(lia) (u16 (addr + 64))
                 (drop 64 data) (snd o) Haddr')
      as (m & Hhost & Hm & Hstop & Hok & Hcode).
    set (o2 := write_chunks _ _ _ _) in *.
    assert (Z.to_nat ((br + 63) / 64) = S (Z.to_nat ((br - 64 + 63) / 64)))
      as Eceil.
    { replace (br + 63) with (br - 64 + 63 + 1 * 64) by lia.
      rewrite Z.div_add by lia.
      assert (0 <= (br - 64 + 63) / 64) by (apply Z.div_pos; lia). lia. }
    assert (map (chunk_msg addr data br) (seq 0 (S m))
            = chunk_msg addr data br 0
              :: map (chunk_msg (u16 (addr + 64)) (drop 64 data) (br - 64))
                     (seq 0 m)) as Emap.
    { cbn [seq map]. f_equal. rewrite <- seq_shift, map_map.
      apply map_ext. intros k. symmetry. apply chunk_msg_shift. lia. }
    exists (S m). rewrite Emap, Eceil, answers_cons, Hfirst. cbn [fst snd].
    split; [exact Hhost|]. split; [lia|].
    split; [apply stops_cons_true; exact Hstop|].
    split; [|exact Hcode]. intros E. rewrite (Hok E). reflexivity.
  - (* the last chunk *)
    subst c. rewrite Z.sub_diag. change (u16 0) with 0.
    rewrite write_chunks_eq. cbn [Z.gtb Z.compare hret fst snd].
    exists 1%nat.
    assert (Z.to_nat ((br + 63) / 64) = 1%nat) as ->.
    { replace (br + 63) with (br - 1 + 1 * 64) by lia.
      rewrite Z.div_add, Z.div_small by lia. reflexivity. }
    cbn [seq map]. rewrite answers_cons, Hfirst.
    cbn [hret fst snd answers is_ok stops_at_failure].
    split; [reflexivity|]. split; [lia|].
    split; [repeat constructor|]. auto.
Qed.

(** The chunks of a section, put together again, are the section. *)
Lemma chunks_concat (data : list Z) : forall n,
  concat (map (fun k => take 64 (drop (64 * k) data)) (seq 0 n))
  = take (64 * n) data.
Proof.
  intros n. revert data. induction n as [|n IH]; intros data.
  - rewrite Nat.mul_0_r. reflexivity.
  - cbn [seq map concat]. rewrite <- seq_shift, map_map.
    rewrite (map_ext (fun k => take 64 (drop (64 * S k) data))
                     (fun k => take 64 (drop (64 * k) (drop 64 data)))).
    + rewrite IH. change (64 * 0)%nat with 0%nat. rewrite drop_0.
      rewrite take_take_drop. f_equal. lia.
    + intros k. rewrite drop_drop. do 2 f_equal. lia.
Qed.

Lemma chunk_msg_bytes addr data size k :
  Z.of_nat (length data) = size ->
  control_bytes (chunk_msg addr data size k) = take 64 (drop (64 * k) data).
Proof.
  intros Hlen. unfold chunk_msg. cbn [control_bytes].
  destruct (Z.min_spec 64 (size - 64 * Z.of_nat k)) as [[Hlt ->] | [Hge ->]].
  - reflexivity.
  - rewrite !take_ge; [reflexivity | |]; rewrite length_drop; lia.
Qed.

Lemma chunk_msgs_concat addr data size :
  Z.of_nat (length data) = size ->
  concat (map control_bytes
            (map (chunk_msg addr data size)
                 (seq 0 (Z.to_nat ((size + 63) / 64)))))
  = data.
Proof.
  intros Hlen. rewrite map_map.
  rewrite (map_ext (fun k => control_bytes (chunk_msg addr data size k))
                   (fun k => take 64 (drop (64 * k) data)))
    by (intros k; apply chunk_msg_bytes; exact Hlen).
  rewrite chunks_concat. apply take_ge.
  assert (size <= 64 * ((size + 63) / 64)).
  { Z.div_mod_to_equations. lia. }
  assert (0 <= (size + 63) / 64) by (apply Z.div_pos; lia).
  lia.
Qed.

(** The transfers of a section leave the tapes of the image alone. *)
Lemma answers_chunk_msgs addr data size l h :
  read_section_tape (snd (answers (map (chunk_msg addr data size) l) h))
  = read_section_tape h /\
  image_open_tape (snd (answers (map (chunk_msg addr data size) l) h))
  = image_open_tape h.
Proof.
  revert h. induction l as [|k l IH]; intros h; [split; reflexivity|].
  cbn [map]. rewrite answers_cons. cbn [snd].
  destruct (IH (snd (answer (chunk_msg addr data size k) h))) as [-> ->].
  unfold chunk_msg, answer. destruct (pop _ (control_tape h)) as [r t].
  split; reflexivity.
Qed.

Lemma chunk_msgs_firmware addr data size l :
  Forall is_firmware_event (map (chunk_msg addr data size) l).
Proof.
  apply Forall_forall. intros e He. apply list_elem_of_fmap in He.
  destruct He as (k & -> & _). exact I.
Qed.

(** One section: the read, then the transfers. *)
Lemma write_section_calls i sec h :
  firmware_sections h !! i = Some sec ->
  let size := u16 (section_size sec) in
  let addr := u16 (section_base_address sec) in
  let reply := fst (pop (ERROR_FAIL, []) (read_section_tape h)) in
  let data := snd reply in
  let o := ulink_write_firmware_section i h in
  exists m,
    let evs := EvImageReadSection i 0 size
               :: map (chunk_msg addr data size) (seq 0 m) in
    snd o = snd (answers evs h) /\
    (m <= Z.to_nat ((size + 63) / 64))%nat /\
    stops_at_failure (returned_ok (fst o)) (fst (answers evs h)) /\
    (fst o = Returned ERROR_OK ->
     fst reply = ERROR_OK /\ Z.of_nat (length data) = size /\
     m = Z.to_nat ((size + 63) / 64)) /\
    (fst o = DownloadUndefined <->
     SECTION_BUFFERSIZE < Z.of_nat (length data)) /\
    (fst o = Returned ERROR_OK \/ fst o = Returned ERROR_FAIL \/
     fst o = DownloadUndefined) /\
    (fst reply <> ERROR_OK \/ Z.of_nat (length data) <> size \/
     SECTION_BUFFERSIZE < Z.of_nat (length data) -> m = 0%nat) /\
    read_section_tape (snd o)
    = snd (pop (ERROR_FAIL, []) (read_section_tape h)).
Proof.
  intros Hsec size addr reply data o. subst data reply.
  destruct (pop (ERROR_FAIL, []) (read_section_tape h)) as [[ret data] t] eqn:Epop.
  cbn [fst snd].
  set (h1 := host_log (EvImageReadSection i 0 size) (with_read_section_tape t h)).
  assert (answer (EvImageReadSection i 0 size) h
          = (is_ok ret && (Z.of_nat (length data) =? size)
             && (Z.of_nat (length data) <=? SECTION_BUFFERSIZE), h1)) as Hread.
  { unfold answer. rewrite Epop. reflexivity. }
  assert (o = (if Z.of_nat (length data) >? SECTION_BUFFERSIZE
               then hret DownloadUndefined
               else if negb (is_ok ret) || negb (Z.of_nat (length data) =? size)
               then hret (Returned ERROR_FAIL)
               else let+ r := write_chunks size addr data in
                    hret (Returned r)) h1) as Eo.
  { subst o. unfold ulink_write_firmware_section. rewrite Hsec. cbv zeta.
    rewrite hbind_eq. unfold image_read_section. rewrite Epop. reflexivity. }
  clearbody o. subst o.
  assert (0 <= size < 65536) as Hsize by (apply Z.mod_pos_bound; lia).
  assert (0 <= addr < 65536) as Haddr by (apply Z.mod_pos_bound; lia).
  destruct (Z.gtb_spec (Z.of_nat (length data)) SECTION_BUFFERSIZE)
    as [Hover | Hfits].
  { (* the buffer is overrun *)
    exists 0%nat. cbn [seq map hret fst snd returned_ok].
    rewrite answers_cons, Hread. cbn [fst snd answers hret].
    destruct (Z.leb_spec (Z.of_nat (length data)) SECTION_BUFFERSIZE); [lia|].
    rewrite andb_false_r.
    split; [reflexivity|]. split; [lia|]. split; [apply stops_failed|].
    split; [discriminate|]. split; [tauto|]. split; [auto|].
    split; reflexivity. }
  assert ((Z.of_nat (length data) <=? SECTION_BUFFERSIZE) = true) as Efits
    by (apply Z.leb_le; exact Hfits).
  rewrite Efits, andb_true_r in Hread.
  destruct (negb (is_ok ret) || negb (Z.of_nat (length data) =? size)) eqn:Ebad.
  - (* the section was not read in full *)
    exists 0%nat. cbn [seq map hret fst snd returned_ok].
    rewrite answers_cons, Hread. cbn [fst snd answers hret].
    assert (is_ok ret && (Z.of_nat (length data) =? size) = false) as ->.
    { apply orb_true_iff in Ebad. destruct Ebad as [E | E];
        apply negb_true_iff in E; rewrite E;
        [reflexivity | apply andb_false_r]. }
    split; [reflexivity|]. split; [lia|]. split; [apply stops_failed|].
    split; [discriminate|].
    split; [split; [discriminate | lia]|]. split; [auto|].
    split; reflexivity.
  - apply orb_false_iff in Ebad. destruct Ebad as [Eok Elen].
    apply negb_false_iff in Eok, Elen.
    assert (ret = ERROR_OK) as -> by (destruct ret; [reflexivity | discriminate..]).
    pose proof Elen as Hlen. apply Z.eqb_eq in Hlen.
    rewrite Elen in Hread. cbn [is_ok andb] in Hread.
    destruct (write_chunks_calls size Hsize addr data h1 Haddr)
      as (m & Hhost & Hm & Hstop & Hok & Hcode).
    rewrite hbind_eq. cbn [hret fst snd].
    set (oc := write_chunks size addr data h1) in *.
    exists m. rewrite answers_cons, Hread. cbn [fst snd].
    split; [exact Hhost|]. split; [exact Hm|].
    split.
    { apply stops_cons_true.
      destruct Hcode as [E | E]; rewrite E in Hstop |- *; exact Hstop. }
    split.
    { intros [= E]. split; [reflexivity|]. split; [exact Hlen | exact (Hok E)]. }
    split; [split; [discriminate | lia]|].
    split; [destruct Hcode as [-> | ->]; auto|].
    split; [intros [Hn | [Hn | Hn]]; [congruence | congruence | lia]|].
    rewrite Hhost.
    rewrite (proj1 (answers_chunk_msgs addr data size (seq 0 m) h1)).
    reflexivity.
Qed.

(** X13. [ulink_write_firmware_section] reads the section once and then
    sends it in control transfers of at most 64 bytes: transfer [k] carries
    the bytes from [64 * k] on and goes to the 16-bit address of the section
    plus [64 * k], wrapping around at 64 KiB.  It stops at the first call
    that fails: every call but the last one has succeeded, and the function
    returns [ERROR_OK] exactly when the last one has succeeded as well; the
    transfers are then all [ceil(size / 64)] of them, and put together they
    carry the section's bytes, each exactly once and in order.  A read is a
    failure when it returns an error or another number of bytes than asked
    for, and nothing is sent after it.  When [image_read_section] stores
    more than the [SECTION_BUFFERSIZE] bytes of the local buffer, and only
    then, the behaviour is undefined; every other failure is reported as
    [ERROR_FAIL]. *)
Theorem firmware_section_chunks i sec h :
  firmware_sections h !! i = Some sec ->
  let size := u16 (section_size sec) in
  let addr := u16 (section_base_address sec) in
  let reply := fst (pop (ERROR_FAIL, []) (read_section_tape h)) in
  let data := snd reply in
  let o := ulink_write_firmware_section i h in
  exists m,
    let evs := EvImageReadSection i 0 size
               :: map (chunk_msg addr data size) (seq 0 m) in
    host_trace (snd o) = host_trace h ++ evs /\
    (m <= Z.to_nat ((size + 63) / 64))%nat /\
    stops_at_failure (returned_ok (fst o)) (fst (answers evs h)) /\
    (fst reply <> ERROR_OK \/ Z.of_nat (length data) <> size \/
     SECTION_BUFFERSIZE < Z.of_nat (length data) -> m = 0%nat) /\
    (fst o = Returned ERROR_OK ->
     m = Z.to_nat ((size + 63) / 64) /\
     concat (map control_bytes (map (chunk_msg addr data size) (seq 0 m)))
     = data) /\
    (fst o = DownloadUndefined <->
     SECTION_BUFFERSIZE < Z.of_nat (length data)) /\
    (fst o = Returned ERROR_OK \/ fst o = Returned ERROR_FAIL \/
     fst o = DownloadUndefined).
Proof.
  intros Hsec size addr reply data o.
  destruct (write_section_calls i sec h Hsec)
    as (m & Hhost & Hm & Hstop & Hok & Hundef & Hcode & Hbad & _).
  fold size addr reply data o in Hhost, Hm, Hstop, Hok, Hundef, Hcode, Hbad.
  exists m. cbv zeta.
  split; [rewrite Hhost; apply answers_trace|].
  split; [exact Hm|]. split; [exact Hstop|]. split; [exact Hbad|].
  split; [|split; [exact Hundef | exact Hcode]].
  intros E. destruct (Hok E) as (_ & Hlen & ->). split; [reflexivity|].
  apply chunk_msgs_concat. exact Hlen.
Qed.

(** ** The download as a whole *)

Lemma pop_cons {A} (d x : A) t t' :
  pop d t = (x, t') -> x <> d -> t = x :: t'.
Proof.
  destruct t as [|y t]; simpl; intros [= <- <-]; [congruence | reflexivity].
Qed.

(** A prefix of the events of a section that ends within its transfers. *)
Lemma section_events_take i sec data m :
  (m <= Z.to_nat ((u16 (section_size sec) + 63) / 64))%nat ->
  EvImageReadSection i 0 (u16 (section_size sec))
  :: map (chunk_msg (u16 (section_base_address sec)) data
            (u16 (section_size sec))) (seq 0 m)
  = take (S m) (section_events i sec data).
Proof.
  intros Hm. unfold section_events. cbv zeta. cbn [take]. f_equal.
  rewrite <- fmap_take, take_seq. do 2 f_equal. lia.
Qed.

Lemma download_events_firmware secs : forall i datas,
  Forall is_firmware_event (download_events i secs datas).
Proof.
  induction secs as [|sec secs IH]; intros i [|data datas]; cbn;
    try constructor; [exact I|].
  apply Forall_app. split; [apply chunk_msgs_firmware | apply IH].
Qed.

Lemma firmware_events_firmware secs datas :
  Forall is_firmware_event (firmware_events secs datas).
Proof.
  unfold firmware_events. repeat (constructor; [exact I|]).
  apply Forall_app. split; [apply download_events_firmware|].
  repeat constructor.
Qed.

(** The loop over the sections. *)
Lemma write_sections_calls : forall n i h,
  (i + n = length (firmware_sections h))%nat ->
  let o := write_sections n i h in
  let secs := drop i (firmware_sections h) in
  exists evs,
    snd o = snd (answers evs h) /\
    stops_at_failure (returned_ok (fst o)) (fst (answers evs h)) /\
    (exists datas k, evs = take k (download_events i secs datas)) /\
    (fst o = Returned ERROR_OK ->
     exists datas,
       Forall2 (fun sec data => Z.of_nat (length data) = u16 (section_size sec))
               secs datas /\
       read_section_tape h
       = map (pair ERROR_OK) datas ++ read_section_tape (snd o) /\
       evs = download_events i secs datas) /\
    (fst o = DownloadUndefined ->
     exists j size, last evs = Some (EvImageReadSection j 0 size)) /\
    (fst o = Returned ERROR_OK \/ fst o = Returned ERROR_FAIL \/
     fst o = DownloadUndefined) /\
    (Forall (fun reply : retcode * list Z =>
               Z.of_nat (length (snd reply)) <= SECTION_BUFFERSIZE)
            (read_section_tape h) ->
     fst o <> DownloadUndefined).
Proof.
  induction n as [|n IH]; intros i h Hi o secs; subst o secs.
  - exists []. cbn [write_sections hret fst snd answers returned_ok
                    stops_at_failure].
    split; [reflexivity|]. split; [constructor|].
    split; [exists [], 0%nat; reflexivity|].
    split.
    { intros _. exists []. rewrite drop_ge by lia.
      split; [constructor|]. split; reflexivity. }
    split; [discriminate|]. split; [auto | discriminate].
  - destruct (lookup_lt_is_Some_2 (firmware_sections h) i) as [sec Hsec]; [lia|].
    destruct (write_section_calls i sec h Hsec)
      as (m & Hhost1 & Hm & Hstop1 & Hok1 & Hundef1 & Hcode1 & Hbad1 & Hread1).
    cbv zeta in Hhost1, Hstop1.
    rewrite (drop_S _ _ _ Hsec).
    cbn [write_sections]. rewrite hbind_eq.
    set (o1 := ulink_write_firmware_section i h) in *.
    set (data := snd (fst (pop (ERROR_FAIL, []) (read_section_tape h)))) in *.
    set (evs1 := EvImageReadSection i 0 (u16 (section_size sec)) :: _) in *.
    assert (evs1 = take (S m) (section_events i sec data)) as Etake
      by (apply section_events_take; exact Hm).
    destruct (returned_ok (fst o1)) eqn:E1; cbn [negb].
    + (* the section is sent: on to the next one *)
      assert (fst o1 = Returned ERROR_OK) as Eo1.
      { destruct (fst o1) as [[]|]; try discriminate E1. reflexivity. }
      destruct (Hok1 Eo1) as (Hret & Hlen & ->).
      assert (evs1 = section_events i sec data) as Eall.
      { rewrite Etake. apply take_ge. unfold section_events. cbv zeta.
        cbn [length]. rewrite length_map, length_seq. lia. }
      destruct (IH (S i) (snd o1)) as (evs2 & Hhost2 & Hstop2 & Hpre2 & Hok2
                                       & Hundef2 & Hcode2 & Hsmall2).
      { rewrite Hhost1, answers_sections. lia. }
      cbv zeta in Hhost2, Hstop2, Hpre2, Hok2.
      assert (firmware_sections (snd o1) = firmware_sections h) as Hsecs
        by (rewrite Hhost1; apply answers_sections).
      rewrite Hsecs in Hpre2, Hok2.
      set (o2 := write_sections n (S i) (snd o1)) in *.
      exists (evs1 ++ evs2). rewrite answers_app, <- Hhost1. cbn [fst snd].
      split; [exact Hhost2|].
      split; [apply stops_app; [exact Hstop1 | exact Hstop2]|].
      split.
      { destruct Hpre2 as (datas & k & ->).
        exists (data :: datas), (length evs1 + k)%nat.
        cbn [download_events]. rewrite <- Eall, take_app_add. reflexivity. }
      split.
      { intros E2. destruct (Hok2 E2) as (datas & HF & Hread & ->).
        destruct (pop (ERROR_FAIL, []) (read_section_tape h))
          as [[ret d] t] eqn:Epop.
        cbn [fst snd] in Hret, Hread1. subst ret.
        exists (data :: datas).
        split; [constructor; [exact Hlen | exact HF]|].
        split; [|cbn [download_events]; rewrite Eall; reflexivity].
        rewrite (pop_cons _ _ _ _ Epop) by discriminate.
        cbn [map app]. f_equal. rewrite <- Hread1. exact Hread. }
      split.
      { intros E2. destruct (Hundef2 E2) as (j & size & Hlast).
        exists j, size. rewrite last_app, Hlast. reflexivity. }
      split; [exact Hcode2|].
      intros Hsmall. apply Hsmall2. rewrite Hread1.
      destruct (read_section_tape h) as [|x t]; cbn [pop snd];
        [constructor | inversion Hsmall; assumption].
    + (* the section has failed *)
      cbn [hret fst snd].
      exists evs1.
      split; [exact Hhost1|]. split; [rewrite E1; exact Hstop1|].
      split.
      { exists [data], (S m). cbn [download_events].
        rewrite take_app_le; [exact Etake|].
        unfold section_events. cbv zeta. cbn [length].
        rewrite length_map, length_seq. lia. }
      split; [intros E; rewrite E in E1; discriminate|].
      split.
      { intros E. apply Hundef1 in E.
        pose proof (Hbad1 (or_intror (or_intror E))) as Hm0.
        exists i, (u16 (section_size sec)). unfold evs1. rewrite Hm0.
        reflexivity. }
      split; [exact Hcode1|].
      intros Hsmall E. apply Hundef1 in E. subst data.
      destruct (read_section_tape h) as [|x t]; cbn [pop fst snd length] in E.
      * unfold SECTION_BUFFERSIZE in E. lia.
      * inversion Hsmall; subst. lia.
Qed.

Lemma cpu_reset_answer bit h :
  (bit = 0 \/ bit = 1) ->
  answer (cpucs_msg bit) h
  = (is_ok (fst (ulink_cpu_reset bit h)), snd (ulink_cpu_reset bit h)) /\
  (fst (ulink_cpu_reset bit h) = ERROR_OK \/
   fst (ulink_cpu_reset bit h) = ERROR_FAIL).
Proof.
  intros Hbit. unfold ulink_cpu_reset. rewrite hbind_eq.
  unfold answer, cpucs_msg, usb_control_msg.
  destruct (pop 1 (control_tape h)) as [r t]. cbn [fst snd].
  destruct (r =? 1); cbn [negb hret fst snd is_ok];
    (split; [|auto]); destruct Hbit as [-> | ->]; reflexivity.
Qed.

Lemma image_open_answer h :
  answer EvImageOpen h = (is_ok (fst (image_open h)), snd (image_open h)).
Proof.
  unfold answer, image_open. destruct (pop _ _) as [r t]. reflexivity.
Qed.

Lemma image_open_code h :
  fst (image_open h) = fst (pop ERROR_OK (image_open_tape h)) /\
  read_section_tape (snd (image_open h)) = read_section_tape h.
Proof.
  unfold image_open. destruct (pop _ _) as [r t]. split; reflexivity.
Qed.

(** The steps of [ulink_load_firmware]. *)
Lemma load_firmware_eq h :
  let o1 := ulink_cpu_reset 1 h in
  let o2 := image_open (snd o1) in
  let o3 := write_sections (length (firmware_sections (snd o2))) 0 (snd o2) in
  let o5 := ulink_cpu_reset 0 (host_log EvImageClose (snd o3)) in
  ulink_load_firmware h
  = if negb (is_ok (fst o1)) then (Returned (fst o1), snd o1)
    else if negb (is_ok (fst o2)) then (Returned (fst o2), snd o2)
    else if negb (returned_ok (fst o3)) then o3
    else if negb (is_ok (fst o5)) then (Returned (fst o5), snd o5)
    else (Returned ERROR_OK, snd o5).
Proof.
  intros o1 o2 o3 o5. subst o1 o2 o3 o5.
  unfold ulink_load_firmware, hbind, hret, image_close.
  change CPU_RESET with 1. change CPU_START with 0.
  destruct (ulink_cpu_reset 1 h) as [r1 h1]. cbn [fst snd].
  destruct (negb (is_ok r1)); [reflexivity|].
  destruct (image_open h1) as [r2 h2]. cbn [fst snd].
  destruct (negb (is_ok r2)); [reflexivity|].
  destruct (write_sections _ 0 h2) as [r3 h3]. cbn [fst snd].
  destruct (negb (returned_ok r3)); [reflexivity|].
  destruct (ulink_cpu_reset 0 _) as [r5 h5]. cbn [fst snd].
  destruct (negb (is_ok r5)); reflexivity.
Qed.

(** The download as a whole. *)
Lemma load_firmware_calls h :
  let o := ulink_load_firmware h in
  let secs := firmware_sections h in
  exists evs,
    snd o = snd (answers evs h) /\
    stops_at_failure (returned_ok (fst o)) (fst (answers evs h)) /\
    (exists datas k,
       (1 <= k)%nat /\ evs = take k (firmware_events secs datas)) /\
    (fst o = Returned ERROR_OK ->
     exists datas,
       Forall2 (fun sec data => Z.of_nat (length data) = u16 (section_size sec))
               secs datas /\
       read_section_tape h
       = map (pair ERROR_OK) datas ++ read_section_tape (snd o) /\
       evs = firmware_events secs datas) /\
    (fst o = DownloadUndefined ->
     exists j size, last evs = Some (EvImageReadSection j 0 size)) /\
    (fst o = Returned ERROR_OK \/ fst o = Returned ERROR_FAIL \/
     fst o = DownloadUndefined \/
     (evs = [cpucs_msg 1; EvImageOpen] /\
      fst o = Returned (fst (pop ERROR_OK (image_open_tape h))))) /\
    (Forall (fun reply : retcode * list Z =>
               Z.of_nat (length (snd reply)) <= SECTION_BUFFERSIZE)
            (read_section_tape h) ->
     fst o <> DownloadUndefined).
Proof.
  intros o secs. subst o secs. rewrite (load_firmware_eq h). cbv zeta.
  destruct (cpu_reset_answer 1 h (or_intror eq_refl)) as [A1 C1].
  set (o1 := ulink_cpu_reset 1 h) in *.
  assert (read_section_tape (snd o1) = read_section_tape h /\
          image_open_tape (snd o1) = image_open_tape h) as [R1 O1].
  { change (snd o1) with (snd (is_ok (fst o1), snd o1)). rewrite <- A1.
    unfold answer, cpucs_msg. destruct (pop 1 (control_tape h)) as [r t].
    split; reflexivity. }
  destruct (negb (is_ok (fst o1))) eqn:E1.
  { (* the CPU could not be halted *)
    apply negb_true_iff in E1.
    assert (fst o1 = ERROR_FAIL) as Ef.
    { destruct C1 as [E | E]; [rewrite E in E1; discriminate | exact E]. }
    cbn [fst snd]. exists [cpucs_msg 1].
    rewrite answers_cons, A1, E1. cbn [fst snd answers hret].
    rewrite Ef. cbn [returned_ok].
    split; [reflexivity|]. split; [apply stops_failed|].
    split; [exists [], 1%nat; split; [lia | reflexivity]|].
    split; [discriminate|]. split; [discriminate|].
    split; [auto | discriminate]. }
  apply negb_false_iff in E1.
  pose proof (image_open_answer (snd o1)) as A2.
  destruct (image_open_code (snd o1)) as [Ecode2 R2].
  rewrite O1 in Ecode2. rewrite R1 in R2.
  set (o2 := image_open (snd o1)) in *.
  assert (firmware_sections (snd o2) = firmware_sections h) as S2.
  { change (snd o2) with (snd (is_ok (fst o2), snd o2)).
    rewrite <- A2, answer_sections.
    change (snd o1) with (snd (is_ok (fst o1), snd o1)).
    rewrite <- A1. apply answer_sections. }
  destruct (negb (is_ok (fst o2))) eqn:E2.
  { (* the image could not be opened *)
    apply negb_true_iff in E2.
    cbn [fst snd]. exists [cpucs_msg 1; EvImageOpen].
    rewrite !answers_cons, A1, E1. cbn [fst snd]. rewrite A2, E2.
    cbn [fst snd answers hret].
    assert (returned_ok (Returned (fst o2)) = false) as ->.
    { cbn [returned_ok]. destruct (fst o2); [discriminate E2 | reflexivity..]. }
    split; [reflexivity|].
    split; [exact (stops_snoc_failed [true] ltac:(repeat constructor))|].
    split; [exists [], 2%nat; split; [lia | reflexivity]|].
    split; [intros [= E]; rewrite E in E2; discriminate|].
    split; [discriminate|].
    split; [right; right; right; split; [reflexivity | congruence]|].
    discriminate. }
  apply negb_false_iff in E2.
  destruct (write_sections_calls (length (firmware_sections (snd o2))) 0
              (snd o2) eq_refl)
    as (evs3 & Hhost3 & Hstop3 & Hpre3 & Hok3 & Hundef3 & Hcode3 & Hsmall3).
  cbv zeta in Hhost3, Hstop3, Hpre3, Hok3.
  set (o3 := write_sections _ 0 (snd o2)) in *.
  rewrite drop_0, S2 in Hpre3, Hok3. rewrite R2 in Hok3, Hsmall3.
  assert (answers (cpucs_msg 1 :: EvImageOpen :: evs3) h
          = (true :: true :: fst (answers evs3 (snd o2)), snd o3)) as A3.
  { rewrite !answers_cons, A1, E1. cbn [fst snd]. rewrite A2, E2.
    cbn [fst snd]. rewrite Hhost3. reflexivity. }
  destruct (returned_ok (fst o3)) eqn:E3; cbn [negb].
  2:{ (* a section could not be sent *)
      exists (cpucs_msg 1 :: EvImageOpen :: evs3).
      rewrite A3. cbn [fst snd]. rewrite E3.
      split; [reflexivity|].
      split; [do 2 apply stops_cons_true; exact Hstop3|].
      split.
      { destruct Hpre3 as (datas & k & ->).
        set (l := download_events 0 (firmware_sections h) datas).
        exists datas, (2 + Nat.min k (length l))%nat.
        split; [lia|]. unfold firmware_events. fold l. cbn [take Nat.add].
        do 2 f_equal. rewrite take_app_le by lia.
        destruct (Nat.le_gt_cases k (length l)) as [Hle | Hgt].
        - rewrite Nat.min_l by lia. reflexivity.
        - rewrite Nat.min_r by lia. rewrite !take_ge by lia. reflexivity. }
      split; [intros E; rewrite E in E3; discriminate|].
      split.
      { intros E. destruct (Hundef3 E) as (j & size & Hlast).
        exists j, size.
        change (cpucs_msg 1 :: EvImageOpen :: evs3)
          with ([cpucs_msg 1; EvImageOpen] ++ evs3).
        rewrite last_app, Hlast. reflexivity. }
      split; [destruct Hcode3 as [E | [E | E]]; auto|].
      exact Hsmall3. }
  assert (fst o3 = Returned ERROR_OK) as Eo3.
  { destruct (fst o3) as [[]|]; try discriminate E3. reflexivity. }
  destruct (Hok3 Eo3) as (datas & HF & Hread & ->).
  cbn [stops_at_failure] in Hstop3.
  set (h4 := host_log EvImageClose (snd o3)) in *.
  destruct (cpu_reset_answer 0 h4 (or_introl eq_refl)) as [A5 C5].
  set (o5 := ulink_cpu_reset 0 h4) in *.
  assert (read_section_tape (snd o5) = read_section_tape (snd o3)) as R5.
  { change (snd o5) with (snd (is_ok (fst o5), snd o5)). rewrite <- A5.
    rewrite answer_read_tape by (intros; discriminate). reflexivity. }
  set (l := download_events 0 (firmware_sections h) datas) in *.
  assert (answers (firmware_events (firmware_sections h) datas) h
          = (true :: true :: fst (answers l (snd o2))
               ++ [true; is_ok (fst o5)], snd o5)) as A.
  { unfold firmware_events. fold l.
    rewrite !answers_cons, A1, E1. cbn [fst snd]. rewrite A2, E2.
    cbn [fst snd]. rewrite answers_app, <- Hhost3.
    rewrite !answers_cons. cbn [answer fst snd]. fold h4. rewrite A5.
    reflexivity. }
  exists (firmware_events (firmware_sections h) datas). rewrite A.
  assert ((if negb (is_ok (fst o5))
           then (Returned (fst o5), snd o5)
           else (Returned ERROR_OK, snd o5))
          = (Returned (fst o5), snd o5)) as ->.
  { destruct C5 as [-> | ->]; reflexivity. }
  cbn [fst snd].
  split; [reflexivity|].
  split.
  { change (true :: true :: fst (answers l (snd o2)) ++ [true; is_ok (fst o5)])
      with ([true; true] ++ fst (answers l (snd o2))
            ++ [true] ++ [is_ok (fst o5)]).
    apply stops_app; [repeat constructor|].
    apply stops_app; [exact Hstop3|].
    destruct C5 as [-> | ->]; cbn [returned_ok is_ok].
    - repeat constructor.
    - apply stops_cons_true, stops_failed. }
  split.
  { exists datas, (length (firmware_events (firmware_sections h) datas)).
    split; [unfold firmware_events; cbn [length]; lia|].
    rewrite take_ge by lia. reflexivity. }
  split.
  { intros _. exists datas. split; [exact HF|]. split; [|reflexivity].
    rewrite R5. exact Hread. }
  split; [discriminate|].
  split; [destruct C5 as [-> | ->]; auto | discriminate].
Qed.


(** ** Re-enumeration *)

Lemma load_firmware_same_host h : same_host h (snd (ulink_load_firmware h)).
Proof.
  destruct (load_firmware_calls h)
    as (evs & Hhost & _ & (datas & k & _ & Hevs) & _).
  rewrite Hhost. apply answers_same_host. rewrite Hevs.
  apply Forall_take, firmware_events_firmware.
Qed.

Lemma error_code_not_ok ret : error_code ret <> ERROR_OK.
Proof. unfold error_code. destruct (ret =? -4); discriminate. Qed.

(** Replays the calls of a list of events whose answers are known. *)
Ltac replay :=
  cbn [take answers]; unfold hbind, hret, answer;
  repeat (cbn [fst snd negb is_ok
               release_tape usb_close_tape usb_open_tape claim_tape
               host_trace usb_handle
               host_log with_release_tape with_usb_close_tape
               with_usb_open_tape with_claim_tape with_usb_handle];
          match goal with
          | P : pop _ _ = _ |- _ => rewrite P
          end).

(** The steps of the re-enumeration. *)
Lemma renumerate_calls delay h :
  let ol := ulink_load_firmware h in
  let o := ulink_load_firmware_and_renumerate delay h in
  let reopen := [EvReleaseInterface; EvUsbClose; EvHostUsleep (u32 delay);
                 EvUsbOpen; EvClaimInterface] in
  (fst ol <> Returned ERROR_OK -> o = ol) /\
  (fst ol = Returned ERROR_OK ->
   exists k,
     host_trace (snd o) = host_trace (snd ol) ++ take k reopen /\
     (1 <= k)%nat /\
     stops_at_failure (returned_ok (fst o))
                      (fst (answers (take k reopen) (snd ol))) /\
     (fst o = Returned ERROR_OK -> k = 5%nat /\ usb_handle (snd o) = true) /\
     (fst o <> Returned ERROR_OK ->
      usb_handle (snd o) = if (3 <=? k)%nat then false else usb_handle h) /\
     (fst o = Returned ERROR_OK \/ fst o = Returned ERROR_FAIL \/
      (k = 4%nat /\
       fst o = Returned (fst (pop ERROR_OK (usb_open_tape (snd ol))))) \/
      (k = 5%nat /\
       fst o = Returned (error_code (fst (pop 0 (claim_tape (snd ol)))))))).
Proof.
  intros ol o reopen. subst o reopen.
  pose proof (sh_handle _ _ (load_firmware_same_host h)) as Hh. fold ol in Hh.
  unfold ulink_load_firmware_and_renumerate. rewrite hbind_eq. fold ol.
  destruct ol as [rl h1]. cbn [fst snd] in *.
  destruct (returned_ok rl) eqn:El; cbn [negb hret].
  2:{ split; [reflexivity|]. intros ->. discriminate El. }
  assert (rl = Returned ERROR_OK) as ->.
  { destruct rl as [[]|]; try discriminate El. reflexivity. }
  split; [congruence|]. intros _.
  unfold ulink_usb_close, ulink_usb_open, hbind, hret, usb_release_interface,
    usb_close, host_usleep, jtag_usb_open, usb_claim_interface.
  destruct (pop 0 (release_tape h1)) as [r1 t1] eqn:P1.
  destruct (r1 =? 0) eqn:E1; cbn [negb is_ok fst snd].
  2:{ exists 1%nat. replay. rewrite E1. cbn [returned_ok Nat.leb].
      split; [reflexivity|]. split; [lia|].
      split; [apply stops_failed|]. split; [discriminate|].
      split; [intros _; exact Hh | auto]. }
  cbn [usb_close_tape host_log with_release_tape].
  destruct (pop 0 (usb_close_tape h1)) as [r2 t2] eqn:P2.
  destruct (r2 =? 0) eqn:E2; cbn [negb is_ok fst snd].
  2:{ exists 2%nat. replay. rewrite E1, E2. cbn [returned_ok Nat.leb].
      split; [rewrite <- app_assoc; reflexivity|]. split; [lia|].
      split; [exact (stops_snoc_failed [true] ltac:(repeat constructor))|].
      split; [discriminate|]. split; [intros _; exact Hh | auto]. }
  cbn [usb_open_tape host_log with_usb_close_tape with_release_tape
       with_usb_handle].
  destruct (pop ERROR_OK (usb_open_tape h1)) as [r4 t4] eqn:P4.
  destruct (is_ok r4) eqn:E4; cbn [negb fst snd].
  2:{ exists 4%nat.
      destruct r4 as [| |code]; [discriminate E4| |]; replay;
        rewrite E1, E2; cbn [is_ok returned_ok Nat.leb];
        (split; [rewrite <- !app_assoc; reflexivity|]); (split; [lia|]);
        (split; [exact (stops_snoc_failed [true; true; true]
                          ltac:(repeat constructor))|]);
        (split; [discriminate|]); (split; [reflexivity|]); auto. }
  assert (r4 = ERROR_OK) as ->.
  { destruct r4; [reflexivity | discriminate E4..]. }
  cbn [is_ok claim_tape host_log with_usb_open_tape with_usb_close_tape
       with_release_tape with_usb_handle].
  destruct (pop 0 (claim_tape h1)) as [r5 t5] eqn:P5.
  exists 5%nat.
  destruct (r5 =? 0) eqn:E5; cbn [negb is_ok fst snd]; replay;
    rewrite E1, E2, E5; cbn [is_ok Nat.leb].
  - cbn [returned_ok stops_at_failure].
    split; [rewrite <- !app_assoc; reflexivity|]. split; [lia|].
    split; [repeat constructor|]. split; [auto|].
    split; [congruence | auto].
  - pose proof (error_code_not_ok r5) as Hne.
    destruct (error_code r5) as [| |code] eqn:Ec; [congruence| |];
      cbn [negb is_ok fst snd returned_ok host_trace usb_handle
           host_log with_release_tape with_usb_close_tape
           with_usb_open_tape with_claim_tape with_usb_handle];
      (split; [rewrite <- !app_assoc; reflexivity|]); (split; [lia|]);
      (split; [exact (stops_snoc_failed [true; true; true; true]
                        ltac:(repeat constructor))|]);
      (split; [discriminate|]); (split; [reflexivity|]); auto.
Qed.


(** ** The download on a sample image *)

Lemma firmware_section_chunks_witness :
  let o := ulink_write_firmware_section 0 sample_host in
  fst o = Returned ERROR_OK /\
  map control_bytes (host_trace (snd o))
  = [[]; replicate 64 7; replicate 6 7].
Proof.
  intros o.
  destruct (firmware_section_chunks 0
              {| section_size := 70; section_base_address := 65500 |}
              sample_host eq_refl) as (m & T & _ & _ & _ & Hok & _).
  fold o in T, Hok.
  assert (fst o = Returned ERROR_OK) as E by (vm_compute; reflexivity).
  destruct (Hok E) as [-> _].
  split; [exact E|]. rewrite T. vm_compute. reflexivity.
Defined.

Lemma split_scan_layout_witness :
  let scan := {| ir_scan := false; jtag_scan_size := 512;
                 jtag_scan_type := SCAN_OUT;
                 jtag_build_buffer := replicate 64 170;
                 scan_end_state := TAP_IDLE |} in
  exists w' c,
    @ulink_queue_scan sample_externals scan idle_world = Done ERROR_OK w' /\
    enqueued (trace w') !! 1%nat = Some c /\
    header_byte c 0 = Some 6 /\
    header_byte c 3 = Some (u8 (sample_tms_path TAP_DRPAUSE TAP_DRSHIFT)) /\
    tdi_bytes c = replicate 6 170.
Proof.
  intros scan.
  pose (w' := world_of (@ulink_queue_scan sample_externals scan idle_world)).
  assert (@ulink_queue_scan sample_externals scan idle_world = Done ERROR_OK w')
    as Hrun by (vm_compute; reflexivity).
  destruct (@split_scan_layout sample_externals scan idle_world w')
    as (cmds & Henq & Hlen & Hlayout).
  - simpl. lia.
  - intros _. reflexivity.
  - exact Hrun.
  - assert (length cmds = 2%nat) as Hlen2.
    { change ((jtag_scan_size scan + 7) / 8) with 64 in Hlen.
      change ((64 + 57) / 58) with 2 in Hlen. lia. }
    destruct cmds as [|c0 [|c1 [|c2 cmds]]]; try discriminate Hlen2.
    destruct (Hlayout 1%nat c1 eq_refl) as (H0 & _ & H3 & _ & _ & _ & Htdi).
    exists w', c1. split; [exact Hrun|]. split; [rewrite Henq; reflexivity|].
    split; [exact H0|]. split; [exact H3|]. exact (Htdi eq_refl).
Defined.



(** ** What the remaining constructors emit *)

Section Constructors.

Context `{Ext : Externals}.

Lemma out_constructor_runs (i : cmd_id) (size : Z) (f : ulink_cmd -> ulink_cmd)
    (c : ulink_cmd) w :
  f (set_payload_out (Some (replicate (Z.to_nat size) 0)) (u8 size)
       (set_id i zeroed_cmd)) = c ->
  runs
    (let* ok := calloc_ok in
     if negb ok then ret ERROR_FAIL
     else
       let cmd := set_id i zeroed_cmd in
       let* rc := ulink_allocate_payload cmd size PAYLOAD_DIRECTION_OUT in
       let '(r, cmd) := rc in
       if negb (is_ok r) then ret r
       else ulink_append_queue (f cmd))
    w (append_result c w).
Proof.
  intros <-.
  call calloc_ok_runs. intros ok w1 Q1.
  destruct ok; simpl; [|step; apply append_failed; [discriminate | exact Q1]].
  call allocate_out_runs; [reflexivity|]. intros rc w2 [Q2 Hrc].
  pose proof (quiet_trans _ _ _ Q1 Q2) as Q12.
  destruct Hrc as [-> | ->]; simpl.
  - eapply runs_weaken; [apply append_queue_runs|].
    intros r w3 Hres. exact (append_result_pre _ _ _ _ _ Q12 Hres).
  - step. apply append_failed; [discriminate | exact Q12].
Qed.

Lemma calloc_ok_step w (Q : bool -> world -> Prop) :
  (forall ok t, Q ok (with_calloc_tape t w)) -> runs calloc_ok w Q.
Proof.
  intros HQ. unfold runs, calloc_ok.
  destruct (pop true (calloc_tape w)) as [ok t]. eauto.
Qed.

Lemma new_block_step size w (Q : ptr -> world -> Prop) :
  Q {| blk := next_block w; ofs := 0 |}
    (with_heap (<[next_block w := replicate (Z.to_nat size) 0]> (heap w))
               (S (next_block w)) w) ->
  runs (new_block size) w Q.
Proof. intros HQ. unfold runs, new_block. eauto. Qed.

Lemma get_signals_runs w :
  runs ulink_append_get_signals_cmd w
       (append_result (get_signals_cmd {| blk := next_block w; ofs := 0 |}) w).
Proof.
  unfold ulink_append_get_signals_cmd.
  apply runs_bind, calloc_ok_step. intros ok t.
  set (w1 := with_calloc_tape t w).
  assert (quiet w w1) as Q1.
  { split; try reflexivity. exists []. rewrite app_nil_r. auto. }
  destruct ok; cbn [negb]; cbv beta iota zeta.
  2:{ step. apply append_failed; [discriminate | exact Q1]. }
  apply runs_bind. unfold ulink_allocate_payload.
  apply runs_bind, calloc_ok_step. intros ok2 t2.
  set (w2 := with_calloc_tape t2 w1).
  assert (quiet w w2) as Q2.
  { split; try reflexivity. exists []. rewrite app_nil_r. auto. }
  destruct ok2; cbn [negb]; cbv beta iota.
  2:{ step. cbn [negb is_ok]. step.
      apply append_failed; [discriminate | exact Q2]. }
  cbn [payload_in_start set_needs_postprocessing set_id zeroed_cmd].
  apply runs_bind, new_block_step.
  step. cbn [negb is_ok]. cbv beta iota.
  set (w3 := with_heap _ _ w2).
  assert (quiet w w3) as Q3.
  { split; try reflexivity. exists []. rewrite app_nil_r. auto. }
  eapply runs_weaken; [apply append_queue_runs|].
  intros r w4 Hres.
  exact (append_result_pre _ _ _ _ _ Q3 Hres).
Qed.

(** X16. The constructors of the commands without a request behind them.
    Each of them always returns; when it returns [ERROR_OK] the command
    described is the only one it has emitted, and otherwise it has emitted
    none.  The get-signals command has no OUT payload and takes two IN bytes
    into a buffer of its own, which it owns; it is flagged for
    post-processing but names no request.  The configure-tck command carries
    its three delays, the led command its byte and the test command the
    byte [0xAA], each as its whole OUT payload, with no IN payload. *)
Theorem constructors_emit w :
  let emits (m : M retcode) (c : ulink_cmd) :=
    exists r w',
      m w = Done r w' /\
      enqueued (trace w')
      = enqueued (trace w) ++ (if is_ok r then [c] else []) /\
      cur_state w' = cur_state w /\
      end_state_follower w' = end_state_follower w in
  emits ulink_append_get_signals_cmd
        (get_signals_cmd {| blk := next_block w; ofs := 0 |}) /\
  (forall delay_scan delay_tck delay_tms,
     emits (ulink_append_configure_tck_cmd delay_scan delay_tck delay_tms)
           (out_cmd CMD_CONFIGURE_TCK_FREQ [delay_scan; delay_tck; delay_tms])) /\
  (forall led_state,
     emits (ulink_append_led_cmd led_state) (out_cmd CMD_SET_LEDS [led_state])) /\
  emits ulink_append_test_cmd (out_cmd CMD_TEST [170]).
Proof.
  intros emits.
  assert (forall m c, runs m w (append_result c w) -> emits m c) as Hemit.
  { intros m c (r & w' & Hrun & Hres). exists r, w'. split; [exact Hrun|].
    apply (append_result_enqueued _ _ _ _ Hres). }
  split; [|split; [|split]].
  - apply Hemit, get_signals_runs.
  - intros. apply Hemit.
    apply (out_constructor_runs _ 3
             (fun c => set_out 2 delay_tms
                         (set_out 1 delay_tck (set_out 0 delay_scan c)))).
    reflexivity.
  - intros. apply Hemit.
    apply (out_constructor_runs _ 1 (fun c => set_out 0 led_state c)).
    reflexivity.
  - apply Hemit.
    apply (out_constructor_runs _ 1 (fun c => set_out 0 170 c)).
    reflexivity.
Qed.

End Constructors.

(** * Properties of the start-up *)

Section StartUp.

Context `{Ext : Externals}.

Lemma test_cmd_inv w :
  driver_inv w -> runs ulink_append_test_cmd w (fun _ w' => driver_inv w').
Proof.
  intros HI. apply (out_constructor_inv _ 1 (fun c => set_out 0 170 c));
    [assumption | lia | intros; apply set_out_frame].
Qed.

(** The hand-shake ends with an empty queue when it succeeds, with a queue
    within the bounds when it fails, and in the dereference of a null
    pointer only with an empty queue. *)
Lemma init_handshake_runs w :
  runs init_handshake w (fun res w' =>
    match res with
    | InitReturned ERROR_OK =>
        ulink_handle w' = {| commands_in_queue := 0; queue := [] |}
    | InitReturned _ => driver_inv w'
    | InitUndefined => queue (ulink_handle w') = []
    | InitDownloadUndefined => False
    end).
Proof.
  unfold init_handshake.
  call clear_queue_runs. intros [] w1 C1.
  pose proof (cleared_driver_inv _ _ C1) as HI1.
  apply runs_bind. eapply runs_weaken; [apply (test_cmd_inv w1 HI1)|].
  intros r w2 HI2. cbv beta.
  destruct r; cbn [negb is_ok]; try (step; exact HI2).
  call execute_runs. intros r3 w3 Q3.
  pose proof (quiet_driver_inv _ _ Q3 HI2) as HI3.
  apply runs_bind.
  assert (runs
    (if negb (is_ok r3)
     then let* _ := calloc_ok in
          let* rb := usb_bulk_read (replicate 64 0) 64 200 in
          ret (fst rb <? 0)
     else ret false) w3 (fun _ w4 => driver_inv w4)) as Hlost.
  { destruct (negb (is_ok r3)); [|step; exact HI3].
    call calloc_ok_runs. intros ok w4 Q4.
    call usb_bulk_read_runs. intros rb w5 Q5. step.
    exact (quiet_driver_inv _ _ (quiet_trans _ _ _ Q4 Q5) HI3). }
  eapply runs_weaken; [exact Hlost|]. intros lost w4 HI4. cbv beta.
  destruct lost; [step; exact HI4|].
  call clear_queue_runs. intros [] w5 C5.
  pose proof (cleared_handle _ _ C5) as H5.
  call get_signals_runs. intros r6 w6 Hres.
  call execute_runs. intros r7 w7 Q7.
  step. step.
  rewrite (quiet_handle _ _ Q7).
  destruct Hres as [w6 t q0 F T Hq Hq0 _ _ | r6 w6 Hr Q6].
  - assert (q0 = []) as ->.
    { destruct Hq0 as [[-> _] | [-> _]]; [rewrite H5|]; reflexivity. }
    rewrite Hq. cbn [app get_signals_cmd payload_in].
    call clear_queue_runs. intros [] w8 C8. step.
    exact (cleared_handle _ _ C8).
  - rewrite (quiet_handle _ _ Q6), H5. cbn [queue]. step.
    rewrite (quiet_handle _ _ Q7), (quiet_handle _ _ Q6), H5. reflexivity.
Qed.

(** X17. [ulink_init] always comes to an end, and when it returns
    [ERROR_OK] the command queue is empty and its counter is zero, so that
    the driver starts from a queue as every later call keeps it.  It ends
    in the dereference of a null pointer only if the get-signals command of
    the hand-shake could not be queued; the queue is empty then. *)
Theorem init_leaves_queue_empty h w :
  exists result h' w',
    ulink_init h w = Done (result, h') w' /\
    (result = InitReturned ERROR_OK ->
     ulink_handle w' = {| commands_in_queue := 0; queue := [] |} /\
     driver_inv w') /\
    (result = InitUndefined -> queue (ulink_handle w') = []).
Proof.
  assert (forall h0 w0,
    runs (let* result := init_handshake in ret (result, h0)) w0
      (fun (rh : init_result * host) w' =>
         (fst rh = InitReturned ERROR_OK ->
          ulink_handle w' = {| commands_in_queue := 0; queue := [] |} /\
          driver_inv w') /\
         (fst rh = InitUndefined -> queue (ulink_handle w') = []))) as Hhs.
  { intros h0 w0. call init_handshake_runs. intros res w' Hres. step.
    cbn [fst]. split.
    - intros ->. split; [exact Hres|].
      unfold driver_inv. rewrite Hres. simpl.
      repeat split; try lia. constructor.
    - intros ->. exact Hres. }
  assert (runs (ulink_init h) w
            (fun (rh : init_result * host) w' =>
               (fst rh = InitReturned ERROR_OK ->
                ulink_handle w' = {| commands_in_queue := 0; queue := [] |} /\
                driver_inv w') /\
               (fst rh = InitUndefined -> queue (ulink_handle w') = []))) as Hrun.
  { unfold ulink_init.
    call calloc_ok_runs. intros ok w1 _.
    destruct ok; cbn [negb]; [|step; cbn [fst]; split; discriminate].
    step. step.
    destruct (ulink_usb_open h) as [r1 h1].
    destruct (negb (is_ok r1)) eqn:E1.
    { step. cbn [fst]. split; [|discriminate].
      intros [= ->]. discriminate E1. }
    destruct (usb_get_string_simple 1 20 h1) as [descriptor h2]. cbv zeta.
    destruct (if if fst descriptor <? 0 then true
                 else not_OpenULINK (snd descriptor)
              then ulink_load_firmware_and_renumerate
                     ULINK_RENUMERATION_DELAY h2
              else (Returned ERROR_OK, h2)) as [[r3|] h3].
    2:{ step. cbn [fst]. split; discriminate. }
    destruct (negb (is_ok r3)) eqn:E3.
    { step. cbn [fst]. split; [|discriminate].
      intros [= ->]. discriminate E3. }
    apply Hhs. }
  destruct Hrun as ([result h'] & w' & Hrun & Hok & Hundef).
  exists result, h', w'. cbn [fst] in *. auto.
Qed.

End StartUp.

(** ** Whether the firmware is downloaded *)

Lemma usb_open_ok h :
  fst (ulink_usb_open h) = ERROR_OK ->
  host_trace (snd (ulink_usb_open h))
  = host_trace h ++ [EvUsbOpen; EvClaimInterface] /\
  usb_handle (snd (ulink_usb_open h)) = true.
Proof.
  unfold ulink_usb_open, hbind, hret, jtag_usb_open, usb_claim_interface.
  destruct (pop ERROR_OK (usb_open_tape h)) as [r t].
  destruct r; cbn [negb is_ok fst snd]; try discriminate.
  cbn [claim_tape host_log with_usb_open_tape].
  destruct (pop 0 (claim_tape h)) as [rc tc].
  destruct (negb (rc =? 0)); cbn [fst snd];
    [intros E; exfalso; exact (error_code_not_ok rc E)|].
  intros _. cbn. rewrite <- app_assoc. auto.
Qed.

Lemma renumerate_begins_with_halt delay h :
  exists evs,
    host_trace (snd (ulink_load_firmware_and_renumerate delay h))
    = host_trace h ++ cpucs_msg 1 :: evs.
Proof.
  destruct (load_firmware_calls h)
    as (evs & Hhost & _ & (datas & k & Hk & Hevs) & _).
  assert (host_trace (snd (ulink_load_firmware h))
          = host_trace h ++ cpucs_msg 1 :: tl evs) as T.
  { rewrite Hhost, answers_trace. do 2 f_equal. rewrite Hevs.
    destruct k; [lia | reflexivity]. }
  destruct (renumerate_calls delay h) as [Hfail Hok].
  destruct (returned_ok (fst (ulink_load_firmware h))) eqn:E.
  - destruct Hok as (n & Tn & _).
    { destruct (fst (ulink_load_firmware h)) as [[]|]; try discriminate E.
      reflexivity. }
    eexists. rewrite Tn, T, <- app_assoc. reflexivity.
  - rewrite Hfail; [eauto|]. intros E'. rewrite E' in E. discriminate.
Qed.

Section FirmwareDecision.

Context `{Ext : Externals}.

(** X18. Whether [ulink_init] downloads the firmware.  Once the driver
    instance is allocated and the device is open, [ulink_init] asks for
    string descriptor 1.  If the answer is not an error and begins with
    [OpenULINK], no firmware is downloaded: nothing more happens on the host
    side.  In every other case the firmware is downloaded and the device
    re-enumerated, beginning with the halt of the adapter's CPU, and if that
    fails, or ends in undefined behaviour, [ulink_init] ends with it
    without any traffic on the bulk endpoints. *)
Theorem init_downloads_unless_OpenULINK h w :
  let h1 := snd (ulink_usb_open h) in
  let reply := fst (pop (9, OpenULINK) (descriptor_tape h1)) in
  let h2 := snd (usb_get_string_simple 1 20 h1) in
  let o := ulink_load_firmware_and_renumerate ULINK_RENUMERATION_DELAY h2 in
  fst (pop true (calloc_tape w)) = true ->
  fst (ulink_usb_open h) = ERROR_OK ->
  host_trace h2
  = host_trace h ++ [EvUsbOpen; EvClaimInterface; EvGetString 1 20] /\
  exists result h' w',
    ulink_init h w = Done (result, h') w' /\
    if (0 <=? fst reply) && bool_decide (take 9 (snd reply) = OpenULINK)
    then h' = h2
    else
      h' = snd o /\
      (exists evs, host_trace h' = host_trace h2 ++ cpucs_msg 1 :: evs) /\
      (forall r, fst o = Returned r -> r <> ERROR_OK ->
                 result = InitReturned r /\ trace w' = trace w) /\
      (fst o = DownloadUndefined ->
       result = InitDownloadUndefined /\ trace w' = trace w).
Proof.
  intros h1 reply h2 o Hcalloc Hopen.
  destruct (usb_open_ok h Hopen) as [T1 _]. fold h1 in T1.
  assert (host_trace h2
          = host_trace h ++ [EvUsbOpen; EvClaimInterface; EvGetString 1 20])
    as T2.
  { subst h2. unfold usb_get_string_simple.
    destruct (pop (9, OpenULINK) (descriptor_tape h1)) as [rp t].
    cbn. rewrite T1, <- app_assoc. reflexivity. }
  split; [exact T2|].
  assert (fst (usb_get_string_simple 1 20 h1) = reply) as Hreply.
  { subst reply. unfold usb_get_string_simple.
    destruct (pop (9, OpenULINK) (descriptor_tape h1)). reflexivity. }
  unfold ulink_init. rewrite bind_eq. unfold calloc_ok.
  destruct (pop true (calloc_tape w)) as [ok t]. cbn [fst] in Hcalloc. subst ok.
  cbn [negb]. rewrite bind_eq. unfold modify at 1. cbv beta iota.
  set (w1 := with_handle _ _).
  assert (trace w1 = trace w) as Tw1 by reflexivity.
  clearbody w1.
  destruct (ulink_usb_open h) as [r1 h1'] eqn:Eopen.
  cbn [fst snd] in *. subst r1 h1. cbn [negb is_ok].
  destruct (usb_get_string_simple 1 20 h1') as [descriptor h2'] eqn:Eget.
  cbn [fst snd] in *. subst descriptor h2. cbv zeta.
  unfold not_OpenULINK.
  assert (forall b : bool,
            b = false ->
            exists result h' w',
              (let '(r, h0) := if negb b then o else (Returned ERROR_OK, h2') in
               match r with
               | Returned r0 =>
                   if negb (is_ok r0) then ret (InitReturned r0, h0)
                   else let* result := init_handshake in ret (result, h0)
               | DownloadUndefined => ret (InitDownloadUndefined, h0)
               end) w1 = Done (result, h') w' /\
              h' = snd o /\
              (exists evs, host_trace h' = host_trace h2' ++ cpucs_msg 1 :: evs) /\
              (forall r, fst o = Returned r -> r <> ERROR_OK ->
                         result = InitReturned r /\ trace w' = trace w) /\
              (fst o = DownloadUndefined ->
               result = InitDownloadUndefined /\ trace w' = trace w))
    as Hdownload.
  { intros b ->. cbn [negb].
    destruct (renumerate_begins_with_halt ULINK_RENUMERATION_DELAY h2')
      as (evs & Tevs). fold o in Tevs.
    destruct o as [[r3|] h3]; cbn [fst snd] in *.
    - destruct r3; cbn [negb is_ok].
      + destruct (init_handshake_runs w1) as (res & w' & Hrun & _).
        rewrite bind_eq, Hrun. eexists _, _, _. split; [reflexivity|].
        split; [reflexivity|]. split; [eauto|].
        split; [intros r [= <-] Hr; congruence | discriminate].
      + eexists _, _, _. split; [reflexivity|].
        split; [reflexivity|]. split; [eauto|].
        split; [intros r [= <-] _; auto | discriminate].
      + eexists _, _, _. split; [reflexivity|].
        split; [reflexivity|]. split; [eauto|].
        split; [intros r [= <-] _; auto | discriminate].
    - eexists _, _, _. split; [reflexivity|].
      split; [reflexivity|]. split; [eauto|].
      split; [discriminate | auto]. }
  destruct (Z.ltb_spec (fst reply) 0) as [Hneg | Hpos].
  - (* the descriptor could not be read *)
    assert ((0 <=? fst reply) = false) as -> by (apply Z.leb_gt; exact Hneg).
    cbn [andb]. exact (Hdownload false eq_refl).
  - assert ((0 <=? fst reply) = true) as -> by (apply Z.leb_le; exact Hpos).
    cbn [andb].
    destruct (bool_decide (take 9 (snd reply) = OpenULINK)); cbn [negb].
    + (* the adapter runs the OpenULINK firmware *)
      cbn [negb is_ok].
      destruct (init_handshake_runs w1) as (res & w' & Hrun & _).
      rewrite bind_eq, Hrun. eexists _, _, _. split; reflexivity.
    + exact (Hdownload false eq_refl).
Qed.

End FirmwareDecision.

Lemma init_downloads_unless_OpenULINK_witness :
  fst (pop true (calloc_tape idle_world)) = true /\
  fst (ulink_usb_open sample_host) = ERROR_OK /\
  exists result h' w',
    @ulink_init sample_externals sample_host idle_world
    = Done (result, h') w' /\
    exists evs,
      host_trace h'
      = host_trace sample_host
        ++ [EvUsbOpen; EvClaimInterface; EvGetString 1 20]
        ++ cpucs_msg 1 :: evs.
Proof.
  assert (fst (pop true (calloc_tape idle_world)) = true) as Hcalloc
    by (vm_compute; reflexivity).
  assert (fst (ulink_usb_open sample_host) = ERROR_OK) as Hopen
    by (vm_compute; reflexivity).
  split; [exact Hcalloc|]. split; [exact Hopen|].
  destruct (@init_downloads_unless_OpenULINK sample_externals
              sample_host idle_world Hcalloc Hopen)
    as (T2 & result & h' & w' & Hrun & Hcase).
  exists result, h', w'. split; [exact Hrun|].
  change ((0 <=? -1) && bool_decide (take 9 (@nil Z) = OpenULINK))
    with false in Hcase.
  destruct Hcase as (_ & (evs & Tevs) & _).
  exists evs. rewrite Tevs, T2, <- app_assoc. reflexivity.
Defined.

(** * When a command is emitted *)

Section ReturnCodes.

Context `{Ext : Externals}.

(** A command that does not fit is appended to the queue that the flush
    leaves, and only if the flush succeeds. *)
Lemma append_queue_flushes cmd w :
  ~ fits cmd (queue (ulink_handle w)) ->
  ulink_append_queue cmd w
  = match flush w with
    | Done r wf => if is_ok r then Done ERROR_OK (linked cmd wf) else Done r wf
    | Exited st wf => Exited st wf
    end.
Proof.
  intros Hno. pose proof (fits_dec cmd (ulink_handle w)) as Hfit.
  unfold ulink_append_queue.
  rewrite bind_eq. unfold get at 1. cbv beta iota zeta.
  destruct (_ || _); [|exfalso; apply Hno, Hfit; reflexivity].
  rewrite bind_eq. fold flush.
  destruct (flush w) as [r wf | st wf]; [|reflexivity].
  destruct r; cbn [negb is_ok]; cbv beta iota; try reflexivity.
  rewrite bind_eq, link_cmd_exact. reflexivity.
Qed.

(** The two allocations of a constructor of two-byte commands, and the
    append that follows them. *)
Lemma two_byte_constructor_code (i : cmd_id) (b0 b1 : Z) w :
  (let* ok := calloc_ok in
   if negb ok then ret ERROR_FAIL
   else
     let cmd := set_id i zeroed_cmd in
     let* rc := ulink_allocate_payload cmd 2 PAYLOAD_DIRECTION_OUT in
     let '(r, cmd) := rc in
     if negb (is_ok r) then ret r
     else
       let cmd := set_out 0 b0 cmd in
       let cmd := set_out 1 b1 cmd in
       ulink_append_queue cmd) w
  = match calloc_tape w with
    | false :: t => Done ERROR_FAIL (with_calloc_tape t w)
    | true :: false :: t => Done ERROR_FAIL (with_calloc_tape t w)
    | t => ulink_append_queue (two_byte_cmd i b0 b1)
             (with_calloc_tape (drop 2 t) w)
    end.
Proof.
  rewrite bind_eq. unfold calloc_ok at 1.
  destruct (calloc_tape w) as [|[] t] eqn:E; cbn [pop negb]; cbv beta iota zeta;
    try reflexivity.
  all: unfold ulink_allocate_payload; rewrite !bind_eq; unfold calloc_ok;
    cbn [calloc_tape with_calloc_tape].
  all: try (destruct t as [|[] t]); cbn [pop negb]; reflexivity.
Qed.

End ReturnCodes.

(** ** The sleep request *)

Section Sleep.

Context `{Ext : Externals}.

(** C8. A sleep request of [us] microseconds (a 32-bit count) never delays
    on the host side.  It returns [ERROR_OK] exactly when its two
    allocations succeed and the command fits behind the queued ones or, if
    it does not fit, the queue is first executed, post-processed and cleared
    with success.  It has then emitted exactly one sleep-us command, whose
    two payload bytes are [us mod 256] and [(us div 256) mod 256], the
    little-endian encoding of [us mod 2^16].  In every other case it returns
    an error and has emitted no command. *)
Theorem sleep_emits_sleep_us us w :
  0 <= us < 4294967296 ->
  exists r w' t,
    ulink_queue_sleep us w = Done r w' /\
    trace w' = trace w ++ t /\
    (forall d, ~ In (EvUsleep d) t) /\
    let c := {| id := CMD_SLEEP_US;
                payload_out := Some [us mod 256; (us / 256) mod 256];
                payload_out_size := 2;
                payload_in_start := None; payload_in := None;
                payload_in_size := 0;
                needs_postprocessing := false; free_payload_in_start := false;
                cmd_origin := None |} in
    (us mod 256 + 256 * ((us / 256) mod 256) = us mod 65536) /\
    (r = ERROR_OK <->
       ~ In false (take 2 (calloc_tape w)) /\
       (fits c (queue (ulink_handle w)) \/
        exists wf,
          flush (with_calloc_tape (drop 2 (calloc_tape w)) w)
          = Done ERROR_OK wf)) /\
    (r = ERROR_OK ->
       enqueued t = [c] /\
       exists q0, queue (ulink_handle w') = q0 ++ [c] /\
                  (q0 = queue (ulink_handle w) \/ q0 = [])) /\
    (r <> ERROR_OK -> enqueued t = []).
Proof.
  intros Hus. unfold ulink_queue_sleep.
  destruct (append_sleep_runs (u32 us) w) as (r & w' & Hrun & Hres).
  pose proof (two_byte_constructor_code CMD_SLEEP_US (Z.land (u32 us) 255)
                (Z.land (Z.shiftr (u32 us) 8) 255) w) as Hcode.
  change (ulink_append_sleep_cmd (u32 us) w = Done r w') in Hrun.
  lazymatch type of Hcode with
  | _ = ?rhs => change (ulink_append_sleep_cmd (u32 us) w = rhs) in Hcode
  end.
  rewrite (sleep_payload us Hus) in Hres, Hcode.
  rewrite Hrun in Hcode.
  destruct (append_result_trace _ _ _ _ Hres) as (t & T & Hno & Henq).
  exists r, w', t. split; [exact Hrun|]. split; [exact T|].
  split; [exact Hno|]. cbv zeta.
  set (c := {| id := CMD_SLEEP_US |}) in *.
  split.
  { change 65536 with (256 * 256). rewrite Z.rem_mul_r by lia. lia. }
  split; [|split].
  - (* when the request succeeds *)
    set (w2 := with_calloc_tape (drop 2 (calloc_tape w)) w) in *.
    assert (Done r w' = ulink_append_queue c w2 ->
            (r = ERROR_OK <->
             fits c (queue (ulink_handle w)) \/
             exists wf, flush w2 = Done ERROR_OK wf)) as Happend.
    { intros E.
      destruct (fits_dec c (ulink_handle w)) as [Hf1 Hf2].
      destruct (_ || _) eqn:Eover.
      - assert (~ fits c (queue (ulink_handle w))) as Hnf.
        { intros Hf. specialize (Hf2 Hf). discriminate. }
        rewrite (append_queue_flushes c w2 Hnf) in E.
        destruct (flush w2) as [rf wf | st wf]; [|discriminate E].
        destruct rf; cbn [is_ok] in E; injection E as -> ->.
        + split; [eauto | reflexivity].
        + split; [discriminate|]. intros [Hf | (wf' & [=])]. tauto.
        + split; [discriminate|]. intros [Hf | (wf' & [=])]. tauto.
      - specialize (Hf1 eq_refl).
        rewrite (append_queue_exact c w2 Hf1) in E. injection E as -> ->.
        split; [auto | reflexivity]. }
    destruct (calloc_tape w) as [|[] t0];
      [|destruct t0 as [|[] tape]|]; cbn [take In] in *.
    + rewrite (Happend Hcode). split; [intros H; split; [|exact H] | tauto].
      intros [].
    + rewrite (Happend Hcode). split; [intros H; split; [|exact H] | tauto].
      intros [H0 | []]. discriminate H0.
    + rewrite (Happend Hcode). split; [intros H; split; [|exact H] | tauto].
      intros [H0 | [H0 | []]]; discriminate H0.
    + injection Hcode as -> _. split; [discriminate|].
      intros [H _]. exfalso. apply H. right. left. reflexivity.
    + injection Hcode as -> _. split; [discriminate|].
      intros [H _]. exfalso. apply H. left. reflexivity.
  - intros ->. split; [exact Henq|]. apply (append_result_queue _ _ _ Hres).
  - intros Hr. destruct r; [congruence| |]; exact Henq.
Qed.

End Sleep.

Lemma sleep_emits_sleep_us_witness :
  exists w',
    @ulink_queue_sleep sample_externals 1234 idle_world = Done ERROR_OK w' /\
    map payload_out (enqueued (trace w')) = [Some [210; 4]].
Proof.
  destruct (@sleep_emits_sleep_us sample_externals 1234 idle_world)
    as (r & w' & t & Hrun & T & _ & _ & Hiff & Hok & _); [lia|].
  assert (r = ERROR_OK) as ->.
  { apply Hiff. split; [intros []|]. left. unfold fits. simpl. lia. }
  exists w'. split; [exact Hrun|].
  destruct (Hok eq_refl) as [Henq _].
  rewrite T. change (trace idle_world) with (@nil event).
  cbn [app]. rewrite Henq. reflexivity.
Defined.

(** Without memory for the command the sleep request emits nothing: the
    first [calloc] of [ulink_append_sleep_cmd] fails, and the request returns
    [ERROR_FAIL] with the history and the queue as they were. *)
Lemma sleep_without_memory_emits_nothing :
  let w := with_calloc_tape [false] idle_world in
  @ulink_queue_sleep sample_externals 1234 w
  = Done ERROR_FAIL (with_calloc_tape [] w) /\
  enqueued (trace (with_calloc_tape [] w)) = [] /\
  queue (ulink_handle (with_calloc_tape [] w)) = [].
Proof. vm_compute. repeat split. Qed.

(** * No command is dropped *)

Lemma runs_conj {A} (m : M A) w (Q1 Q2 : A -> world -> Prop) :
  runs m w Q1 -> runs m w Q2 -> runs m w (fun a w' => Q1 a w' /\ Q2 a w').
Proof.
  intros (a & w' & E & H1) H2. exists a, w'. split; [exact E|].
  split; [exact H1 | exact (runs_det _ _ _ _ _ H2 E)].
Qed.

Section Sent.

Context `{Ext : Externals}.

Lemma offered_app c t t2 : offered c t -> offered c (t ++ t2).
Proof.
  intros (q & Hc & Hin). exists q. split; [exact Hc|].
  apply in_or_app. left. exact Hin.
Qed.

Lemma none_dropped_refl w : none_dropped w w.
Proof.
  exists []. rewrite app_nil_r. split; [reflexivity|].
  intros c [Hc | []]. left. exact Hc.
Qed.

(** Transfers and changes of the TAP follower drop nothing. *)
Lemma none_dropped_io w0 w w' t2 :
  none_dropped w0 w ->
  trace w' = trace w ++ t2 -> Forall io_event t2 ->
  ulink_handle w' = ulink_handle w ->
  none_dropped w0 w'.
Proof.
  intros (t & T & Hall) T2 F2 Hh. exists (t ++ t2).
  split; [rewrite T2, T, app_assoc; reflexivity|].
  intros c Hc. rewrite enqueued_app, (enqueued_io t2 F2), app_nil_r in Hc.
  rewrite Hh. destruct (Hall c Hc) as [Hq | Ho]; [left; exact Hq|].
  right. apply offered_app. exact Ho.
Qed.

Lemma none_dropped_quiet w0 w w' :
  quiet w w' -> none_dropped w0 w -> none_dropped w0 w'.
Proof.
  intros [h _ _ (t2 & T2 & F2)] Hn.
  exact (none_dropped_io w0 w w' t2 Hn T2 F2 h).
Qed.

Lemma sending_quiet w0 w w' :
  quiet w w' -> sending_inv w0 w -> sending_inv w0 w'.
Proof.
  intros Q [HI Hn]. split.
  - exact (quiet_driver_inv _ _ Q HI).
  - exact (none_dropped_quiet _ _ _ Q Hn).
Qed.

Lemma linked_queue cmd w :
  queue (ulink_handle (linked cmd w)) = queue (ulink_handle w) ++ [cmd].
Proof.
  unfold linked. cbn [ulink_handle with_handle log].
  destruct (queue (ulink_handle w)); reflexivity.
Qed.

(** Linking a command drops nothing: it is queued. *)
Lemma none_dropped_linked w0 w cmd :
  none_dropped w0 w -> none_dropped w0 (linked cmd w).
Proof.
  intros (t & T & Hall). exists (t ++ [EvEnqueue cmd]).
  split; [unfold linked; cbn [trace with_handle log]; rewrite T, app_assoc;
          reflexivity|].
  intros c Hc. rewrite linked_queue.
  rewrite enqueued_app in Hc. cbn [enqueued] in Hc.
  assert (In c (queue (ulink_handle w0)) \/ In c (enqueued t) \/ c = cmd)
    as [Hc0 | [Hc1 | ->]].
  { destruct Hc as [Hc | Hc]; [auto|].
    apply in_app_or in Hc. destruct Hc as [Hc | [<- | []]]; auto. }
  - destruct (Hall c (or_introl Hc0)) as [Hq | Ho].
    + left. apply in_or_app. left. exact Hq.
    + right. apply offered_app. exact Ho.
  - destruct (Hall c (or_intror Hc1)) as [Hq | Ho].
    + left. apply in_or_app. left. exact Hq.
    + right. apply offered_app. exact Ho.
  - left. apply in_or_app. right. left. reflexivity.
Qed.

(** Emptying the queue after the bulk write of its packet drops nothing. *)
Lemma none_dropped_flushed w0 w w' t2 :
  none_dropped w0 w ->
  trace w'
  = trace w
    ++ EvBulkWrite (packet_bytes (queue (ulink_handle w)))
                   (out_bytes (queue (ulink_handle w))) USB_TIMEOUT :: t2 ->
  Forall io_event t2 ->
  none_dropped w0 w'.
Proof.
  intros (t & T & Hall) T2 F2.
  exists (t ++ EvBulkWrite (packet_bytes (queue (ulink_handle w)))
                (out_bytes (queue (ulink_handle w))) USB_TIMEOUT :: t2).
  split; [rewrite T2, T, app_assoc; reflexivity|].
  intros c Hc. rewrite enqueued_app in Hc. cbn [enqueued] in Hc.
  rewrite (enqueued_io t2 F2), app_nil_r in Hc. right.
  destruct (Hall c Hc) as [Hq | Ho]; [|apply offered_app; exact Ho].
  exists (queue (ulink_handle w)). split; [exact Hq|].
  apply in_or_app. right. left. reflexivity.
Qed.

(** The first thing [ulink_execute_queued_commands] does is the bulk write
    of the packet of the queue. *)
Lemma execute_sends timeout w :
  driver_inv w ->
  runs (ulink_execute_queued_commands timeout) w (fun _ w' =>
    exists t,
      trace w'
      = trace w
        ++ EvBulkWrite (packet_bytes (queue (ulink_handle w)))
                       (out_bytes (queue (ulink_handle w))) timeout :: t /\
      Forall io_event t).
Proof.
  intros (_ & Hout & _ & Hwf).
  destruct (pack_from_fresh _ Hwf Hout) as (Htake & Hco & _ & _).
  unfold ulink_execute_queued_commands. step. step. cbv zeta.
  set (p := pack_from _ _) in *.
  apply runs_bind. unfold runs at 1, usb_bulk_write.
  rewrite Htake, Hco.
  destruct (pop _ (bulk_write_tape w)) as [r tape].
  eexists _, _. split; [reflexivity|].
  set (w1 := log _ _).
  assert (forall (m : M retcode),
            runs m w1 (fun _ w' => quiet w1 w') ->
            runs m w1 (fun _ w' =>
              exists t,
                trace w'
                = trace w
                  ++ EvBulkWrite (packet_bytes (queue (ulink_handle w)))
                       (out_bytes (queue (ulink_handle w))) timeout :: t /\
                Forall io_event t)) as Hrest.
  { intros m Hm. eapply runs_weaken; [exact Hm|].
    intros a w' [_ _ _ (t & T & F)]. exists t. split; [|exact F].
    rewrite T. subst w1. cbn [trace log with_bulk_write_tape].
    rewrite <- app_assoc. reflexivity. }
  apply Hrest.
  destruct (r <? 0); [step; apply quiet_refl|].
  destruct (negb _); [step; apply quiet_refl|].
  destruct (_ >? 0); [|step; apply quiet_refl].
  call usb_bulk_read_runs. intros [r2 buffer'] w2 Q2.
  destruct (r2 <? 0); [step; exact Q2|].
  destruct (negb _); [step; exact Q2|].
  step. step. step.
  eapply quiet_trans; [exact Q2 | apply with_heap_quiet].
Qed.

(** Execute, post-process, clear: the queue is emptied only after the bulk
    write of its packet. *)
Lemma flush_sends w :
  driver_inv w ->
  runs flush w (fun r w' =>
    exists t,
      trace w'
      = trace w
        ++ EvBulkWrite (packet_bytes (queue (ulink_handle w)))
                       (out_bytes (queue (ulink_handle w))) USB_TIMEOUT :: t /\
      Forall io_event t /\
      ((r = ERROR_OK /\
        ulink_handle w' = {| commands_in_queue := 0; queue := [] |}) \/
       (r <> ERROR_OK /\ ulink_handle w' = ulink_handle w))).
Proof.
  intros HI. unfold flush.
  apply runs_bind.
  eapply runs_weaken;
    [exact (runs_conj _ _ _ _ (execute_sends USB_TIMEOUT w HI)
              (execute_runs USB_TIMEOUT w))|].
  cbv beta. intros r1 w1 [(t1 & T1 & F1) Q1].
  assert (forall r w', r <> ERROR_OK -> quiet w1 w' ->
            exists t,
              trace w'
              = trace w
                ++ EvBulkWrite (packet_bytes (queue (ulink_handle w)))
                     (out_bytes (queue (ulink_handle w))) USB_TIMEOUT :: t /\
              Forall io_event t /\
              ((r = ERROR_OK /\
                ulink_handle w' = {| commands_in_queue := 0; queue := [] |}) \/
               (r <> ERROR_OK /\ ulink_handle w' = ulink_handle w))) as Hfail.
  { intros r w' Hr [h _ _ (t & T & F)]. exists (t1 ++ t).
    split; [rewrite T, T1, <- app_assoc; reflexivity|].
    split; [apply Forall_app; auto|]. right. split; [exact Hr|].
    rewrite h. apply Q1. }
  destruct r1; cbn [negb is_ok];
    try (step; apply Hfail; [discriminate | apply quiet_refl]).
  call post_process_runs. intros r2 w2 Q2.
  destruct r2; cbn [negb is_ok];
    try (step; apply Hfail; [discriminate | exact Q2]).
  call clear_queue_runs. intros [] w3 [h _ _ (t3 & T3 & F3)].
  step. destruct Q2 as [_ _ _ (t2 & T2 & F2)].
  exists (t1 ++ t2 ++ t3).
  split; [rewrite T3, T2, T1, <- !app_assoc; reflexivity|].
  split; [repeat (apply Forall_app; split); auto|].
  left. split; [reflexivity | exact h].
Qed.

Variable w0 : world.

Lemma append_queue_sent cmd w :
  sending_inv w0 w -> within_packet cmd ->
  runs (ulink_append_queue cmd) w (fun _ w' => sending_inv w0 w').
Proof.
  intros [HI Hn] Hwp.
  apply runs_conj; [exact (append_queue_inv cmd w HI Hwp)|].
  destruct (fits_dec cmd (ulink_handle w)) as [Hf1 Hf2].
  destruct (_ || _) eqn:Eover.
  - assert (~ fits cmd (queue (ulink_handle w))) as Hnf.
    { intros Hf. specialize (Hf2 Hf). discriminate. }
    destruct (flush_sends w HI) as (r & w1 & Hflush & t & T & F & Hcase).
    unfold runs. rewrite (append_queue_flushes cmd w Hnf), Hflush.
    destruct Hcase as [[-> Hh] | [Hr Hh]].
    + cbn [is_ok]. eexists _, _. split; [reflexivity|].
      apply none_dropped_linked.
      exact (none_dropped_flushed w0 w w1 t Hn T F).
    + assert (is_ok r = false) as ->
        by (destruct r; [congruence | reflexivity..]).
      eexists _, _. split; [reflexivity|].
      apply (none_dropped_io w0 w w1 _ Hn T); [|exact Hh].
      constructor; [exact I | exact F].
  - unfold runs. rewrite (append_queue_exact cmd w (Hf1 eq_refl)).
    eexists _, _. split; [reflexivity|].
    apply none_dropped_linked. exact Hn.
Qed.

Lemma append_scan_cmd_sent t bits tdi tdo_start tdo tcs tss tce tse origin pp w :
  sending_inv w0 w -> 0 <= bits ->
  runs (ulink_append_scan_cmd t bits tdi tdo_start tdo tcs tss tce tse origin pp)
       w (fun _ w' => sending_inv w0 w').
Proof.
  intros HI Hbits. unfold ulink_append_scan_cmd.
  call calloc_ok_runs. intros ok w1 Q1.
  pose proof (sending_quiet _ _ _ Q1 HI) as HI1.
  destruct ok; simpl negb; cbv iota; [|step; exact HI1].
  cbv zeta.
  destruct (Z.gtb_spec bits (58 * 8)) as [Hbig | Hsmall]; [step; exact HI1|].
  pose proof (scan_cmd_within_packet t bits tdi tdo_start tdo tcs tss tce tse
                origin pp (conj Hbits Hsmall)) as Hwp.
  unfold scan_cmd in Hwp. cbv zeta in Hwp.
  apply runs_bind.
  destruct t.
  4:{ step. simpl. step. exact HI1. }
  all: eapply runs_weaken; [apply allocate_out_runs; reflexivity|].
  all: intros rc w2 [Q2 Hrc]; cbv beta.
  all: pose proof (sending_quiet _ _ _ Q2 HI1) as HI2.
  all: destruct Hrc as [-> | ->]; cbv iota beta; simpl negb; cbv iota.
  all: try (step; exact HI2).
  all: apply append_queue_sent; [exact HI2 | exact Hwp].
Qed.

Lemma out_constructor_sent (i : cmd_id) (size : Z) (f : ulink_cmd -> ulink_cmd) w :
  sending_inv w0 w ->
  0 <= size <= 63 ->
  (forall c, same_frame c (f c)) ->
  runs
    (let* ok := calloc_ok in
     if negb ok then ret ERROR_FAIL
     else
       let cmd := set_id i zeroed_cmd in
       let* rc := ulink_allocate_payload cmd size PAYLOAD_DIRECTION_OUT in
       let '(r, cmd) := rc in
       if negb (is_ok r) then ret r
       else ulink_append_queue (f cmd))
    w (fun _ w' => sending_inv w0 w').
Proof.
  intros HI Hsize Hf.
  call calloc_ok_runs. intros ok w1 Q1.
  pose proof (sending_quiet _ _ _ Q1 HI) as HI1.
  destruct ok; simpl negb; cbv iota; [|step; exact HI1].
  cbv zeta.
  call allocate_out_runs; [reflexivity|]. intros rc w2 [Q2 Hrc].
  pose proof (sending_quiet _ _ _ Q2 HI1) as HI2.
  destruct Hrc as [-> | ->]; simpl; [|step; exact HI2].
  apply append_queue_sent; [exact HI2|].
  destruct (Hf (set_payload_out (Some (replicate (Z.to_nat size) 0)) (u8 size)
                  (set_id i zeroed_cmd))) as [_ Hs Hl _ _ His _ _ _].
  unfold within_packet, well_formed. rewrite Hs, Hl, His. simpl.
  rewrite length_replicate, u8_small by lia. lia.
Qed.

Lemma clock_tms_sent count sequence :
  keeps (sending_inv w0) (ulink_append_clock_tms_cmd count sequence).
Proof.
  apply runs_keeps. intros w HI. apply (out_constructor_sent _ 2
    (fun c => set_out 1 sequence (set_out 0 count c)));
    [assumption | lia | intros; apply set_out2_frame].
Qed.

Lemma clock_tck_sent count :
  keeps (sending_inv w0) (ulink_append_clock_tck_cmd count).
Proof.
  apply runs_keeps. intros w HI. apply (out_constructor_sent _ 2
    (fun c => set_out 1 (Z.land (Z.shiftr count 8) 255)
                (set_out 0 (Z.land count 255) c)));
    [assumption | lia | intros; apply set_out2_frame].
Qed.

Lemma set_signals_sent low high :
  keeps (sending_inv w0) (ulink_append_set_signals_cmd low high).
Proof.
  apply runs_keeps. intros w HI. apply (out_constructor_sent _ 2
    (fun c => set_out 1 high (set_out 0 low c)));
    [assumption | lia | intros; apply set_out2_frame].
Qed.

Lemma sleep_sent us : keeps (sending_inv w0) (ulink_append_sleep_cmd us).
Proof.
  apply runs_keeps. intros w HI. apply (out_constructor_sent _ 2
    (fun c => set_out 1 (Z.land (Z.shiftr us 8) 255)
                (set_out 0 (Z.land us 255) c)));
    [assumption | lia | intros; apply set_out2_frame].
Qed.

Lemma sending_follower w w' :
  ulink_handle w' = ulink_handle w -> trace w' = trace w ->
  sending_inv w0 w -> sending_inv w0 w'.
Proof.
  intros Hh Ht [HI Hn]. split; [exact (driver_inv_handle _ _ Hh HI)|].
  apply (none_dropped_io w0 w w' [] Hn); [|constructor|exact Hh].
  rewrite app_nil_r. exact Ht.
Qed.

Lemma tap_set_state_sent s : keeps (sending_inv w0) (tap_set_state s).
Proof. intros w. apply sending_follower; reflexivity. Qed.

Lemma tap_set_end_state_sent s : keeps (sending_inv w0) (tap_set_end_state s).
Proof. intros w. apply sending_follower; reflexivity. Qed.

Lemma set_end_state_sent s : keeps (sending_inv w0) (ulink_set_end_state s).
Proof.
  unfold ulink_set_end_state. destruct (tap_is_state_stable s).
  - apply tap_set_end_state_sent.
  - apply keeps_exit.
Qed.

Ltac sent_step :=
  lazymatch goal with
  | |- keeps _ (bind _ _) => apply keeps_bind; [|intros ?]
  | |- keeps _ (ret _) => apply keeps_ret
  | |- keeps _ (get _) => apply keeps_get
  | |- keeps _ tap_get_state => apply keeps_get
  | |- keeps _ tap_get_end_state => apply keeps_get
  | |- keeps _ (exit _) => apply keeps_exit
  | |- keeps _ (tap_set_state _) => apply tap_set_state_sent
  | |- keeps _ (tap_set_end_state _) => apply tap_set_end_state_sent
  | |- keeps _ (ulink_set_end_state _) => apply set_end_state_sent
  | |- keeps _ (ulink_append_clock_tms_cmd _ _) => apply clock_tms_sent
  | |- keeps _ (ulink_append_clock_tck_cmd _) => apply clock_tck_sent
  | |- keeps _ (ulink_append_set_signals_cmd _ _) => apply set_signals_sent
  | |- keeps _ (ulink_append_sleep_cmd _) => apply sleep_sent
  | |- keeps _ (if ?b then _ else _) => destruct b
  | |- keeps _ (match ?x with _ => _ end) => destruct x
  end.

Lemma statemove_sent : keeps (sending_inv w0) ulink_queue_statemove.
Proof. unfold ulink_queue_statemove. cbv zeta. repeat sent_step. Qed.

Lemma scan_transitions_sent shift pause end_state :
  keeps (sending_inv w0) (scan_transitions shift pause end_state).
Proof. unfold scan_transitions. cbv zeta. repeat sent_step. Qed.

Lemma scan_loop_sent s :
  forall bytecount tdi tdo w,
    (bytecount mod 58 <> 0 -> 0 <= to_int (bits_last_scan s)) ->
    sending_inv w0 w ->
    runs (scan_loop s bytecount tdi tdo) w (fun _ w' => sending_inv w0 w').
Proof.
  intros bytecount.
  induction bytecount as [bytecount IH] using (well_founded_induction (Z.lt_wf 0)).
  intros tdi tdo w Hbits HI.
  rewrite scan_loop_eq.
  destruct (Z.gtb_spec bytecount 0) as [Hpos|]; [|step; exact HI].
  cbv zeta.
  assert (forall w1 tdi1 tdo1, sending_inv w0 w1 ->
            runs (scan_loop s 0 tdi1 tdo1) w1 (fun _ w' => sending_inv w0 w'))
    as Hend.
  { intros w1 tdi1 tdo1 HI1. rewrite scan_loop_eq. simpl. step. exact HI1. }
  destruct (Z.gtb_spec bytecount 58) as [Hbig|Hsmall].
  - apply runs_bind. eapply runs_weaken;
      [apply append_scan_cmd_sent; [exact HI | lia]|].
    intros r w1 HI1. cbv beta.
    destruct (negb (is_ok r)); [step; exact HI1|].
    apply IH; [lia| |exact HI1].
    intros Hm. apply Hbits. intros E. apply Hm.
    replace (bytecount - 58) with (bytecount + (-1) * 58) by lia.
    rewrite Z.mod_add by lia. exact E.
  - destruct (Z.eqb_spec bytecount 58) as [E58|Hne].
    + apply runs_bind. eapply runs_weaken;
        [apply append_scan_cmd_sent; [exact HI | lia]|].
      intros r w1 HI1. cbv beta.
      destruct (negb (is_ok r)); [step; exact HI1|]. apply Hend. exact HI1.
    + apply runs_bind. eapply runs_weaken;
        [apply append_scan_cmd_sent; [exact HI|]|].
      * apply Hbits. rewrite Z.mod_small by lia. lia.
      * intros r w1 HI1. cbv beta.
        destruct (negb (is_ok r)); [step; exact HI1|]. apply Hend. exact HI1.
Qed.

Lemma queue_scan_sent scan : keeps (sending_inv w0) (ulink_queue_scan scan).
Proof.
  unfold ulink_queue_scan. cbv zeta.
  apply keeps_bind.
  { apply runs_keeps. intros w HI.
    eapply runs_weaken; [apply alloc_tdo_runs|].
    intros a w' Q. exact (sending_quiet _ _ _ Q HI). }
  intros [tdo_start|]; [|apply keeps_ret].
  apply keeps_bind.
  { destruct (ir_scan scan); apply scan_transitions_sent. }
  intros [[[[fc fs] [lc ls]] [pc ps]] [rc rs]].
  apply keeps_bind.
  { apply runs_keeps. intros w HI. apply scan_loop_sent; [|exact HI].
    cbn [bits_last_scan]. intros Hm.
    apply (last_scan_bits_range (jtag_scan_size scan)). exact Hm. }
  intros r. repeat sent_step.
Qed.

Lemma dispatch_sent c : keeps (sending_inv w0) (dispatch c).
Proof.
  destruct c as [scan| |num_cycles end_state|trst srst| |us|]; simpl.
  - apply queue_scan_sent.
  - unfold ulink_queue_tlr_reset. repeat sent_step.
  - unfold ulink_queue_runtest. repeat sent_step; apply statemove_sent.
  - unfold ulink_queue_reset. cbv zeta. repeat sent_step.
  - apply keeps_ret.
  - unfold ulink_queue_sleep. sent_step.
  - apply keeps_ret.
Qed.

Lemma translate_from_sent reqs : keeps (sending_inv w0) (translate_from reqs).
Proof.
  induction reqs as [|c reqs IH]; simpl.
  - apply keeps_ret.
  - apply keeps_bind; [apply dispatch_sent|].
    intros r. destruct (negb (is_ok r)); [apply keeps_ret | exact IH].
Qed.

(** What [ulink_execute_queue] does once the requests are translated. *)
Lemma execute_queue_tail_sent w :
  sending_inv w0 w ->
  runs
    (let* device := get ulink_handle in
     if commands_in_queue device >? 0 then
       let* r := ulink_execute_queued_commands USB_TIMEOUT in
       if negb (is_ok r) then ret r
       else
         let* r := ulink_post_process_queue in
         if negb (is_ok r) then ret r
         else ulink_clear_queue ;; ret ERROR_OK
     else ret ERROR_OK)
    w (fun r w' => none_dropped w0 w').
Proof.
  intros [HI Hn]. step. step.
  destruct (Z.gtb_spec (commands_in_queue (ulink_handle w)) 0) as [Hpos | Hz].
  - fold flush. eapply runs_weaken; [apply flush_sends; exact HI|].
    intros r w' (t & T & F & [[-> Hh] | [Hr Hh]]).
    + exact (none_dropped_flushed w0 w w' t Hn T F).
    + apply (none_dropped_io w0 w w' _ Hn T); [|exact Hh].
      constructor; [exact I | exact F].
  - step. exact Hn.
Qed.

End Sent.

Section Drains.

Context `{Ext : Externals}.

(** X3. [ulink_execute_queue] keeps the queue as it should be, and when it
    returns [ERROR_OK] the queue is empty, its counter is zero, and no
    command was dropped on the way: every command that was queued before
    the call or was emitted during it has been handed to [usb_bulk_write],
    in the packet of a batch of commands that contains it. *)
Theorem execute_queue_drains reqs w :
  driver_inv w ->
  driver_inv (world_of (ulink_execute_queue reqs w)) /\
  exists t,
    trace (world_of (ulink_execute_queue reqs w)) = trace w ++ t /\
    (result_of (ulink_execute_queue reqs w) = Some ERROR_OK ->
     ulink_handle (world_of (ulink_execute_queue reqs w))
     = {| commands_in_queue := 0; queue := [] |} /\
     forall c,
       In c (queue (ulink_handle w)) \/ In c (enqueued t) -> offered c t).
Proof.
  intros HI.
  pose proof (translate_from_sent w reqs w (conj HI (none_dropped_refl w)))
    as [HI1 Hn1].
  unfold ulink_execute_queue. rewrite bind_eq.
  destruct (translate_from reqs w) as [r w1 | st w1]; cbn [world_of] in HI1, Hn1.
  - destruct (negb (is_ok r)) eqn:Er.
    + cbn [ret world_of result_of]. split; [exact HI1|].
      destruct Hn1 as (t & T & _). exists t. split; [exact T|].
      intros [= ->]. discriminate Er.
    + destruct (execute_queue_tail_runs w1 HI1) as (r2 & w2 & E & HI2 & Hq).
      pose proof (runs_det _ _ _ _ _
                    (execute_queue_tail_sent w w1 (conj HI1 Hn1)) E)
        as (t & T & Hall).
      rewrite E. cbn [world_of result_of]. split; [exact HI2|].
      exists t. split; [exact T|].
      intros [= ->]. split; [exact (Hq eq_refl)|].
      intros c Hc. destruct (Hall c Hc) as [Hin | Ho]; [|exact Ho].
      rewrite (Hq eq_refl) in Hin. destruct Hin.
  - cbn [world_of result_of]. split; [exact HI1|].
    destruct Hn1 as (t & T & _). exists t. split; [exact T | discriminate].
Qed.

End Drains.

Lemma execute_queue_drains_witness :
  let o := @ulink_execute_queue sample_externals
             [JTAG_TLR_RESET; JTAG_SLEEP 10] idle_world in
  driver_inv idle_world /\
  result_of o = Some ERROR_OK /\
  ulink_handle (world_of o) = {| commands_in_queue := 0; queue := [] |} /\
  exists c1 c2,
    enqueued (trace (world_of o)) = [c1; c2] /\
    @offered sample_externals c1 (trace (world_of o)) /\
    @offered sample_externals c2 (trace (world_of o)).
Proof.
  intros o. pose proof idle_world_inv as H.
  destruct (@execute_queue_drains sample_externals
              [JTAG_TLR_RESET; JTAG_SLEEP 10] idle_world H)
    as (_ & t & T & Hok).
  fold o in T, Hok. change (trace idle_world) with (@nil event) in T.
  cbn [app] in T.
  assert (result_of o = Some ERROR_OK) as Hr by (vm_compute; reflexivity).
  destruct (Hok Hr) as [Hempty Hall].
  split; [exact H|]. split; [exact Hr|]. split; [exact Hempty|].
  assert (length (enqueued (trace (world_of o))) = 2%nat) as Hlen
    by (vm_compute; reflexivity).
  rewrite T in Hlen |- *.
  destruct (enqueued t) as [|c1 [|c2 [|c3 l]]]; try discriminate Hlen.
  exists c1, c2. split; [reflexivity|].
  split; apply Hall; right; [left | right; left]; reflexivity.
Defined.
